(** * Skilljar lesson downloader: a shallow embedding and its properties

    The development follows [skilljar_lesson_downloader.py].  Python
    strings are Rocq strings, read as sequences of code points below 256;
    the regular expressions of the markup scanner run on a small
    backtracking matcher with the search order of Python's [re]; the
    network and the clock are an environment of oracles that see the
    history of effects, and every function that performs I/O returns the
    events it emitted together with its outcome. *)

From Stdlib Require Import List String Ascii Arith ZArith Lia Bool.
From Stdlib Require Import DecimalString DecimalNat.
Import ListNotations.

Local Open Scope string_scope.
Local Open Scope list_scope.
Local Open Scope nat_scope.

(** ** Characters and strings *)

Module Str.

Definition chars (s : string) : list ascii := list_ascii_of_string s.
Definition of_chars (l : list ascii) : string := string_of_list_ascii l.

(** [str.lower()] on one code point below 128; the letters above are
    never equal to an ASCII letter after lowering, which is all the
    scanner's patterns and the content-type test compare against. *)
Definition lower (c : ascii) : ascii :=
  let n := nat_of_ascii c in
  if (65 <=? n) && (n <=? 90) then ascii_of_nat (n + 32) else c.

Definition lower_str (s : string) : string := of_chars (map lower (chars s)).

(** [str.isalnum()] on one code point below 256: letters, decimal digits,
    and the code points of the Latin-1 block that Unicode classes as
    letters or numbers. *)
Definition isalnum (c : ascii) : bool :=
  let n := nat_of_ascii c in
  ((48 <=? n) && (n <=? 57)) || ((65 <=? n) && (n <=? 90))
  || ((97 <=? n) && (n <=? 122))
  || (n =? 170) || (n =? 178) || (n =? 179) || (n =? 181)
  || (n =? 185) || (n =? 186) || ((188 <=? n) && (n <=? 190))
  || ((192 <=? n) && (n <=? 214)) || ((216 <=? n) && (n <=? 246))
  || ((248 <=? n) && (n <=? 255)).

(** [str.isspace()] on one code point below 256. *)
Definition isspace (c : ascii) : bool :=
  let n := nat_of_ascii c in
  ((9 <=? n) && (n <=? 13)) || ((28 <=? n) && (n <=? 32))
  || (n =? 133) || (n =? 160).

Fixpoint dropwhile {A} (p : A -> bool) (l : list A) : list A :=
  match l with
  | [] => []
  | x :: l' => if p x then dropwhile p l' else l
  end.

(** [s.rstrip()]: trailing whitespace removed. *)
Definition rstrip (s : string) : string :=
  of_chars (rev (dropwhile isspace (rev (chars s)))).

(** [s.startswith(p)] *)
Fixpoint starts_with (p s : list ascii) : bool :=
  match p, s with
  | [], _ => true
  | a :: p', b :: s' => Ascii.eqb a b && starts_with p' s'
  | _ :: _, [] => false
  end.

Definition startswith (s p : string) : bool := starts_with (chars p) (chars s).

(** [p in s] for strings: [p] occurs in [s] as a substring. *)
Fixpoint occurs (p s : list ascii) : bool :=
  starts_with p s ||
  match s with
  | [] => false
  | _ :: s' => occurs p s'
  end.

Definition contains (p s : string) : bool := occurs (chars p) (chars s).

(** [s.split(sep)[-1]] for a one-character separator: the text after the
    last occurrence of [sep], the whole string when there is none. *)
Fixpoint last_field (sep : ascii) (acc s : list ascii) : list ascii :=
  match s with
  | [] => rev acc
  | c :: s' => if Ascii.eqb c sep then last_field sep [] s'
               else last_field sep (c :: acc) s'
  end.

Definition split_last (sep : ascii) (s : string) : string :=
  of_chars (last_field sep [] (chars s)).

(** [str(n)] for a non-negative integer. *)
Definition of_nat (n : nat) : string := NilZero.string_of_uint (Nat.to_uint n).

End Str.

(** ** The regular expressions of the scanner

    The seven patterns use literals, bracket sets, negated bracket sets,
    [+] on a set, one capturing group and a non-capturing alternation.
    The flag [re.IGNORECASE] is part of the matcher: a character is
    lowered before it is compared. *)

Module Re.

Inductive atom : Type :=
| Lit (c : ascii)               (* a literal character *)
| OneOf (cs : list ascii)       (* [...] *)
| NoneOf (cs : list ascii).     (* [^...] *)

Inductive regex : Type :=
| Atom (a : atom)
| Plus (a : atom)               (* a+, greedy *)
| Seq (r1 r2 : regex)
| Alt (r1 r2 : regex)           (* r1|r2, the left branch first *)
| Group (r : regex).            (* the capturing group *)

Definition mem_ci (x : ascii) (cs : list ascii) : bool :=
  existsb (fun c => Ascii.eqb (Str.lower x) (Str.lower c)) cs.

Definition accepts (a : atom) (x : ascii) : bool :=
  match a with
  | Lit c => Ascii.eqb (Str.lower x) (Str.lower c)
  | OneOf cs => mem_ci x cs
  | NoneOf cs => negb (mem_ci x cs)
  end.

(** A successful match: the text of the group and the input left. *)
Definition result : Type := (option (list ascii) * list ascii)%type.
Definition cont : Type := list ascii -> option (list ascii) -> option result.

(** The greedy loop of [a+] after its first character: take one more
    character when the atom accepts it, and fall back to the rest of the
    pattern at this position when the longer attempt fails. *)
Fixpoint more (a : atom) (s : list ascii) (cap : option (list ascii))
  (k : cont) : option result :=
  match s with
  | x :: s' =>
      if accepts a x then
        match more a s' cap k with
        | Some r => Some r
        | None => k s cap
        end
      else k s cap
  | [] => k s cap
  end.

(** Backtracking matcher in continuation-passing style: [k] is the rest
    of the pattern, and the first success in the search order is kept. *)
Fixpoint run (r : regex) (s : list ascii) (cap : option (list ascii))
  (k : cont) : option result :=
  match r with
  | Atom a =>
      match s with
      | x :: s' => if accepts a x then k s' cap else None
      | [] => None
      end
  | Plus a =>
      match s with
      | x :: s' => if accepts a x then more a s' cap k else None
      | [] => None
      end
  | Seq r1 r2 => run r1 s cap (fun s' cap' => run r2 s' cap' k)
  | Alt r1 r2 =>
      match run r1 s cap k with
      | Some res => Some res
      | None => run r2 s cap k
      end
  | Group r1 =>
      run r1 s cap
        (fun s' _ => k s' (Some (firstn (List.length s - List.length s') s)))
  end.

(** [pattern.match] at the head of [s]. *)
Definition match_here (r : regex) (s : list ascii) : option result :=
  run r s None (fun s' cap => Some (cap, s')).

(** The text [re.findall] reports for a pattern with one group. *)
Definition group_text (cap : option (list ascii)) : string :=
  match cap with
  | Some g => Str.of_chars g
  | None => EmptyString
  end.

(** [re.findall]: scan from the left; after a match the scan resumes where
    the match ended ([skip] counts the characters of the match still to be
    passed over), and an empty match moves on by one character. *)
Fixpoint scan (r : regex) (s : list ascii) (skip : nat) : list string :=
  match s with
  | [] =>
      match skip, match_here r [] with
      | 0, Some (cap, _) => [group_text cap]
      | _, _ => []
      end
  | _ :: s' =>
      match skip with
      | S n => scan r s' n
      | 0 =>
          match match_here r s with
          | Some (cap, rest) =>
              group_text cap :: scan r s' (List.length s - List.length rest - 1)
          | None => scan r s' 0
          end
      end
  end.

Definition findall (r : regex) (s : string) : list string :=
  scan r (Str.chars s) 0.

(** Pattern builders. *)
Fixpoint lits (l : list ascii) : regex :=
  match l with
  | [] => Atom (OneOf [])   (* not used: every literal run is non-empty *)
  | [c] => Atom (Lit c)
  | c :: l' => Seq (Atom (Lit c)) (lits l')
  end.

Definition lit (s : string) : regex := lits (Str.chars s).

Fixpoint alts (rs : list regex) : regex :=
  match rs with
  | [] => Atom (OneOf [])
  | [r] => r
  | r :: rs' => Alt r (alts rs')
  end.

End Re.

(** ** Markup asset extractor *)

Definition dquote : ascii := ascii_of_nat 34.
Definition squote : ascii := ascii_of_nat 39.
Definition quotes : list ascii := [dquote; squote].
Definition gt : ascii := ascii_of_nat 62.

(** The pattern [<TAG[^>]+src=Q([^Q]+)Q], where [Q] stands for the
    bracket set of the double and the single quote. *)
Definition src_pattern (tag : string) : Re.regex :=
  Re.Seq (Re.lit ("<" ++ tag))
 (Re.Seq (Re.Plus (Re.NoneOf [gt]))
 (Re.Seq (Re.lit "src=")
 (Re.Seq (Re.Atom (Re.OneOf quotes))
 (Re.Seq (Re.Group (Re.Plus (Re.NoneOf quotes)))
         (Re.Atom (Re.OneOf quotes)))))).

Definition doc_extensions : list string :=
  ["pdf"; "doc"; "docx"; "xls"; "xlsx"; "ppt"; "pptx"; "zip"; "rar"].

(** The pattern [<a[^>]+href=Q([^Q]+\.(?:pdf|doc|...|rar))Q]. *)
Definition href_pattern : Re.regex :=
  Re.Seq (Re.lit "<a")
 (Re.Seq (Re.Plus (Re.NoneOf [gt]))
 (Re.Seq (Re.lit "href=")
 (Re.Seq (Re.Atom (Re.OneOf quotes))
 (Re.Seq (Re.Group
            (Re.Seq (Re.Plus (Re.NoneOf quotes))
            (Re.Seq (Re.Atom (Re.Lit "."))
                    (Re.alts (map Re.lit doc_extensions)))))
         (Re.Atom (Re.OneOf quotes)))))).

Definition src_tags : list string :=
  ["img"; "video"; "audio"; "source"; "embed"; "iframe"].

Definition patterns : list Re.regex :=
  map src_pattern src_tags ++ [href_pattern].

(** [url.startswith(('http://', 'https://'))] *)
Definition is_absolute (url : string) : bool :=
  Str.startswith url "http://" || Str.startswith url "https://".

Definition _extract_urls_from_html (html_content : string) : list string :=
  match html_content with
  | EmptyString => []
  | _ =>
      let urls :=
        fold_left (fun urls pattern => urls ++ Re.findall pattern html_content)
                  patterns [] in
      fold_left (fun valid_urls url =>
                   if is_absolute url then valid_urls ++ [url] else valid_urls)
                urls []
  end.

(** ** What a match is, without the search order *)

Module ReSpec.
Import Re.

(** [matches r w c c']: the word [w] is matched by [r], and the group
    register goes from [c] to [c']. *)
Fixpoint matches (r : regex) (w : list ascii) (c c' : option (list ascii))
  : Prop :=
  match r with
  | Atom a => c' = c /\ exists x, w = [x] /\ accepts a x = true
  | Plus a => c' = c /\ w <> [] /\ Forall (fun x => accepts a x = true) w
  | Seq r1 r2 =>
      exists w1 w2 c1, w = w1 ++ w2 /\ matches r1 w1 c c1 /\ matches r2 w2 c1 c'
  | Alt r1 r2 => matches r1 w c c' \/ matches r2 w c c'
  | Group r1 => c' = Some w /\ exists c1, matches r1 w c c1
  end.

(** Two words that agree up to the case of their ASCII letters. *)
Definition eq_ci (a b : list ascii) : Prop := map Str.lower a = map Str.lower b.

Definition is_quote (x : ascii) : Prop := x = dquote \/ x = squote.

(** An occurrence of [<tag ... src=QurlQ] in [html]: the tag name, at
    least one character other than [>], the attribute name, a quote, the
    non-empty quote-free text [url], a quote. *)
Definition src_occurrence (tag html url : string) : Prop :=
  exists pre t mid a q1 q2 post,
    Str.chars html = pre ++ t ++ mid ++ a ++ [q1] ++ Str.chars url ++ [q2] ++ post
    /\ eq_ci t (Str.chars ("<" ++ tag))
    /\ mid <> [] /\ ~ In gt mid
    /\ eq_ci a (Str.chars "src=")
    /\ is_quote q1 /\ is_quote q2
    /\ url <> EmptyString
    /\ (forall x, In x (Str.chars url) -> ~ is_quote x).

(** An occurrence of [<a ... href=QurlQ] whose [url] ends in a dot and one
    of the document extensions, in any case. *)
Definition href_occurrence (html url : string) : Prop :=
  exists pre t mid a q1 q2 post stem ext e,
    Str.chars html = pre ++ t ++ mid ++ a ++ [q1] ++ Str.chars url ++ [q2] ++ post
    /\ eq_ci t (Str.chars "<a")
    /\ mid <> [] /\ ~ In gt mid
    /\ eq_ci a (Str.chars "href=")
    /\ is_quote q1 /\ is_quote q2
    /\ Str.chars url = stem ++ ["."%char] ++ ext
    /\ stem <> [] /\ In e doc_extensions /\ eq_ci ext (Str.chars e)
    /\ (forall x, In x (Str.chars url) -> ~ is_quote x).

End ReSpec.

(** ** What the scan of a pattern reports *)

Module ScanSpec.
Import Re ReSpec.

(** An occurrence of an attribute pattern at the head of [s]: the text
    [opening] in any case, the gap [gap] of one or more characters other
    than [>], the text [attr] in any case, a quote, the non-empty
    quote-free value [url], which [ok] accepts, a quote, and the rest of
    the input. *)
Definition attr_at (opening attr : string) (ok : list ascii -> Prop)
  (s gap url rest : list ascii) : Prop :=
  exists t a q1 q2,
    s = t ++ gap ++ a ++ [q1] ++ url ++ [q2] ++ rest
    /\ eq_ci t (Str.chars opening)
    /\ gap <> [] /\ ~ In gt gap
    /\ eq_ci a (Str.chars attr)
    /\ is_quote q1 /\ is_quote q2
    /\ url <> [] /\ (forall x, In x url -> ~ is_quote x)
    /\ ok url.

(** [<tag ... src=QurlQ] at the head of [s]. *)
Definition src_at (tag : string) : list ascii -> list ascii -> list ascii
                                    -> list ascii -> Prop :=
  attr_at ("<" ++ tag) "src=" (fun _ => True).

(** A value that ends in a dot and one of the document extensions, in
    any case, with some text before the dot. *)
Definition ends_in_doc_extension (url : list ascii) : Prop :=
  exists stem ext e,
    url = stem ++ ["."%char] ++ ext
    /\ stem <> [] /\ In e doc_extensions /\ eq_ci ext (Str.chars e).

(** [<a ... href=QurlQ] at the head of [s], with such a value. *)
Definition href_at : list ascii -> list ascii -> list ascii -> list ascii -> Prop :=
  attr_at "<a" "href=" ends_in_doc_extension.

(** Of the occurrences at one place, the one that is reported: the gap
    is as long as it can be, so the value is that of the last attribute
    text that the gap can reach. *)
Definition reported_at (occ : list ascii -> list ascii -> list ascii -> Prop)
  (url rest : list ascii) : Prop :=
  exists gap,
    occ gap url rest
    /\ forall gap' url' rest', occ gap' url' rest' ->
                               List.length gap' <= List.length gap.

(** The values found in [s]: the input is read from the left; where no
    occurrence starts, one character is passed over; where one starts,
    the value of the reported one is taken and the reading resumes after
    its closing quote. *)
Inductive found (occ : list ascii -> list ascii -> list ascii -> list ascii -> Prop)
  : list ascii -> list string -> Prop :=
| found_nil : found occ [] []
| found_skip x s l :
    (forall gap url rest, ~ occ (x :: s) gap url rest) ->
    found occ s l ->
    found occ (x :: s) l
| found_hit s url rest l :
    reported_at (occ s) url rest ->
    found occ rest l ->
    found occ s (Str.of_chars url :: l).

End ScanSpec.

(** ** Data model *)

(** A decoded JSON document, as [response.json()] returns it; numbers
    are kept to the integers. *)
#[warnings="-register-all"]
Inductive json : Type :=
| JNull
| JBool (b : bool)
| JNum (n : Z)
| JStr (s : string)
| JArr (l : list json)
| JObj (kvs : list (string * json)).

(** A lesson as the listing endpoint returns it: the downloader reads the
    key [id], a string, and the key [title] when it is there, a string
    too; [None] is an absent key.  A lesson whose title is there with
    the value null, on which the sanitizer raises, is not represented. *)
Record Lesson : Type := mkLesson {
  l_id : string;
  l_title : option string
}.

(** A content item: the downloader reads the keys [url], [file_url] and
    [content_html]; [None] is an absent key (or a null value, which
    the code treats alike), [Some s] a key that holds the string [s],
    which can be empty. *)
Record ContentItem : Type := mkContentItem {
  ci_url : option string;
  ci_file_url : option string;
  ci_content_html : option string
}.

(** Values of a query-parameter dict. *)
Inductive pyval : Type :=
| PStr (s : string)
| PInt (n : nat).

Definition params : Type := list (string * pyval).

(** [d[k] = v] on a dict kept as an association list. *)
Fixpoint dict_set (k : string) (v : pyval) (d : params) : params :=
  match d with
  | [] => [(k, v)]
  | (k', v') :: d' =>
      if String.eqb k k' then (k, v) :: d' else (k', v') :: dict_set k v d'
  end.

(** The body of a listing response, by the three shapes the paginator
    tells apart: a dict with the key [results] (and the value of
    [data.get('next')]), a bare list, any other dict. *)
Inductive page_data (A : Type) : Type :=
| Paged (results : list A) (next : option string)
| Listing (items : list A)
| Single (item : A).

Arguments Paged {A} results next.
Arguments Listing {A} items.
Arguments Single {A} item.

(** What a request comes back with: a transport or HTTP failure with its
    text, which is what [_make_request] catches, prints and raises again,
    or the data read from the body.  For the API the data are the body
    decoded by [response.json()]; a response with a body that cannot be
    decoded, or that has none of the shapes of [page_data], is not
    represented: the properties below are about runs in which every
    response is a failure or such a body. *)
Inductive reply (A : Type) : Type :=
| Failed (cause : string)
| Replied (data : A).

Arguments Failed {A} cause.
Arguments Replied {A} data.

(** The response to a streaming GET: the content-type header when there
    is one, the chunks that arrive, and the failure that cuts the stream
    short when there is one. *)
Record response : Type := mkResponse {
  content_type : option string;
  chunks : list string;
  broken : option string
}.

(** A path is kept as it is built: the string given to [Path] followed
    by the operands of [/], in order and as they are; [pathlib_parts]
    below gives the components that [pathlib] makes of them. *)
Definition path : Type := list string.

(** [p / segment] of [pathlib]: one more operand. *)
Definition joinpath (p : path) (segment : string) : path := p ++ [segment].

Notation "p // s" := (joinpath p s) (at level 40, left associativity).

Inductive payload : Type :=
| Details (d : json)
| Items (l : list ContentItem).

(** ** Effects *)

Inductive event : Type :=
| Stdout (line : string)
| Sleep (ms : nat)
| Mkdir (p : path)
| Request (method url : string) (kwargs : option params)
| WriteJson (p : path) (d : payload)
| Call_download_file (url : string) (dir : path) (prefix : string)
                     (use_extension : bool)
    (* marker at the entry of [_download_file], with its arguments *)
| HttpGet (url : string)
| WriteFile (p : path) (body : list string).

Definition trace : Type := list event.

Inductive exn : Type :=
| RequestException (cause : string)
| ValueError (msg : string)
| Exception (msg : string).

(** [str(e)] *)
Definition str_exn (e : exn) : string :=
  match e with
  | RequestException s | ValueError s | Exception s => s
  end.

(** The environment: library functions the downloader calls on URLs, and
    the remote ends, which answer as a function of everything that
    happened so far.  For [web], [Failed] stands for whatever
    [_download_file] catches before the file exists (the GET, the status,
    opening the file), and [broken] for what it catches once the file
    is there.  Creating directories and writing the two JSON files are
    taken to succeed. *)
Record Env : Type := mkEnv {
  urljoin : string -> string -> string;
  (* [Path(urlparse(url).path).name], or the error [urlparse] raises *)
  url_basename : string -> reply string;
  lessons_api : trace -> string -> option params -> reply (page_data Lesson);
  details_api : trace -> string -> option params -> reply json;
  content_api : trace -> string -> option params
                -> reply (page_data ContentItem);
  web : trace -> string -> reply response
}.

(** An I/O computation: given the history, the events it adds and how it
    ends.  [OutOfFuel] is a pagination loop cut off by its fuel. *)
Inductive outcome (A : Type) : Type :=
| Ret (a : A)
| Raise (e : exn)
| OutOfFuel.

Arguments Ret {A} a.
Arguments Raise {A} e.
Arguments OutOfFuel {A}.

Definition M (A : Type) : Type := trace -> trace * outcome A.

Definition ret {A} (a : A) : M A := fun _ => ([], Ret a).

Definition bind {A B} (m : M A) (f : A -> M B) : M B :=
  fun h =>
    let (t, o) := m h in
    match o with
    | Ret a => let (t', o') := f a (h ++ t) in (t ++ t', o')
    | Raise e => (t, Raise e)
    | OutOfFuel => (t, OutOfFuel)
    end.

Notation "x <- m ;; k" := (bind m (fun x => k))
  (at level 61, m at next level, right associativity).
Notation "m ;;; k" := (bind m (fun _ => k))
  (at level 61, right associativity).

Definition emit (e : event) : M unit := fun _ => ([e], Ret tt).
Definition ask {A} (f : trace -> A) : M A := fun h => ([], Ret (f h)).
Definition raise {A} (e : exn) : M A := fun _ => ([], Raise e).
Definition out_of_fuel {A} : M A := fun _ => ([], OutOfFuel).

(** [try: m except ...: handler]; the handler says which exceptions it
    takes. *)
Definition try_ {A} (m : M A) (handler : exn -> option (M A)) : M A :=
  fun h =>
    let (t, o) := m h in
    match o with
    | Raise e =>
        match handler e with
        | Some m' => let (t', o') := m' (h ++ t) in (t ++ t', o')
        | None => (t, Raise e)
        end
    | _ => (t, o)
    end.

(** [for x in l: s = body x s] *)
Fixpoint for_ {A S} (l : list A) (body : A -> S -> M S) (s : S) : M S :=
  match l with
  | [] => ret s
  | x :: l' => s' <- body x s ;; for_ l' body s'
  end.

(** [enumerate(l)] *)
Fixpoint enumerate_from {A} (i : nat) (l : list A) : list (nat * A) :=
  match l with
  | [] => []
  | x :: l' => (i, x) :: enumerate_from (S i) l'
  end.

Definition enumerate {A} (l : list A) : list (nat * A) := enumerate_from 0 l.

Definition print (line : string) : M unit := emit (Stdout line).
Definition sleep (ms : nat) : M unit := emit (Sleep ms).
Definition mkdir (p : path) : M unit := emit (Mkdir p).
Definition write_json (p : path) (d : payload) : M unit := emit (WriteJson p d).

(** Truth value of a string, and of [a or b] on two [dict.get] results. *)
Definition truthy (v : option string) : option string :=
  match v with
  | Some EmptyString => None
  | _ => v
  end.

Definition py_or (a b : option string) : option string :=
  match truthy a with
  | Some s => Some s
  | None => b
  end.

Definition is_some {A} (o : option A) : bool :=
  match o with Some _ => true | None => false end.

Definition is_nil {A} (l : list A) : bool :=
  match l with [] => true | _ => false end.

(** ** The downloader *)

Record SkilljarDownloader : Type := mkDownloader {
  api_key : string;
  base_url : string
}.

Local Open Scope string_scope.

Definition newline : string := String (ascii_of_nat 10) EmptyString.

Section Downloader.

Variable env : Env.
Variable self : SkilljarDownloader.

(** [session.request(method, url, **kwargs)] followed by
    [raise_for_status()] and, at the caller, [response.json()]: the
    request is logged in the trace and the remote end answers.  The
    decoding, which the source does after [_make_request] has returned,
    is taken to succeed. *)
Definition session_request {A} (server : trace -> string -> option params -> reply A)
  (method url : string) (kwargs : option params) : M (reply A) :=
  emit (Request method url kwargs) ;;;
  ask (fun h => server h url kwargs).

Definition _make_request {A} (server : trace -> string -> option params -> reply A)
  (method endpoint : string) (kwargs : option params) : M A :=
  let url := urljoin env (base_url self) endpoint in
  r <- session_request server method url kwargs ;;
  match r with
  | Replied data => ret data
  | Failed cause =>
      print ("Error making request to " ++ url ++ ": " ++ cause) ;;;
      raise (RequestException cause)
  end.

(** The [while True] loop of [_get_paginated_results]; [fuel] bounds the
    number of pages asked for. *)
Fixpoint paginate {A} (fuel : nat)
  (server : trace -> string -> option params -> reply (page_data A))
  (endpoint : string) (params0 : option params)
  (page : nat) (all_results : list A) : M (list A) :=
  match fuel with
  | 0 => out_of_fuel
  | S fuel' =>
      let current_params :=
        dict_set "page" (PInt page)
                 (match params0 with Some p => p | None => [] end) in
      data <- _make_request server "GET" endpoint (Some current_params) ;;
      let '(results, has_next) :=
        match data with
        | Paged results next => (results, is_some next)
        | Listing items => (items, false)
        | Single item => ([item], false)
        end in
      let all_results := (all_results ++ results)%list in
      if negb has_next || is_nil results then ret all_results
      else sleep 100 ;;; paginate fuel' server endpoint params0 (page + 1) all_results
  end.

Definition _get_paginated_results {A} (fuel : nat)
  (server : trace -> string -> option params -> reply (page_data A))
  (endpoint : string) (params0 : option params) : M (list A) :=
  paginate fuel server endpoint params0 1 [].

Definition get_course_lessons (fuel : nat) (course_id : string)
  : M (list Lesson) :=
  print ("Fetching lessons for course " ++ course_id ++ "...") ;;;
  let endpoint := "/v1/lessons" in
  let params0 := [("course_id", PStr course_id)] in
  try_ (_get_paginated_results fuel (lessons_api env) endpoint (Some params0))
       (fun e =>
          match e with
          | RequestException _ =>
              Some (raise (Exception ("Could not fetch lessons for course "
                                      ++ course_id ++ ": " ++ str_exn e)))
          | _ => None
          end).

Definition get_lesson_details (lesson_id : string) : M json :=
  let endpoint := "/v1/lessons/" ++ lesson_id in
  _make_request (details_api env) "GET" endpoint None.

Definition get_lesson_content (fuel : nat) (lesson_id : string)
  : M (list ContentItem) :=
  let endpoint := "/v1/lessons/" ++ lesson_id ++ "/content-items" in
  try_ (_get_paginated_results fuel (content_api env) endpoint None)
       (fun e =>
          match e with
          | RequestException _ =>
              Some (print ("Warning: Could not fetch content items for lesson "
                           ++ lesson_id) ;;;
                    ret [])
          | _ => None
          end).

(** The block of [_download_file] that determines the file name. *)
Definition determine_filename (url filename_prefix : string)
  (use_extension : bool) (headers_content_type : option string) : string :=
  if use_extension then
    let file_extension :=
      if Str.contains "." (Str.split_last "/" url) then
        "." ++ Str.split_last "." (Str.split_last "/" url)
      else
        match headers_content_type with
        | Some ct =>
            let content_type := Str.lower_str ct in
            if Str.contains "video" content_type then ".mp4"
            else if Str.contains "pdf" content_type then ".pdf"
            else if Str.contains "image" content_type then ".jpg"
            else ""
        | None => ""
        end in
    filename_prefix ++ file_extension
  else filename_prefix.

(** [_download_file]: every failure is caught and printed. *)
Definition _download_file (url : string) (output_dir : path)
  (filename_prefix : string) (use_extension : bool) : M unit :=
  emit (Call_download_file url output_dir filename_prefix use_extension) ;;;
  emit (HttpGet url) ;;;
  r <- ask (fun h => web env h url) ;;
  match r with
  | Failed cause => print ("    Error downloading " ++ url ++ ": " ++ cause)
  | Replied resp =>
      let filename :=
        determine_filename url filename_prefix use_extension
                           (content_type resp) in
      let filepath := output_dir // filename in
      emit (WriteFile filepath (chunks resp)) ;;;
      match broken resp with
      | Some cause => print ("    Error downloading " ++ url ++ ": " ++ cause)
      | None => print ("    Downloaded: " ++ filename)
      end
  end.

(** Characters that survive in a lesson directory name. *)
Definition keeps (c : ascii) : bool :=
  Str.isalnum c || Ascii.eqb c " " || Ascii.eqb c "-" || Ascii.eqb c "_".

Definition safe_title_of (lesson_title : string) : string :=
  Str.rstrip (Str.of_chars (filter keeps (Str.chars lesson_title))).

Definition lesson_title_of (lesson : Lesson) : string :=
  match l_title lesson with
  | Some t => t
  | None => "Lesson_" ++ l_id lesson
  end.

(** The segment joined to the course directory. *)
Definition lesson_dir_name (lesson : Lesson) : string :=
  safe_title_of (lesson_title_of lesson) ++ "_" ++ l_id lesson.

(** The name an asset is saved under. *)
Definition asset_prefix (asset_counter : nat) (original_filename : string)
  : string :=
  match original_filename with
  | EmptyString => "asset_" ++ Str.of_nat asset_counter
  | _ => "asset_" ++ Str.of_nat asset_counter ++ "_" ++ original_filename
  end.

(** First loop over the content items: direct files. *)
Definition download_direct (lesson_dir : path)
  (content_items : list ContentItem) : M unit :=
  for_ (enumerate content_items)
       (fun '(i, content_item) _ =>
          if is_some (ci_url content_item) || is_some (ci_file_url content_item)
          then
            let file_url := py_or (ci_url content_item) (ci_file_url content_item) in
            match truthy file_url with
            | Some u => _download_file u lesson_dir ("content_" ++ Str.of_nat i) true
            | None => ret tt
            end
          else ret tt)
       tt.

(** The body of [for url in urls], with its [try]. *)
Definition download_asset (lesson_dir : path) (url : string)
  (asset_counter : nat) : M nat :=
  try_ (match url_basename env url with
        | Failed msg => raise (ValueError msg)
        | Replied original_filename =>
            let filename_prefix := asset_prefix asset_counter original_filename in
            _download_file url lesson_dir filename_prefix false ;;;
            ret (asset_counter + 1)
        end)
       (fun e =>
          Some (print ("    Failed to download asset " ++ url ++ ": " ++ str_exn e) ;;;
                ret asset_counter)).

(** Second loop over the content items: assets found in the markup. *)
Definition download_assets (lesson_dir : path)
  (content_items : list ContentItem) : M nat :=
  for_ (enumerate content_items)
       (fun '(i, content_item) asset_counter =>
          let html_content :=
            match ci_content_html content_item with
            | Some h => h
            | None => ""
            end in
          match html_content with
          | EmptyString => ret asset_counter
          | _ =>
              let urls := _extract_urls_from_html html_content in
              for_ urls (download_asset lesson_dir) asset_counter
          end)
       0.

(** The lesson function.  Creating the directory and writing the two
    JSON files are taken to succeed. *)
Definition download_lesson_content (fuel : nat) (lesson : Lesson)
  (output_dir : path) : M unit :=
  let lesson_id := l_id lesson in
  let lesson_title := lesson_title_of lesson in
  let lesson_dir := output_dir // lesson_dir_name lesson in
  mkdir lesson_dir ;;;
  print ("  Downloading lesson: " ++ lesson_title) ;;;
  lesson_details <- get_lesson_details lesson_id ;;
  let metadata_file := lesson_dir // "lesson_metadata.json" in
  write_json metadata_file (Details lesson_details) ;;;
  content_items <- get_lesson_content fuel lesson_id ;;
  (if is_nil content_items then ret tt
   else write_json (lesson_dir // "content_items.json") (Items content_items)) ;;;
  download_direct lesson_dir content_items ;;;
  download_assets lesson_dir content_items ;;;
  sleep 200.

(** The body of [for course_id in course_ids]. *)
Definition download_course (fuel : nat) (output_path : path)
  (course_id : string) : M unit :=
  print (newline ++ "Processing course: " ++ course_id) ;;;
  try_ (let course_dir := output_path // ("course_" ++ course_id) in
        mkdir course_dir ;;;
        lessons <- get_course_lessons fuel course_id ;;
        if is_nil lessons then
          print ("  No lessons found for course " ++ course_id)
        else
          print ("  Found " ++ Str.of_nat (List.length lessons) ++ " lessons") ;;;
          for_ lessons (fun lesson _ => download_lesson_content fuel lesson course_dir) tt ;;;
          print ("  Completed course " ++ course_id))
       (fun e =>
          Some (print ("  Error processing course " ++ course_id ++ ": "
                       ++ str_exn e))).

Definition download_courses (fuel : nat) (course_ids : list string)
  (output_dir : string) : M unit :=
  let output_path := [output_dir] in
  mkdir output_path ;;;
  for_ course_ids (fun course_id _ => download_course fuel output_path course_id) tt.

End Downloader.

(** ** The specification's wording, for comparison *)

Module Spec.

(** Trailing spaces removed. *)
Definition trim_trailing_spaces (s : string) : string :=
  Str.of_chars (rev (Str.dropwhile (fun c => Ascii.eqb c " ") (rev (Str.chars s)))).

(** The directory name of a lesson as the specification words it: drop
    every character that is not alphanumeric, space, hyphen or
    underscore, trim the trailing spaces, add an underscore and the id. *)
Definition dir_name (t i : string) : string :=
  trim_trailing_spaces
    (Str.of_chars
       (filter (fun c => Str.isalnum c || Ascii.eqb c " " || Ascii.eqb c "-"
                         || Ascii.eqb c "_")
               (Str.chars t)))
  ++ "_" ++ i.

(** The path of a URL of the form [scheme://authority/path?query#fragment]
    or of a bare path, as [urlparse] gives it: the fragment and the
    query are cut off, then the scheme and the authority. *)
Fixpoint before (sep : ascii) (s : list ascii) : list ascii :=
  match s with
  | [] => []
  | c :: s' => if Ascii.eqb c sep then [] else c :: before sep s'
  end.

Fixpoint after_first (p s : list ascii) : option (list ascii) :=
  if Str.starts_with p s then Some (skipn (List.length p) s)
  else
    match s with
    | [] => None
    | _ :: s' => after_first p s'
    end.

Definition url_path (url : string) : string :=
  let s := before "?" (before "#" (Str.chars url)) in
  match after_first (Str.chars "://") s with
  | Some r => Str.of_chars (Str.dropwhile (fun c => negb (Ascii.eqb c "/")) r)
  | None => Str.of_chars s
  end.

(** The extension as the specification words the mapping: the text after
    the last dot of the trailing segment of the URL's path when that
    segment has a dot, else by the content type, [video/*] to [.mp4],
    [*pdf*] to [.pdf], [image/*] to [.jpg], else nothing. *)
Definition extension (url : string) (content_type : option string) : string :=
  let segment := Str.split_last "/" (url_path url) in
  if Str.contains "." segment then "." ++ Str.split_last "." segment
  else
    match content_type with
    | Some ct =>
        let ct := Str.lower_str ct in
        if Str.startswith ct "video/" then ".mp4"
        else if Str.contains "pdf" ct then ".pdf"
        else if Str.startswith ct "image/" then ".jpg"
        else ""
    | None => ""
    end.

Definition filename (url filename_prefix : string) (use_extension : bool)
  (content_type : option string) : string :=
  if use_extension then filename_prefix ++ extension url content_type
  else filename_prefix.

(** The URL of a content item as the specification words it: the value
    of [url] when the key is there, else the value of [file_url]. *)
Definition direct_url (item : ContentItem) : option string :=
  match ci_url item with
  | Some u => Some u
  | None => ci_file_url item
  end.

(** The extractor as the specification words it, by elements and
    attributes.  The start tags of the input are read as markup: after
    [<] the name of the element, up to white space or [>]; then
    attributes [name=QvalueQ] separated by white space, the value
    between two equal quotes; [>] ends the tag. *)
Inductive markup_state : Type :=
| InText
| InName (name : list ascii)
| InTag (name : list ascii)
| InAttr (name attr : list ascii)
| AfterEq (name attr : list ascii)
| InValue (name attr : list ascii) (q : ascii) (value : list ascii).

(** The triples of element name, attribute name and value, in the order
    of the input. *)
Fixpoint read_markup (st : markup_state) (s : list ascii)
  : list (string * string * string) :=
  match s with
  | [] => []
  | c :: s' =>
      match st with
      | InText =>
          if Ascii.eqb c "<" then read_markup (InName []) s'
          else read_markup InText s'
      | InName n =>
          if Ascii.eqb c gt then read_markup InText s'
          else if Str.isspace c then read_markup (InTag (rev n)) s'
          else read_markup (InName (c :: n)) s'
      | InTag n =>
          if Ascii.eqb c gt then read_markup InText s'
          else if Str.isspace c then read_markup (InTag n) s'
          else read_markup (InAttr n [c]) s'
      | InAttr n a =>
          if Ascii.eqb c gt then read_markup InText s'
          else if Ascii.eqb c "=" then read_markup (AfterEq n (rev a)) s'
          else if Str.isspace c then read_markup (InTag n) s'
          else read_markup (InAttr n (c :: a)) s'
      | AfterEq n a =>
          if Ascii.eqb c dquote || Ascii.eqb c squote
          then read_markup (InValue n a c []) s'
          else if Ascii.eqb c gt then read_markup InText s'
          else read_markup (InTag n) s'
      | InValue n a q v =>
          if Ascii.eqb c q
          then (Str.of_chars n, Str.of_chars a, Str.of_chars (rev v))
                 :: read_markup (InTag n) s'
          else read_markup (InValue n a q (c :: v)) s'
      end
  end.

(** The values of the attribute [attr] of the elements named [element],
    names compared in any case. *)
Definition attribute_values (element attr html : string) : list string :=
  map snd
      (filter (fun nav =>
                 String.eqb (Str.lower_str (fst (fst nav))) (Str.lower_str element)
                 && String.eqb (Str.lower_str (snd (fst nav))) (Str.lower_str attr))
              (read_markup InText (Str.chars html))).

(** A target that ends in a dot and one of the document extensions, in
    any case. *)
Definition ends_with_doc_extension (url : string) : bool :=
  existsb (fun e =>
             Str.starts_with (rev (Str.chars ("." ++ e)))
                             (rev (Str.chars (Str.lower_str url))))
          doc_extensions.

Definition extract_as_claimed (html : string) : list string :=
  filter is_absolute
         (flat_map (fun tag => attribute_values tag "src" html) src_tags
          ++ filter ends_with_doc_extension (attribute_values "a" "href" html)).

End Spec.

(** ** Reading traces *)

(** The HTML fragment of a content item, [''] when the key is absent. *)
Definition html_of (item : ContentItem) : string :=
  match ci_content_html item with
  | Some h => h
  | None => ""
  end.

(** Events of a download: the entry into [_download_file], the GET and
    the file written. *)
Definition is_download (ev : event) : bool :=
  match ev with
  | Call_download_file _ _ _ _ | HttpGet _ | WriteFile _ _ => true
  | _ => false
  end.

Definition is_request (ev : event) : bool :=
  match ev with
  | Request _ _ _ => true
  | _ => false
  end.

Definition is_write_json (ev : event) : bool :=
  match ev with
  | WriteJson _ _ => true
  | _ => false
  end.

(** Calls of [_download_file] with the given file name prefix. *)
Definition is_call_with_prefix (prefix : string) (ev : event) : bool :=
  match ev with
  | Call_download_file _ _ p _ => String.eqb p prefix
  | _ => false
  end.

(** The prefixes of the calls of [_download_file] made from the markup
    loop, which are the calls without extension inference. *)
Fixpoint asset_prefixes (t : trace) : list string :=
  match t with
  | [] => []
  | Call_download_file _ _ p false :: t' => p :: asset_prefixes t'
  | _ :: t' => asset_prefixes t'
  end.

(** The files written by those calls: [from_asset] says whether the call
    in progress comes from the markup loop. *)
Fixpoint asset_files (from_asset : bool) (t : trace) : list path :=
  match t with
  | [] => []
  | Call_download_file _ _ _ use_extension :: t' =>
      asset_files (negb use_extension) t'
  | WriteFile p _ :: t' =>
      if from_asset then p :: asset_files from_asset t'
      else asset_files from_asset t'
  | _ :: t' => asset_files from_asset t'
  end.

(** The part of a trace that one turn of the markup loop leaves for the
    URL [u]: a call of [_download_file] on [u] without extension
    inference and what that call does, or the line that reports the
    failure to derive a file name. *)
Definition attempt (u : string) (seg : trace) : Prop :=
  (exists dir prefix rest,
      seg = Call_download_file u dir prefix false :: HttpGet u :: rest
      /\ forallb (fun ev => match ev with
                            | Call_download_file _ _ _ _ | HttpGet _ => false
                            | _ => true
                            end) rest = true)
  \/ (exists msg,
         seg = [Stdout ("    Failed to download asset " ++ u ++ ": " ++ msg)]).

(** The items of a listing response and whether it announces a next
    page, as the paginator reads them. *)
Definition page_results {A} (data : page_data A) : list A :=
  match data with
  | Paged results _ => results
  | Listing items => items
  | Single item => [item]
  end.

Definition page_has_next {A} (data : page_data A) : bool :=
  match data with
  | Paged _ next => is_some next
  | _ => false
  end.

(** The request that the paginator sends for page [i]. *)
Definition page_request (env : Env) (self : SkilljarDownloader)
  (endpoint : string) (params0 : option params) (i : nat) : event :=
  Request "GET" (urljoin env (base_url self) endpoint)
          (Some (dict_set "page" (PInt i)
                          (match params0 with Some p => p | None => [] end))).

(** What [_download_file] leaves in the trace after the call marker and
    the GET, when it writes, if at all, to the file [f]: a line, or the
    file and a line. *)
Definition file_tail (f : path) (rest : trace) : Prop :=
  (exists line, rest = [Stdout line])
  \/ (exists body line, rest = [WriteFile f body; Stdout line]).

(** The trace of the markup loop on the URLs [urls] when the counter
    goes from [c] to [c']: a URL whose file name cannot be derived leaves
    a line and the counter as it is; any other URL leaves a call of
    [_download_file] under the name made of the counter, and the counter
    goes up by one. *)
Inductive asset_trace (env : Env) (dir : path)
  : list string -> nat -> trace -> nat -> Prop :=
| asset_done c : asset_trace env dir [] c [] c
| asset_failed u urls c msg t c' :
    url_basename env u = Failed msg ->
    asset_trace env dir urls c t c' ->
    asset_trace env dir (u :: urls) c
      (Stdout ("    Failed to download asset " ++ u ++ ": " ++ msg) :: t) c'
| asset_called u urls c name rest t c' :
    url_basename env u = Replied name ->
    file_tail (dir // asset_prefix c name) rest ->
    asset_trace env dir urls (S c) t c' ->
    asset_trace env dir (u :: urls) c
      (Call_download_file u dir (asset_prefix c name) false
         :: HttpGet u :: rest ++ t) c'.

(** The URL that the first loop downloads for a content item. *)
Definition chosen_url (item : ContentItem) : option string :=
  truthy (py_or (ci_url item) (ci_file_url item)).

(** The trace of the first loop on the items numbered from [i]. *)
Inductive direct_trace (dir : path) : nat -> list ContentItem -> trace -> Prop :=
| direct_done i : direct_trace dir i [] []
| direct_skipped i item items t :
    chosen_url item = None ->
    direct_trace dir (S i) items t ->
    direct_trace dir i (item :: items) t
| direct_called i item items u f rest t :
    chosen_url item = Some u ->
    file_tail f rest ->
    direct_trace dir (S i) items t ->
    direct_trace dir i (item :: items)
      (Call_download_file u dir ("content_" ++ Str.of_nat i) true
         :: HttpGet u :: rest ++ t).

(** Events of a listing or record fetch. *)
Definition is_fetch_event (ev : event) : bool :=
  match ev with
  | Request _ _ _ | Stdout _ | Sleep _ => true
  | _ => false
  end.

(** Names for the places of a lesson. *)
Definition lesson_dir (lesson : Lesson) (output_dir : path) : path :=
  output_dir // lesson_dir_name lesson.

Definition metadata_file (lesson : Lesson) (output_dir : path) : path :=
  lesson_dir lesson output_dir // "lesson_metadata.json".

Definition content_file (lesson : Lesson) (output_dir : path) : path :=
  lesson_dir lesson output_dir // "content_items.json".

(** What a lesson leaves in the trace up to the request for its
    details. *)
Definition lesson_head (env : Env) (self : SkilljarDownloader)
  (lesson : Lesson) (output_dir : path) : trace :=
  [Mkdir (lesson_dir lesson output_dir);
   Stdout ("  Downloading lesson: " ++ lesson_title_of lesson);
   Request "GET" (urljoin env (base_url self) ("/v1/lessons/" ++ l_id lesson))
           None].

(** The URLs that the markup loop goes through for a list of items. *)
Definition markup_urls (items : list ContentItem) : list string :=
  flat_map (fun item => _extract_urls_from_html (html_of item)) items.

(** The URL that a download event is about: the argument of the call of
    [_download_file], or of its GET. *)
Definition download_url (ev : event) : option string :=
  match ev with
  | Call_download_file u _ _ _ | HttpGet u => Some u
  | _ => None
  end.

(** The URLs for which a content item is downloaded: the one the first
    loop takes from it and those the markup loop finds in it. *)
Definition item_urls (item : ContentItem) : list string :=
  match chosen_url item with
  | Some u => [u]
  | None => []
  end ++ _extract_urls_from_html (html_of item).

(** ** A small world to run the downloader in *)

Module Demo.

Definition dq (s : string) : string := String dquote s.

(** The fragment of the specification's example: an image and a link to
    a document. *)
Definition html1 : string :=
  "<img src=" ++ dq ("https://a/1.png" ++ dq ("><a href="
    ++ dq ("https://a/doc.pdf" ++ dq ">x</a>"))).

(** The same image twice, and an image whose URL [urlparse] rejects. *)
Definition html2 : string :=
  "<img src='https://a/1.png'><img src='https://a/1.png'><img src='http://[x'>".

Definition item_a : ContentItem :=
  mkContentItem (Some "") (Some "https://cdn.example/file.pdf") (Some html1).

Definition item_b : ContentItem :=
  mkContentItem (Some "https://cdn.example/clip.mp4")
                (Some "https://cdn.example/other") (Some html2).

(** [n] copies of a string, one after the other. *)
Fixpoint copies (s : string) (n : nat) : string :=
  match n with
  | 0 => ""
  | S n' => s ++ copies s n'
  end.

Definition img_tag : string := "<img src='https://a/1.png'>".

Definition lesson42 : Lesson := mkLesson "42" (Some "Intro: Part 1/2?").
Definition lesson43 : Lesson := mkLesson "43" None.

(** The lesson list of course [c1], two pages. *)
Definition lesson_pages (i : nat) : page_data Lesson :=
  match i with
  | 1 => Paged [lesson42] (Some "https://api.skilljar.com/v1/lessons?page=2")
  | 2 => Paged [lesson43] None
  | _ => Paged [] None
  end.

Fixpoint lookup (k : string) (d : params) : option pyval :=
  match d with
  | [] => None
  | (k', v) :: d' => if String.eqb k k' then Some v else lookup k d'
  end.

Definition env : Env := {|
  urljoin := fun base endpoint => base ++ endpoint;
  url_basename := fun u =>
    if Str.contains "[" u then Failed "Invalid IPv6 URL"
    else Replied (Str.split_last "/" u);
  lessons_api := fun _ _ kwargs =>
    match kwargs with
    | Some d =>
        match lookup "course_id" d, lookup "page" d with
        | Some (PStr c), Some (PInt i) =>
            if String.eqb c "c1" then Replied (lesson_pages i)
            else Failed "503 Server Error"
        | _, _ => Failed "400 Client Error"
        end
    | None => Failed "400 Client Error"
    end;
  details_api := fun _ _ _ => Replied (JObj [("status", JStr "published")]);
  content_api := fun _ u _ =>
    if String.eqb u "https://api.skilljar.com/v1/lessons/42/content-items"
    then Replied (Listing [item_a; item_b])
    else Failed "500 Server Error";
  web := fun _ u =>
    if Str.contains "doc.pdf" u then Failed "403 Client Error"
    else Replied (mkResponse (Some "image/png") ["PNG"] None)
|}.

Definition self : SkilljarDownloader :=
  mkDownloader "key" "https://api.skilljar.com".

Definition course_dir : path := ["downloads"; "course_c1"].

Definition run42 : trace * outcome unit :=
  download_lesson_content env self 3 lesson42 course_dir [].

Definition run43 : trace * outcome unit :=
  download_lesson_content env self 3 lesson43 course_dir [].

End Demo.

(** ** Construction and entry point *)

(** [s.rstrip('/')] *)
Definition rstrip_slash (s : string) : string :=
  Str.of_chars
    (rev (Str.dropwhile (fun c => Ascii.eqb c "/") (rev (Str.chars s)))).

(** [SkilljarDownloader.__init__]: the key and the base URL without its
    trailing slashes; the session it also builds (basic auth with the
    key, JSON headers, no certificate check) is what the remote ends of
    the environment stand for. *)
Definition __init__ (api_key base_url : string) : SkilljarDownloader :=
  mkDownloader api_key (rstrip_slash base_url).

(** The parsed command line: [--api-key] is optional, [--course-ids]
    takes one or more values, the two others have defaults. *)
Record Args : Type := mkArgs {
  args_api_key : option string;
  args_course_ids : list string;
  args_output_dir : string;
  args_base_url : string
}.

(** [main] after [parser.parse_args()]; [environ_key] is the result of
    [os.getenv('SKILLJAR_API_KEY')], and the value returned is the exit
    status of the process: [exit(1)] ends it with 1, falling off the end
    with 0. *)
Definition main (env : Env) (fuel : nat) (args : Args)
  (environ_key : option string) : M nat :=
  let api_key := py_or (args_api_key args) environ_key in
  match truthy api_key with
  | None =>
      print "Error: API key must be provided via --api-key argument or SKILLJAR_API_KEY environment variable" ;;;
      ret 1
  | Some key =>
      let downloader := __init__ key (args_base_url args) in
      print ("Starting download of "
             ++ Str.of_nat (List.length (args_course_ids args))
             ++ " courses...") ;;;
      download_courses env downloader fuel (args_course_ids args)
                       (args_output_dir args) ;;;
      print (newline ++ "Download completed!") ;;;
      ret 0
  end.

(** ** More readings of traces *)

Definition is_mkdir (ev : event) : bool :=
  match ev with
  | Mkdir _ => true
  | _ => false
  end.

(** Events that reach outside the process: requests, GETs, directories
    and files. *)
Definition is_outside (ev : event) : bool :=
  match ev with
  | Stdout _ | Sleep _ | Call_download_file _ _ _ _ => false
  | _ => true
  end.

(** The file names [urlparse] and [Path] derive for the URLs of a list,
    those for which they derive one. *)
Fixpoint derived_names (env : Env) (urls : list string) : list string :=
  match urls with
  | [] => []
  | u :: urls' =>
      match url_basename env u with
      | Replied name => name :: derived_names env urls'
      | Failed _ => derived_names env urls'
      end
  end.

(** [d.get(k)] on a dict kept as an association list. *)
Fixpoint dict_get (k : string) (d : params) : option pyval :=
  match d with
  | [] => None
  | (k', v) :: d' => if String.eqb k k' then Some v else dict_get k d'
  end.

(** The events of the paginator on the pages [page], ..., [page + n - 1]
    when each of them is followed by another request. *)
Definition page_rounds (env : Env) (self : SkilljarDownloader)
  (endpoint : string) (params0 : option params) (page n : nat) : trace :=
  flat_map (fun i => [page_request env self endpoint params0 i; Sleep 100])
           (seq page n).

(** ** Paths as [pathlib] reads them *)

(** [s.split(sep)] for a one-character separator. *)
Fixpoint fields (sep : ascii) (acc s : list ascii) : list (list ascii) :=
  match s with
  | [] => [rev acc]
  | c :: s' =>
      if Ascii.eqb c sep then rev acc :: fields sep [] s'
      else fields sep (c :: acc) s'
  end.

(** The components [pathlib] makes of a segment: the fields between the
    slashes, without the empty ones and the single dots. *)
Definition components (segment : string) : list string :=
  filter (fun f => negb (String.eqb f "" || String.eqb f "."))
         (map Str.of_chars (fields "/" [] (Str.chars segment))).

(** The anchor of a segment that starts with a slash; exactly two
    leading slashes are kept as they are. *)
Definition root_of (segment : string) : list string :=
  match Str.chars segment with
  | c1 :: s1 =>
      if Ascii.eqb c1 "/" then
        match s1 with
        | c2 :: s2 =>
            if Ascii.eqb c2 "/" then
              match s2 with
              | c3 :: _ => if Ascii.eqb c3 "/" then ["/"] else ["//"]
              | [] => ["//"]
              end
            else ["/"]
        | [] => ["/"]
        end
      else []
  | [] => []
  end.

(** The [parts] of the [PurePosixPath] built from [p]: the components of
    the segments one after the other; a segment that starts with a slash
    replaces what comes before it. *)
Definition pathlib_parts (p : path) : list string :=
  fold_left (fun acc segment =>
               match root_of segment with
               | [] => (acc ++ components segment)%list
               | root => (root ++ components segment)%list
               end) p [].

(** Creations of a directory that is [n] components deep. *)
Definition is_mkdir_at_depth (n : nat) (ev : event) : bool :=
  match ev with
  | Mkdir p => Nat.eqb (List.length (pathlib_parts p)) n
  | _ => false
  end.

(** ** A second small world, where more goes wrong *)

Module Demo2.

Definition lesson_bad : Lesson := mkLesson "bad" (Some "Broken").

Definition env : Env := {|
  urljoin := fun base endpoint => base ++ endpoint;
  url_basename := url_basename Demo.env;
  lessons_api := fun _ _ kwargs =>
    match kwargs with
    | Some d =>
        match dict_get "course_id" d with
        | Some (PStr c) =>
            if String.eqb c "empty"
            then Replied (Paged [] (Some "https://api.skilljar.com/v1/lessons?page=2"))
            else if String.eqb c "c2"
            then Replied (Listing [Demo.lesson42; lesson_bad; Demo.lesson43])
            else Failed "404 Client Error"
        | _ => Failed "400 Client Error"
        end
    | None => Failed "400 Client Error"
    end;
  details_api := fun _ u _ =>
    if String.eqb u "https://api.skilljar.com/v1/lessons/bad"
    then Failed "404 Client Error"
    else Replied (JObj [("status", JStr "published")]);
  content_api := fun _ _ kwargs =>
    match kwargs with
    | Some d =>
        match dict_get "page" d with
        | Some (PInt 1) => Replied (Paged [Demo.item_b] (Some "next"))
        | _ => Failed "502 Server Error"
        end
    | None => Failed "400 Client Error"
    end;
  web := fun _ _ => Replied (mkResponse None ["data"] None)
|}.

(** An endpoint that always has a next page. *)
Definition endless : trace -> string -> option params -> reply (page_data json) :=
  fun _ _ _ => Replied (Paged [JNull] (Some "next")).

Definition course_dir : path := ["downloads"; "course_c2"].

End Demo2.

(** An event that creates no directory. *)
Definition no_mkdir (ev : event) : Prop := is_mkdir ev = false.

(** * Properties *)

Local Open Scope list_scope.

(** ** Running computations *)

Lemma pair_eta {A B} (p : A * B) : p = (fst p, snd p).
Proof. now destruct p. Qed.

Lemma bind_ret_eq {A B} (m : M A) (f : A -> M B) h t a :
  m h = (t, Ret a) ->
  bind m f h = (t ++ fst (f a (h ++ t)), snd (f a (h ++ t))).
Proof. intros E. unfold bind. rewrite E. now destruct (f a (h ++ t)). Qed.

Lemma bind_raise_eq {A B} (m : M A) (f : A -> M B) h t e :
  m h = (t, Raise e) -> bind m f h = (t, Raise e).
Proof. intros E. unfold bind. now rewrite E. Qed.

Lemma bind_out_of_fuel_eq {A B} (m : M A) (f : A -> M B) h t :
  m h = (t, OutOfFuel) -> bind m f h = (t, OutOfFuel).
Proof. intros E. unfold bind. now rewrite E. Qed.

Lemma bind_emit {B} (ev : event) (k : M B) h :
  (emit ev ;;; k) h = (ev :: fst (k (h ++ [ev])), snd (k (h ++ [ev]))).
Proof. apply (bind_ret_eq (emit ev) (fun _ => k) h [ev] tt). reflexivity. Qed.

Lemma bind_ret {A B} (a : A) (f : A -> M B) h :
  bind (ret a) f h = f a h.
Proof.
  rewrite (bind_ret_eq (ret a) f h [] a) by reflexivity.
  rewrite app_nil_r. simpl. symmetry. apply pair_eta.
Qed.

Lemma bind_ask {A B} (g : trace -> A) (f : A -> M B) h :
  bind (ask g) f h = f (g h) h.
Proof.
  rewrite (bind_ret_eq (ask g) f h [] (g h)) by reflexivity.
  rewrite app_nil_r. simpl. symmetry. apply pair_eta.
Qed.

Lemma try_ret_eq {A} (m : M A) handler h t a :
  m h = (t, Ret a) -> try_ m handler h = (t, Ret a).
Proof. intros E. unfold try_. now rewrite E. Qed.

Lemma try_out_of_fuel_eq {A} (m : M A) handler h t :
  m h = (t, OutOfFuel) -> try_ m handler h = (t, OutOfFuel).
Proof. intros E. unfold try_. now rewrite E. Qed.

Lemma try_caught_eq {A} (m : M A) handler h t e m' :
  m h = (t, Raise e) -> handler e = Some m' ->
  try_ m handler h = (t ++ fst (m' (h ++ t)), snd (m' (h ++ t))).
Proof.
  intros E Hh. unfold try_. rewrite E, Hh. now destruct (m' (h ++ t)).
Qed.

Lemma try_passed_eq {A} (m : M A) handler h t e :
  m h = (t, Raise e) -> handler e = None -> try_ m handler h = (t, Raise e).
Proof. intros E Hh. unfold try_. now rewrite E, Hh. Qed.

Lemma for_cons {A S} (x : A) (l : list A) (body : A -> S -> M S) (s : S) :
  for_ (x :: l) body s = (s' <- body x s ;; for_ l body s').
Proof. reflexivity. Qed.

(** The events of [m ;; f] begin with the events of [m]. *)
Lemma bind_trace_prefix {A B} (m : M A) (f : A -> M B) h :
  exists t', fst (bind m f h) = fst (m h) ++ t'.
Proof.
  unfold bind. destruct (m h) as [t [a|e|]]; simpl.
  - destruct (f a (h ++ t)) as [t' o']. simpl. eauto.
  - exists []. now rewrite app_nil_r.
  - exists []. now rewrite app_nil_r.
Qed.

(** ** More on sequencing and loops *)

Lemma bind_assoc_at {A B C} (m : M A) (f : A -> M B) (g : B -> M C) h :
  bind (bind m f) g h = bind m (fun a => bind (f a) g) h.
Proof.
  unfold bind. destruct (m h) as [t [a|e|]]; [|reflexivity|reflexivity].
  destruct (f a (h ++ t)) as [t' [b|e|]].
  - rewrite <- app_assoc. destruct (g b (h ++ t ++ t')) as [t'' o].
    now rewrite <- app_assoc.
  - reflexivity.
  - reflexivity.
Qed.

Lemma bind_ext_at {A B} (m : M A) (f f' : A -> M B) h :
  (forall a h', f a h' = f' a h') -> bind m f h = bind m f' h.
Proof.
  intros E. unfold bind. destruct (m h) as [t [a|e|]]; [|reflexivity|reflexivity].
  now rewrite E.
Qed.

Lemma bind_cong_at {A B} (m m' : M A) (f f' : A -> M B) h :
  m h = m' h -> (forall a h', f a h' = f' a h') -> bind m f h = bind m' f' h.
Proof.
  intros Em E. unfold bind. rewrite Em.
  destruct (m' h) as [t [a|e|]]; [|reflexivity|reflexivity]. now rewrite E.
Qed.

Lemma bind_ret_r_at {A} (m : M A) h : bind m ret h = m h.
Proof.
  unfold bind, ret. destruct (m h) as [t [a|e|]]; [|reflexivity|reflexivity].
  now rewrite app_nil_r.
Qed.

(** A loop over [l1 ++ l2] is the loop over [l1] followed by the loop
    over [l2]. *)
Lemma for_app {A S} (body : A -> S -> M S) (l1 l2 : list A) : forall s h,
  for_ (l1 ++ l2) body s h
  = bind (for_ l1 body s) (fun s' => for_ l2 body s') h.
Proof.
  induction l1 as [|x l1 IH]; intros s h.
  - simpl. now rewrite bind_ret.
  - cbn [app]. rewrite !for_cons, bind_assoc_at.
    apply bind_ext_at. intros a h'. apply IH.
Qed.

(** The events of a sequence and of a handled computation. *)
Lemma bind_trace {A B} (m : M A) (f : A -> M B) h :
  fst (bind m f h)
  = fst (m h) ++ match snd (m h) with
                 | Ret a => fst (f a (h ++ fst (m h)))
                 | _ => []
                 end.
Proof.
  unfold bind. destruct (m h) as [t [a|e|]]; cbn [fst snd].
  - now destruct (f a (h ++ t)).
  - now rewrite app_nil_r.
  - now rewrite app_nil_r.
Qed.

Lemma try_trace {A} (m : M A) handler h :
  fst (try_ m handler h)
  = fst (m h) ++ match snd (m h) with
                 | Raise e =>
                     match handler e with
                     | Some m' => fst (m' (h ++ fst (m h)))
                     | None => []
                     end
                 | _ => []
                 end.
Proof.
  unfold try_. destruct (m h) as [t [a|e|]]; cbn [fst snd].
  - now rewrite app_nil_r.
  - destruct (handler e) as [m'|]; [now destruct (m' (h ++ t))|].
    now rewrite app_nil_r.
  - now rewrite app_nil_r.
Qed.

(** ** Strings and lists *)

Lemma chars_of_chars (l : list ascii) : Str.chars (Str.of_chars l) = l.
Proof. apply list_ascii_of_string_of_list_ascii. Qed.

Lemma of_chars_chars (s : string) : Str.of_chars (Str.chars s) = s.
Proof. apply string_of_list_ascii_of_string. Qed.

Lemma chars_append (a b : string) :
  Str.chars (a ++ b)%string = Str.chars a ++ Str.chars b.
Proof.
  unfold Str.chars. induction a as [|c a IH]; simpl; [reflexivity|].
  now rewrite IH.
Qed.

Lemma of_chars_app (a b : list ascii) :
  Str.of_chars (a ++ b) = (Str.of_chars a ++ Str.of_chars b)%string.
Proof.
  unfold Str.of_chars. induction a as [|c a IH]; simpl; [reflexivity|].
  now rewrite IH.
Qed.

Lemma chars_inj (a b : string) : Str.chars a = Str.chars b -> a = b.
Proof.
  intros H. rewrite <- (of_chars_chars a), <- (of_chars_chars b). now rewrite H.
Qed.

(** Lowering changes no character that is not a letter. *)
Lemma lower_hits_nonletter (x c : ascii) :
  In c [dquote; squote; gt; "."%char] -> Str.lower x = Str.lower c -> x = c.
Proof.
  intros Hc.
  assert (E : Ascii.eqb (Str.lower x) (Str.lower c) = Ascii.eqb x c).
  { destruct Hc as [<-|[<-|[<-|[<-|[]]]]];
      destruct x as [[] [] [] [] [] [] [] []]; reflexivity. }
  intros H. apply Ascii.eqb_eq. rewrite <- E. now apply Ascii.eqb_eq.
Qed.

Lemma fold_extend_flat_map {A B} (f : A -> list B) (l : list A) (acc : list B) :
  fold_left (fun urls p => urls ++ f p) l acc = acc ++ flat_map f l.
Proof.
  revert acc. induction l as [|p l IH]; intros acc; simpl.
  - now rewrite app_nil_r.
  - rewrite IH. now rewrite app_assoc.
Qed.

Lemma fold_append_filter {A} (p : A -> bool) (l acc : list A) :
  fold_left (fun valid x => if p x then valid ++ [x] else valid) l acc
  = acc ++ filter p l.
Proof.
  revert acc. induction l as [|x l IH]; intros acc; simpl.
  - now rewrite app_nil_r.
  - rewrite IH. destruct (p x); [|reflexivity].
    now rewrite <- app_assoc.
Qed.

(** ** The matcher finds matches, and finds one when there is one *)

Module ReFacts.
Import Re ReSpec.

Lemma firstn_consumed {A} (w s : list A) :
  firstn (List.length (w ++ s) - List.length s) (w ++ s) = w.
Proof.
  rewrite length_app.
  replace (List.length w + List.length s - List.length s) with (List.length w + 0) by lia.
  rewrite firstn_app_2. simpl. now rewrite app_nil_r.
Qed.

Lemma more_sound a s cap k res :
  more a s cap k = Some res ->
  exists w s', s = w ++ s' /\ Forall (fun x => accepts a x = true) w
               /\ k s' cap = Some res.
Proof.
  revert res. induction s as [|x s IH]; intros res H; simpl in H.
  - exists [], []. auto.
  - destruct (accepts a x) eqn:Hx.
    + destruct (more a s cap k) as [r|] eqn:Hm.
      * inversion H; subst r.
        destruct (IH _ eq_refl) as (w & s' & -> & Hw & Hk).
        exists (x :: w), s'. repeat split; auto.
      * exists [], (x :: s). auto.
    + exists [], (x :: s). auto.
Qed.

Lemma run_sound r : forall s cap k res,
  run r s cap k = Some res ->
  exists w s' c', s = w ++ s' /\ matches r w cap c' /\ k s' c' = Some res.
Proof.
  induction r as [a|a|r1 IH1 r2 IH2|r1 IH1 r2 IH2|r1 IH1];
    intros s cap k res H; simpl in H.
  - destruct s as [|x s]; [discriminate|].
    destruct (accepts a x) eqn:Hx; [|discriminate].
    exists [x], s, cap. simpl. eauto 6.
  - destruct s as [|x s]; [discriminate|].
    destruct (accepts a x) eqn:Hx; [|discriminate].
    destruct (more_sound _ _ _ _ _ H) as (w & s' & -> & Hw & Hk).
    exists (x :: w), s', cap. simpl. repeat split; auto. discriminate.
  - destruct (IH1 _ _ _ _ H) as (w1 & s1 & c1 & -> & M1 & H2).
    destruct (IH2 _ _ _ _ H2) as (w2 & s2 & c2 & -> & M2 & Hk).
    exists (w1 ++ w2), s2, c2. rewrite app_assoc. simpl. eauto 8.
  - destruct (run r1 s cap k) as [r|] eqn:H1.
    + inversion H; subst r.
      destruct (IH1 _ _ _ _ H1) as (w & s' & c' & -> & M1 & Hk).
      exists w, s', c'. simpl. auto.
    + destruct (IH2 _ _ _ _ H) as (w & s' & c' & -> & M2 & Hk).
      exists w, s', c'. simpl. auto.
  - destruct (IH1 _ _ _ _ H) as (w & s' & c' & -> & M1 & Hk).
    rewrite firstn_consumed in Hk.
    exists w, s', (Some w). simpl. eauto.
Qed.

Lemma more_complete a w s cap k :
  Forall (fun x => accepts a x = true) w ->
  k s cap <> None -> more a (w ++ s) cap k <> None.
Proof.
  intros Hw Hk. induction Hw as [|x w Hx Hw IH]; simpl.
  - destruct s as [|y s]; simpl; [exact Hk|].
    destruct (accepts a y); [|exact Hk].
    destruct (more a s cap k); [discriminate|exact Hk].
  - rewrite Hx. destruct (more a (w ++ s) cap k); [discriminate|contradiction].
Qed.

Lemma run_complete r : forall w s cap c' k,
  matches r w cap c' -> k s c' <> None -> run r (w ++ s) cap k <> None.
Proof.
  induction r as [a|a|r1 IH1 r2 IH2|r1 IH1 r2 IH2|r1 IH1];
    intros w s cap c' k Hm Hk; simpl in Hm |- *.
  - destruct Hm as (-> & x & -> & Hx). simpl. now rewrite Hx.
  - destruct Hm as (-> & Hne & Hw).
    destruct w as [|x w]; [contradiction|]. inversion Hw; subst.
    simpl. rewrite H1. now apply more_complete.
  - destruct Hm as (w1 & w2 & c1 & -> & M1 & M2).
    rewrite <- app_assoc. eapply IH1; [exact M1|]. eapply IH2; eauto.
  - destruct Hm as [M|M].
    + pose proof (IH1 _ s _ _ k M Hk) as N.
      destruct (run r1 (w ++ s) cap k); [discriminate|contradiction].
    + destruct (run r1 (w ++ s) cap k); [discriminate|]. eapply IH2; eauto.
  - destruct Hm as (-> & c1 & M). eapply IH1; [exact M|].
    now rewrite firstn_consumed.
Qed.

(** Every text that the scan reports is the group of a match somewhere
    in the input. *)
Lemma scan_sound r : forall s skip u,
  In u (scan r s skip) ->
  exists pre w post c,
    s = pre ++ w ++ post /\ matches r w None c /\ u = group_text c.
Proof.
  induction s as [|x s IH]; intros skip u H; simpl in H.
  - destruct skip; [|contradiction].
    destruct (match_here r []) as [[cap rest]|] eqn:Hm; [|contradiction].
    destruct H as [<-|[]].
    destruct (run_sound _ _ _ _ _ Hm) as (w & s' & c' & E & M & Hk).
    inversion Hk; subst. exists [], w, rest, cap. auto.
  - destruct skip as [|n].
    + destruct (match_here r (x :: s)) as [[cap rest]|] eqn:Hm.
      * destruct H as [<-|H].
        -- destruct (run_sound _ _ _ _ _ Hm) as (w & s' & c' & E & M & Hk).
           inversion Hk; subst. exists [], w, rest, cap. auto.
        -- destruct (IH _ _ H) as (pre & w & post & c & -> & M & ->).
           exists (x :: pre), w, post, c. auto.
      * destruct (IH _ _ H) as (pre & w & post & c & -> & M & ->).
        exists (x :: pre), w, post, c. auto.
    + destruct (IH _ _ H) as (pre & w & post & c & -> & M & ->).
      exists (x :: pre), w, post, c. auto.
Qed.

(** When the input holds a match, the scan reports at least one. *)
Lemma scan_complete r : forall pre w post c,
  matches r w None c -> scan r (pre ++ w ++ post) 0 <> [].
Proof.
  induction pre as [|x pre IH]; intros w post c M.
  - assert (N : match_here r (w ++ post) <> None).
    { unfold match_here. eapply run_complete; [exact M|discriminate]. }
    simpl. destruct (w ++ post) as [|y s]; simpl.
    + destruct (match_here r []) as [[cap rest]|]; [discriminate|contradiction].
    + destruct (match_here r (y :: s)) as [[cap rest]|]; [discriminate|contradiction].
  - simpl. destruct (match_here r (x :: pre ++ w ++ post)) as [[cap rest]|].
    + discriminate.
    + eapply IH; eauto.
Qed.

Lemma eq_ci_length a b : eq_ci a b -> List.length a = List.length b.
Proof.
  unfold eq_ci. intros H. rewrite <- (length_map Str.lower a), H.
  apply length_map.
Qed.

(** A run of literals matches the words equal to it up to case. *)
Lemma lits_matches l : l <> [] -> forall w c c',
  matches (lits l) w c c' <-> (c' = c /\ eq_ci w l).
Proof.
  induction l as [|a l IH]; [contradiction|]. intros _ w c c'.
  destruct l as [|b l].
  - simpl. unfold eq_ci. split.
    + intros (-> & x & -> & Hx). apply Ascii.eqb_eq in Hx. simpl. now rewrite Hx.
    + intros (-> & E). destruct w as [|x [|y w]]; try discriminate.
      simpl in E. inversion E. split; [reflexivity|].
      exists x. split; [reflexivity|]. now apply Ascii.eqb_eq.
  - assert (Hne : b :: l <> []) by discriminate.
    specialize (IH Hne).
    change (lits (a :: b :: l)) with (Seq (Atom (Lit a)) (lits (b :: l))).
    simpl matches. split.
    + intros (w1 & w2 & c1 & -> & (-> & x & -> & Hx) & M2).
      apply IH in M2. destruct M2 as (-> & E).
      split; [reflexivity|]. unfold eq_ci in *. simpl.
      apply Ascii.eqb_eq in Hx. now rewrite Hx, E.
    + intros (-> & E). destruct w as [|x w]; [discriminate|].
      unfold eq_ci in E. simpl in E. inversion E.
      exists [x], w, c. repeat split.
      * exists x. split; [reflexivity|]. now apply Ascii.eqb_eq.
      * apply IH. split; [reflexivity|]. exact H1.
Qed.

Lemma accepts_quote x : accepts (OneOf quotes) x = true <-> is_quote x.
Proof.
  unfold accepts, mem_ci, quotes, is_quote.
  cbn [existsb]. rewrite orb_false_r, orb_true_iff, !Ascii.eqb_eq. split.
  - intros [H|H]; [left|right]; apply lower_hits_nonletter in H; simpl; auto.
  - intros [->| ->]; auto.
Qed.

Lemma accepts_nonquote x : accepts (NoneOf quotes) x = true <-> ~ is_quote x.
Proof.
  change (accepts (NoneOf quotes) x) with (negb (accepts (OneOf quotes) x)).
  rewrite negb_true_iff, <- accepts_quote. destruct (accepts (OneOf quotes) x); split; intros; auto; try discriminate.
  exfalso; auto.
Qed.

Lemma accepts_not_gt x : accepts (NoneOf [gt]) x = true <-> x <> gt.
Proof.
  unfold accepts, mem_ci. cbn [existsb]. rewrite orb_false_r, negb_true_iff.
  split.
  - intros H ->. rewrite Ascii.eqb_refl in H. discriminate.
  - intros H. apply Ascii.eqb_neq. intros E. apply H.
    apply lower_hits_nonletter in E; simpl; auto.
Qed.

End ReFacts.

(** ** C1: the markup asset extractor *)

Module ExtractFacts.
Import Re ReSpec ReFacts.

Lemma plus_matches a w c c' :
  matches (Plus a) w c c' <->
  (c' = c /\ w <> [] /\ forall x, In x w -> accepts a x = true).
Proof. simpl. now rewrite Forall_forall. Qed.

Lemma lit_matches s w c c' :
  s <> EmptyString ->
  matches (lit s) w c c' <-> (c' = c /\ eq_ci w (Str.chars s)).
Proof.
  intros Hs. unfold lit. apply lits_matches.
  destruct s; [contradiction|discriminate].
Qed.

Lemma quote_atom_matches w c c' :
  matches (Atom (OneOf quotes)) w c c' <->
  (c' = c /\ exists x, w = [x] /\ is_quote x).
Proof.
  simpl. split; intros (-> & x & -> & H); (split; [reflexivity|]);
    exists x; (split; [reflexivity|]); now apply accepts_quote.
Qed.

(** The word of a match of [src_pattern tag], piece by piece. *)
Lemma src_pattern_matches tag w c :
  matches (src_pattern tag) w None c <->
  exists t mid a q1 g q2,
    w = t ++ mid ++ a ++ [q1] ++ g ++ [q2]
    /\ eq_ci t (Str.chars ("<" ++ tag))
    /\ mid <> [] /\ (forall x, In x mid -> x <> gt)
    /\ eq_ci a (Str.chars "src=")
    /\ is_quote q1 /\ is_quote q2
    /\ g <> [] /\ (forall x, In x g -> ~ is_quote x)
    /\ c = Some g.
Proof.
  unfold src_pattern. cbn [matches].
  split.
  - intros (t & w1 & c1 & -> & Mt & mid & w2 & c2 & -> & Mmid & a & w3 & c3 & ->
            & Ma & wq1 & w4 & c4 & -> & Mq1 & g & wq2 & c5 & -> & Mg & Mq2).
    apply lit_matches in Mt; [|discriminate]. destruct Mt as (-> & Et).
    apply plus_matches in Mmid. destruct Mmid as (-> & Hmid & Fmid).
    apply lit_matches in Ma; [|discriminate]. destruct Ma as (-> & Ea).
    apply quote_atom_matches in Mq1. destruct Mq1 as (-> & q1 & -> & Hq1).
    destruct Mg as (-> & c6 & Mg).
    apply plus_matches in Mg. destruct Mg as (-> & Hg & Fg).
    apply quote_atom_matches in Mq2. destruct Mq2 as (-> & q2 & -> & Hq2).
    exists t, mid, a, q1, g, q2. repeat split; auto.
    + intros x Hx. now apply accepts_not_gt, Fmid.
    + intros x Hx. now apply accepts_nonquote, Fg.
  - intros (t & mid & a & q1 & g & q2 & -> & Et & Hmid & Fmid & Ea & Hq1 & Hq2
            & Hg & Fg & ->).
    exists t, (mid ++ a ++ [q1] ++ g ++ [q2]), None. split; [reflexivity|].
    split; [apply lit_matches; [discriminate|auto]|].
    exists mid, (a ++ [q1] ++ g ++ [q2]), None. split; [reflexivity|].
    split; [apply plus_matches; repeat split; auto;
            intros x Hx; now apply accepts_not_gt, Fmid|].
    exists a, ([q1] ++ g ++ [q2]), None. split; [reflexivity|].
    split; [apply lit_matches; [discriminate|auto]|].
    exists [q1], (g ++ [q2]), None. split; [reflexivity|].
    split; [apply quote_atom_matches; eauto|].
    exists g, [q2], (Some g). split; [reflexivity|].
    split.
    + split; [reflexivity|]. exists None. apply plus_matches.
      repeat split; auto. intros x Hx. now apply accepts_nonquote, Fg.
    + apply quote_atom_matches; eauto.
Qed.

Lemma alts_lit_matches (es : list string) w c c' :
  es <> [] -> (forall e, In e es -> e <> EmptyString) ->
  matches (alts (map lit es)) w c c' <->
  (c' = c /\ exists e, In e es /\ eq_ci w (Str.chars e)).
Proof.
  induction es as [|e es IH]; [contradiction|]. intros _ Hne.
  destruct es as [|e' es].
  - cbn [map alts]. rewrite lit_matches by (apply Hne; simpl; auto).
    split.
    + intros (-> & E). split; [reflexivity|]. exists e. simpl. auto.
    + intros (-> & e0 & [<-|[]] & E). auto.
  - change (alts (map lit (e :: e' :: es)))
      with (Alt (lit e) (alts (map lit (e' :: es)))).
    cbn [matches]. rewrite lit_matches by (apply Hne; simpl; auto).
    rewrite IH; [|discriminate|intros e0 H0; apply Hne; simpl in *; tauto].
    split.
    + intros [(-> & E)|(-> & e0 & H0 & E)]; (split; [reflexivity|]).
      * exists e. simpl. auto.
      * exists e0. split; [right; exact H0|exact E].
    + intros (-> & e0 & [<-|H0] & E); [left|right]; eauto.
Qed.

Lemma doc_extensions_nonempty e : In e doc_extensions -> e <> EmptyString.
Proof.
  intros H. repeat (destruct H as [<-|H]; [discriminate|]). destruct H.
Qed.

(** The word of a match of [href_pattern]. *)
Lemma href_pattern_matches w c :
  matches href_pattern w None c <->
  exists t mid a q1 stem ext e q2,
    w = t ++ mid ++ a ++ [q1] ++ (stem ++ ["."%char] ++ ext) ++ [q2]
    /\ eq_ci t (Str.chars "<a")
    /\ mid <> [] /\ (forall x, In x mid -> x <> gt)
    /\ eq_ci a (Str.chars "href=")
    /\ is_quote q1 /\ is_quote q2
    /\ stem <> [] /\ (forall x, In x stem -> ~ is_quote x)
    /\ In e doc_extensions /\ eq_ci ext (Str.chars e)
    /\ c = Some (stem ++ ["."%char] ++ ext).
Proof.
  unfold href_pattern. cbn [matches].
  split.
  - intros (t & w1 & c1 & -> & Mt & mid & w2 & c2 & -> & Mmid & a & w3 & c3 & ->
            & Ma & wq1 & w4 & c4 & -> & Mq1 & g & wq2 & c5 & -> & Mg & Mq2).
    apply lit_matches in Mt; [|discriminate]. destruct Mt as (-> & Et).
    apply plus_matches in Mmid. destruct Mmid as (-> & Hmid & Fmid).
    apply lit_matches in Ma; [|discriminate]. destruct Ma as (-> & Ea).
    apply quote_atom_matches in Mq1. destruct Mq1 as (-> & q1 & -> & Hq1).
    destruct Mg as (-> & c6 & stem & w5 & c7 & -> & Mstem & wd & ext & c8 & ->
                    & (-> & d & -> & Hd) & Mext).
    apply plus_matches in Mstem. destruct Mstem as (-> & Hstem & Fstem).
    apply alts_lit_matches in Mext;
      [|discriminate|apply doc_extensions_nonempty].
    destruct Mext as (-> & e & He & Eext).
    apply quote_atom_matches in Mq2. destruct Mq2 as (-> & q2 & -> & Hq2).
    simpl in Hd. apply Ascii.eqb_eq in Hd.
    apply lower_hits_nonletter in Hd; [|simpl; auto]. subst d.
    exists t, mid, a, q1, stem, ext, e, q2. repeat split; auto.
    + intros x Hx. now apply accepts_not_gt, Fmid.
    + intros x Hx. now apply accepts_nonquote, Fstem.
  - intros (t & mid & a & q1 & stem & ext & e & q2 & -> & Et & Hmid & Fmid & Ea
            & Hq1 & Hq2 & Hstem & Fstem & He & Eext & ->).
    exists t, (mid ++ a ++ [q1] ++ (stem ++ ["."%char] ++ ext) ++ [q2]), None.
    split; [reflexivity|].
    split; [apply lit_matches; [discriminate|auto]|].
    exists mid, (a ++ [q1] ++ (stem ++ ["."%char] ++ ext) ++ [q2]), None.
    split; [reflexivity|].
    split; [apply plus_matches; repeat split; auto;
            intros x Hx; now apply accepts_not_gt, Fmid|].
    exists a, ([q1] ++ (stem ++ ["."%char] ++ ext) ++ [q2]), None.
    split; [reflexivity|].
    split; [apply lit_matches; [discriminate|auto]|].
    exists [q1], ((stem ++ ["."%char] ++ ext) ++ [q2]), None.
    split; [reflexivity|].
    split; [apply quote_atom_matches; eauto|].
    exists (stem ++ ["."%char] ++ ext), [q2], (Some (stem ++ ["."%char] ++ ext)).
    split; [reflexivity|].
    split.
    + split; [reflexivity|]. exists None.
      exists stem, (["."%char] ++ ext), None. split; [reflexivity|].
      split; [apply plus_matches; repeat split; auto;
              intros x Hx; now apply accepts_nonquote, Fstem|].
      exists ["."%char], ext, None. split; [reflexivity|].
      split.
      * split; [reflexivity|]. exists "."%char. split; [reflexivity|].
        reflexivity.
      * apply alts_lit_matches;
          [discriminate|apply doc_extensions_nonempty|eauto].
    + apply quote_atom_matches; eauto.
Qed.

(** A word equal up to case to a document extension holds no quote. *)
Lemma extension_no_quote ext e x :
  In e doc_extensions -> eq_ci ext (Str.chars e) -> In x ext -> ~ is_quote x.
Proof.
  intros He E Hx Hq.
  assert (Hl : In (Str.lower x) (map Str.lower (Str.chars e))).
  { rewrite <- E. now apply in_map. }
  assert (Hx' : Str.lower x = x) by (destruct Hq as [->| ->]; reflexivity).
  rewrite Hx' in Hl. clear - He Hl Hq.
  repeat (destruct He as [<-|He];
          [destruct Hq as [->| ->]; simpl in Hl;
           repeat (destruct Hl as [Hl|Hl]; [discriminate Hl|]); destruct Hl|]).
  destruct He.
Qed.

Lemma findall_src_sound tag html u :
  In u (findall (src_pattern tag) html) -> src_occurrence tag html u.
Proof.
  intros H. apply scan_sound in H.
  destruct H as (pre & w & post & c & E & M & ->).
  apply src_pattern_matches in M.
  destruct M as (t & mid & a & q1 & g & q2 & -> & Et & Hmid & Fmid & Ea & Hq1
                 & Hq2 & Hg & Fg & ->).
  exists pre, t, mid, a, q1, q2, post. simpl group_text.
  rewrite chars_of_chars. repeat split; auto.
  - rewrite E. now rewrite <- !app_assoc.
  - intros Hin. now apply (Fmid gt).
  - intros Hu. apply Hg. apply (f_equal Str.chars) in Hu.
    now rewrite chars_of_chars in Hu.
Qed.

Lemma findall_src_complete tag html u :
  src_occurrence tag html u -> findall (src_pattern tag) html <> [].
Proof.
  intros (pre & t & mid & a & q1 & q2 & post & E & Et & Hmid & Fmid & Ea & Hq1
          & Hq2 & Hu & Fu).
  unfold findall. rewrite E.
  replace (pre ++ t ++ mid ++ a ++ [q1] ++ Str.chars u ++ [q2] ++ post)
    with (pre ++ (t ++ mid ++ a ++ [q1] ++ Str.chars u ++ [q2]) ++ post)
    by now rewrite <- !app_assoc.
  eapply scan_complete. apply src_pattern_matches.
  exists t, mid, a, q1, (Str.chars u), q2. repeat split; eauto.
  - intros x Hx ->. contradiction.
  - intros Hc. apply Hu. apply chars_inj. exact Hc.
Qed.

Lemma findall_href_sound html u :
  In u (findall href_pattern html) -> href_occurrence html u.
Proof.
  intros H. apply scan_sound in H.
  destruct H as (pre & w & post & c & E & M & ->).
  apply href_pattern_matches in M.
  destruct M as (t & mid & a & q1 & stem & ext & e & q2 & -> & Et & Hmid & Fmid
                 & Ea & Hq1 & Hq2 & Hstem & Fstem & He & Eext & ->).
  exists pre, t, mid, a, q1, q2, post, stem, ext, e. simpl group_text.
  rewrite chars_of_chars. repeat split; auto.
  - rewrite E. now rewrite <- !app_assoc.
  - intros Hin. now apply (Fmid gt).
  - intros x Hx. apply in_app_or in Hx. destruct Hx as [Hx|Hx]; [now apply Fstem|].
    destruct Hx as [<-|Hx].
    + intros [H|H]; discriminate H.
    + eapply extension_no_quote; eauto.
Qed.

Lemma findall_href_complete html u :
  href_occurrence html u -> findall href_pattern html <> [].
Proof.
  intros (pre & t & mid & a & q1 & q2 & post & stem & ext & e & E & Et & Hmid
          & Fmid & Ea & Hq1 & Hq2 & Eu & Hstem & He & Eext & Fu).
  unfold findall. rewrite E, Eu.
  replace (pre ++ t ++ mid ++ a ++ [q1] ++ (stem ++ ["."%char] ++ ext) ++ [q2] ++ post)
    with (pre ++ (t ++ mid ++ a ++ [q1] ++ (stem ++ ["."%char] ++ ext) ++ [q2]) ++ post)
    by now rewrite <- !app_assoc.
  eapply scan_complete. apply href_pattern_matches.
  exists t, mid, a, q1, stem, ext, e, q2. repeat split; eauto.
  - intros x Hx ->. contradiction.
  - intros x Hx. apply Fu. rewrite Eu. apply in_or_app. now left.
Qed.

Lemma starts_with_spec p s :
  Str.starts_with p s = true <-> exists r, s = p ++ r.
Proof.
  revert s. induction p as [|a p IH]; intros s; simpl.
  - split; eauto.
  - destruct s as [|b s].
    + split; [discriminate|]. intros (r & H). discriminate H.
    + rewrite andb_true_iff, Ascii.eqb_eq, IH. split.
      * intros (-> & r & ->). eauto.
      * intros (r & H). inversion H. eauto.
Qed.

Lemma startswith_spec s p :
  Str.startswith s p = true <-> exists r, s = (p ++ r)%string.
Proof.
  unfold Str.startswith. rewrite starts_with_spec. split.
  - intros (r & H). exists (Str.of_chars r). apply chars_inj.
    now rewrite chars_append, chars_of_chars.
  - intros (r & ->). exists (Str.chars r). apply chars_append.
Qed.

Lemma is_absolute_spec u :
  is_absolute u = true <->
  exists r, u = ("http://" ++ r)%string \/ u = ("https://" ++ r)%string.
Proof.
  unfold is_absolute. rewrite orb_true_iff, !startswith_spec. split.
  - intros [(r & H)|(r & H)]; eauto.
  - intros (r & [H|H]); eauto.
Qed.

Lemma extract_unfold html :
  _extract_urls_from_html html
  = filter is_absolute (flat_map (fun p => findall p html) patterns).
Proof.
  unfold _extract_urls_from_html. destruct html as [|c s]; [reflexivity|].
  now rewrite fold_append_filter, fold_extend_flat_map.
Qed.

End ExtractFacts.

(** ** The scan of a pattern, value by value *)

Module ScanFacts.
Import Re ReSpec ReFacts ExtractFacts ScanSpec.

Lemma app_eq_length {A} (a a' b b' : list A) :
  a ++ b = a' ++ b' -> List.length a = List.length a' -> a = a' /\ b = b'.
Proof.
  revert a'. induction a as [|x a IH]; intros [|y a'] E L; simpl in *;
    try discriminate; [auto|].
  inversion E; subst. destruct (IH a' H1) as [-> ->]; [lia|auto].
Qed.

(** The loop of [a+] is greedy: it hands over to the rest of the pattern
    after the longest run of accepted characters for which the rest
    succeeds. *)
Lemma more_greedy a : forall s cap k res,
  more a s cap k = Some res ->
  exists w s',
    s = w ++ s' /\ Forall (fun x => accepts a x = true) w
    /\ k s' cap = Some res
    /\ forall w' s'', s = w' ++ s'' ->
         Forall (fun x => accepts a x = true) w' ->
         List.length w < List.length w' -> k s'' cap = None.
Proof.
  induction s as [|x s IH]; intros cap k res H; simpl in H.
  - exists [], []. repeat split; auto.
    intros w' s'' E _ L. destruct w'; [simpl in L; lia|discriminate E].
  - destruct (accepts a x) eqn:Hx.
    + destruct (more a s cap k) as [r|] eqn:Hm.
      * inversion H; subst r.
        destruct (IH _ _ _ Hm) as (w & s' & -> & Hw & Hk & Hmax).
        exists (x :: w), s'. repeat split; auto.
        intros w' s'' E Hw' L. destruct w' as [|y w']; [simpl in L; lia|].
        simpl in E. inversion E; subst y. inversion Hw'; subst.
        apply (Hmax w' s''); auto. simpl in L. lia.
      * exists [], (x :: s). repeat split; auto.
        intros w' s'' E Hw' L. destruct w' as [|y w']; [simpl in L; lia|].
        simpl in E. inversion E; subst y. inversion Hw'; subst.
        destruct (k s'' cap) as [r|] eqn:Hk; [|reflexivity].
        exfalso. apply (more_complete a w' s'' cap k); auto.
        rewrite Hk. discriminate.
    + exists [], (x :: s). repeat split; auto.
      intros w' s'' E Hw' L. destruct w' as [|y w']; [simpl in L; lia|].
      simpl in E. inversion E; subst y. inversion Hw'; subst. congruence.
Qed.

Lemma plus_greedy a s cap k res :
  run (Plus a) s cap k = Some res ->
  exists w s',
    s = w ++ s' /\ w <> [] /\ Forall (fun x => accepts a x = true) w
    /\ k s' cap = Some res
    /\ forall w' s'', s = w' ++ s'' ->
         Forall (fun x => accepts a x = true) w' ->
         List.length w < List.length w' -> k s'' cap = None.
Proof.
  intros H. simpl in H. destruct s as [|x s]; [discriminate|].
  destruct (accepts a x) eqn:Hx; [|discriminate].
  destruct (more_greedy _ _ _ _ _ H) as (w & s' & -> & Hw & Hk & Hmax).
  exists (x :: w), s'. repeat split; auto; [discriminate|].
  intros w' s'' E Hw' L. destruct w' as [|y w']; [simpl in L; lia|].
  simpl in E. inversion E; subst y. inversion Hw'; subst.
  apply (Hmax w' s''); auto. simpl in L. lia.
Qed.

(** A pattern made of a literal text, a greedy gap and a rest: the match
    kept at the head of the input has the longest gap after which the
    rest matches. *)
Lemma head_gap_greedy (T : list ascii) a R s res :
  T <> [] ->
  match_here (Seq (lits T) (Seq (Plus a) R)) s = Some res ->
  exists t gap w rest cap,
    s = t ++ gap ++ w ++ rest /\ eq_ci t T
    /\ gap <> [] /\ Forall (fun x => accepts a x = true) gap
    /\ matches R w None cap /\ res = (cap, rest)
    /\ forall gap' w' rest' cap',
         s = t ++ gap' ++ w' ++ rest' ->
         Forall (fun x => accepts a x = true) gap' ->
         matches R w' None cap' ->
         List.length gap' <= List.length gap.
Proof.
  intros HT H.
  change (run (lits T) s None
              (fun s1 c1 => run (Plus a) s1 c1
                 (fun s2 c2 => run R s2 c2 (fun s' cap => Some (cap, s'))))
          = Some res) in H.
  destruct (run_sound _ _ _ _ _ H) as (t & s1 & c1 & -> & Mt & H1).
  apply lits_matches in Mt; [|exact HT]. destruct Mt as (-> & Et).
  destruct (plus_greedy _ _ _ _ _ H1) as (gap & s2 & -> & Hgap & Fgap & H2 & Hmax).
  destruct (run_sound _ _ _ _ _ H2) as (w & rest & cap & -> & Mw & Hk).
  inversion Hk; subst res.
  exists t, gap, w, rest, cap. repeat split; auto.
  intros gap' w' rest' cap' E Fgap' Mw'.
  apply app_inv_head in E.
  destruct (Nat.le_gt_cases (List.length gap') (List.length gap)) as [L|L];
    [exact L|exfalso].
  specialize (Hmax gap' (w' ++ rest') E Fgap' L).
  revert Hmax. eapply run_complete; [exact Mw'|discriminate].
Qed.

Lemma head_gap_none (T : list ascii) a R t gap w rest cap :
  T <> [] -> eq_ci t T -> gap <> [] ->
  Forall (fun x => accepts a x = true) gap ->
  matches R w None cap ->
  match_here (Seq (lits T) (Seq (Plus a) R)) (t ++ gap ++ w ++ rest) <> None.
Proof.
  intros HT Et Hgap Fgap Mw. unfold match_here.
  replace (t ++ gap ++ w ++ rest) with ((t ++ gap ++ w) ++ rest)
    by now rewrite <- !app_assoc.
  eapply run_complete; [|discriminate].
  cbn [matches]. exists t, (gap ++ w), None. split; [reflexivity|].
  split; [apply lits_matches; auto|].
  exists gap, w, None. split; [reflexivity|]. split; [|exact Mw].
  repeat split; auto.
Qed.

(** The text up to the first quote is determined. *)
Lemma quote_split (u u' r r' : list ascii) q q' :
  u ++ q :: r = u' ++ q' :: r' ->
  (forall x, In x u -> ~ is_quote x) -> (forall x, In x u' -> ~ is_quote x) ->
  is_quote q -> is_quote q' -> u = u' /\ r = r'.
Proof.
  revert u'. induction u as [|x u IH]; intros [|y u'] E F F' Hq Hq'; simpl in E.
  - inversion E. auto.
  - inversion E; subst. exfalso. apply (F' y); simpl; auto.
  - inversion E; subst. exfalso. apply (F q'); simpl; auto.
  - inversion E; subst. destruct (IH u' H1) as [-> ->]; auto.
    + intros z Hz. apply F. simpl. auto.
    + intros z Hz. apply F'. simpl. auto.
Qed.

Section AttrPattern.

Variable opening attr : string.
Variable ok : list ascii -> Prop.
Variable R : regex.

Hypothesis opening_not_empty : opening <> EmptyString.

Hypothesis R_matches : forall w c,
  matches R w None c <->
  exists a q1 g q2,
    w = a ++ [q1] ++ g ++ [q2]
    /\ eq_ci a (Str.chars attr) /\ is_quote q1 /\ is_quote q2
    /\ g <> [] /\ (forall x, In x g -> ~ is_quote x) /\ ok g
    /\ c = Some g.

Let pattern : regex := Seq (lit opening) (Seq (Plus (NoneOf [gt])) R).
Let occ := attr_at opening attr ok.

Lemma opening_chars : Str.chars opening <> [].
Proof. destruct opening; [contradiction|discriminate]. Qed.

Lemma gap_accepted gap :
  Forall (fun x => accepts (NoneOf [gt]) x = true) gap <-> ~ In gt gap.
Proof.
  rewrite Forall_forall. split.
  - intros F Hin. apply F in Hin. apply accepts_not_gt in Hin. now apply Hin.
  - intros H x Hx. apply accepts_not_gt. intros ->. contradiction.
Qed.

Lemma attr_hit s cap rest :
  match_here pattern s = Some (cap, rest) ->
  exists url,
    cap = Some url /\ reported_at (occ s) url rest
    /\ exists w, w <> [] /\ s = w ++ rest.
Proof.
  intros H. apply head_gap_greedy in H; [|apply opening_chars].
  destruct H as (t & gap & w & rest0 & cap0 & -> & Et & Hgap & Fgap & Mw & E & Hmax).
  inversion E; subst cap0 rest0. clear E.
  apply R_matches in Mw.
  destruct Mw as (a & q1 & g & q2 & -> & Ea & Hq1 & Hq2 & Hg & Fg & Hok & ->).
  exists g. split; [reflexivity|]. split.
  - exists gap. split.
    + exists t, a, q1, q2. rewrite <- !app_assoc.
      repeat split; auto. now apply gap_accepted.
    + intros gap' url' rest' (t' & a' & q1' & q2' & E & Et' & Hgap' & Fgap' & Ea'
                                & Hq1' & Hq2' & Hu' & Fu' & Hok').
      destruct (app_eq_length _ _ _ _ E) as [<- E'].
      { rewrite (eq_ci_length _ _ Et), (eq_ci_length _ _ Et'). reflexivity. }
      apply (Hmax gap' (a' ++ [q1'] ++ url' ++ [q2']) rest' (Some url')).
      * rewrite E. now rewrite <- !app_assoc.
      * now apply gap_accepted.
      * apply R_matches. exists a', q1', url', q2'. repeat split; auto.
  - exists (t ++ gap ++ a ++ [q1] ++ g ++ [q2]). split.
    + intros E. apply app_eq_nil in E. destruct E as [_ E].
      apply app_eq_nil in E. destruct E as [E _]. contradiction.
    + now rewrite <- !app_assoc.
Qed.

Lemma attr_miss s :
  match_here pattern s = None -> forall gap url rest, ~ occ s gap url rest.
Proof.
  intros H gap url rest (t & a & q1 & q2 & -> & Et & Hgap & Fgap & Ea & Hq1 & Hq2
                           & Hu & Fu & Hok).
  revert H.
  replace (t ++ gap ++ a ++ [q1] ++ url ++ [q2] ++ rest)
    with (t ++ gap ++ (a ++ [q1] ++ url ++ [q2]) ++ rest)
    by now rewrite <- !app_assoc.
  apply (head_gap_none (Str.chars opening) (NoneOf [gt]) R t gap _ rest (Some url));
    auto.
  - apply opening_chars.
  - now apply gap_accepted.
  - apply R_matches. exists a, q1, url, q2. repeat split; auto.
Qed.

Lemma occ_not_at_end gap url rest : ~ occ [] gap url rest.
Proof.
  intros (t & a & q1 & q2 & E & _ & Hgap & _).
  symmetry in E. apply app_eq_nil in E. destruct E as [_ E].
  apply app_eq_nil in E. destruct E as [E _]. contradiction.
Qed.

Lemma reported_fun s url rest url' rest' :
  reported_at (occ s) url rest -> reported_at (occ s) url' rest' ->
  url = url' /\ rest = rest'.
Proof.
  intros (gap & O & Hmax) (gap' & O' & Hmax').
  pose proof (Hmax _ _ _ O') as L1. pose proof (Hmax' _ _ _ O) as L2.
  destruct O as (t & a & q1 & q2 & -> & Et & _ & _ & Ea & Hq1 & Hq2 & _ & Fu & _).
  destruct O' as (t' & a' & q1' & q2' & E & Et' & _ & _ & Ea' & Hq1' & Hq2' & _
                  & Fu' & _).
  destruct (app_eq_length _ _ _ _ E) as [<- E1].
  { rewrite (eq_ci_length _ _ Et), (eq_ci_length _ _ Et'). reflexivity. }
  destruct (app_eq_length _ _ _ _ E1) as [<- E2]; [lia|].
  destruct (app_eq_length _ _ _ _ E2) as [<- E3].
  { rewrite (eq_ci_length _ _ Ea), (eq_ci_length _ _ Ea'). reflexivity. }
  simpl in E3. inversion E3; subst q1'.
  apply (quote_split url url' rest rest' q2 q2'); auto.
Qed.

(** The scan reports the values found, and there is one list of them. *)
Lemma scan_skips w : forall rest,
  scan pattern (w ++ rest) (List.length w) = scan pattern rest 0.
Proof. induction w as [|x w IH]; intros rest; [reflexivity|apply IH]. Qed.

Lemma scan_found : forall n s, List.length s <= n -> found occ s (scan pattern s 0).
Proof.
  induction n as [|n IH]; intros s L.
  - destruct s; [|simpl in L; lia]. simpl.
    destruct (match_here pattern []) as [[cap rest]|] eqn:Hm; [|constructor].
    apply attr_hit in Hm. destruct Hm as (url & _ & (gap & O & _) & _).
    now apply occ_not_at_end in O.
  - destruct s as [|x s].
    + simpl. destruct (match_here pattern []) as [[cap rest]|] eqn:Hm; [|constructor].
      apply attr_hit in Hm. destruct Hm as (url & _ & (gap & O & _) & _).
      now apply occ_not_at_end in O.
    + cbn [scan]. destruct (match_here pattern (x :: s)) as [[cap rest]|] eqn:Hm.
      * apply attr_hit in Hm.
        destruct Hm as (url & -> & Rep & w & Hw & E).
        destruct w as [|y w]; [contradiction|]. simpl in E. inversion E; subst y s.
        simpl group_text.
        replace (List.length (x :: w ++ rest) - List.length rest - 1)
          with (List.length w) by (cbn [List.length]; rewrite length_app; lia).
        rewrite scan_skips. apply found_hit with (rest := rest).
        -- exact Rep.
        -- apply IH. simpl in L. rewrite length_app in L. lia.
      * apply found_skip.
        -- now apply attr_miss.
        -- apply IH. simpl in L. lia.
Qed.

Lemma found_fun s l :
  found occ s l -> forall l', found occ s l' -> l = l'.
Proof.
  induction 1 as [|x s l Hno F IH|s url rest l Rep F IH]; intros l' F'.
  - inversion F' as [| |s0 url' rest' l0 Rep' F0]; subst; [reflexivity|].
    destruct Rep' as (gap & O & _). now apply occ_not_at_end in O.
  - inversion F' as [|x0 s0 l0 Hno' F0|s0 url' rest' l0 Rep' F0]; subst.
    + now apply IH.
    + destruct Rep' as (gap & O & _). now apply Hno in O.
  - inversion F' as [|x0 s0 l0 Hno' F0|s0 url' rest' l0 Rep' F0]; subst.
    + destruct Rep as (gap & O & _). now apply occ_not_at_end in O.
    + destruct Rep as (gap & O & _). now apply Hno' in O.
    + destruct (reported_fun _ _ _ _ _ Rep Rep') as [-> ->].
      f_equal. now apply IH.
Qed.

Lemma findall_found html : found occ (Str.chars html) (findall pattern html).
Proof. unfold findall. now apply (scan_found (List.length (Str.chars html))). Qed.

End AttrPattern.

(** The two rests of the patterns. *)
Lemma src_rest_matches w c :
  matches (Seq (lit "src=")
          (Seq (Atom (OneOf quotes))
          (Seq (Group (Plus (NoneOf quotes))) (Atom (OneOf quotes))))) w None c <->
  exists a q1 g q2,
    w = a ++ [q1] ++ g ++ [q2]
    /\ eq_ci a (Str.chars "src=") /\ is_quote q1 /\ is_quote q2
    /\ g <> [] /\ (forall x, In x g -> ~ is_quote x) /\ True
    /\ c = Some g.
Proof.
  cbn [matches]. split.
  - intros (a & w3 & c3 & -> & Ma & wq1 & w4 & c4 & -> & Mq1 & g & wq2 & c5 & ->
            & Mg & Mq2).
    apply lit_matches in Ma; [|discriminate]. destruct Ma as (-> & Ea).
    apply quote_atom_matches in Mq1. destruct Mq1 as (-> & q1 & -> & Hq1).
    destruct Mg as (-> & c6 & Mg).
    apply plus_matches in Mg. destruct Mg as (-> & Hg & Fg).
    apply quote_atom_matches in Mq2. destruct Mq2 as (-> & q2 & -> & Hq2).
    exists a, q1, g, q2. repeat split; auto.
    intros x Hx. now apply accepts_nonquote, Fg.
  - intros (a & q1 & g & q2 & -> & Ea & Hq1 & Hq2 & Hg & Fg & _ & ->).
    exists a, ([q1] ++ g ++ [q2]), None. split; [reflexivity|].
    split; [apply lit_matches; [discriminate|auto]|].
    exists [q1], (g ++ [q2]), None. split; [reflexivity|].
    split; [apply quote_atom_matches; eauto|].
    exists g, [q2], (Some g). split; [reflexivity|].
    split.
    + split; [reflexivity|]. exists None. apply plus_matches.
      repeat split; auto. intros x Hx. now apply accepts_nonquote, Fg.
    + apply quote_atom_matches; eauto.
Qed.

Lemma href_rest_matches w c :
  matches (Seq (lit "href=")
          (Seq (Atom (OneOf quotes))
          (Seq (Group
                  (Seq (Plus (NoneOf quotes))
                  (Seq (Atom (Lit "."))
                       (alts (map lit doc_extensions)))))
               (Atom (OneOf quotes))))) w None c <->
  exists a q1 g q2,
    w = a ++ [q1] ++ g ++ [q2]
    /\ eq_ci a (Str.chars "href=") /\ is_quote q1 /\ is_quote q2
    /\ g <> [] /\ (forall x, In x g -> ~ is_quote x) /\ ends_in_doc_extension g
    /\ c = Some g.
Proof.
  cbn [matches]. split.
  - intros (a & w3 & c3 & -> & Ma & wq1 & w4 & c4 & -> & Mq1 & g & wq2 & c5 & ->
            & Mg & Mq2).
    apply lit_matches in Ma; [|discriminate]. destruct Ma as (-> & Ea).
    apply quote_atom_matches in Mq1. destruct Mq1 as (-> & q1 & -> & Hq1).
    destruct Mg as (-> & c6 & stem & w5 & c7 & -> & Mstem & wd & ext & c8 & ->
                    & (-> & d & -> & Hd) & Mext).
    apply plus_matches in Mstem. destruct Mstem as (-> & Hstem & Fstem).
    apply alts_lit_matches in Mext;
      [|discriminate|apply doc_extensions_nonempty].
    destruct Mext as (-> & e & He & Eext).
    apply quote_atom_matches in Mq2. destruct Mq2 as (-> & q2 & -> & Hq2).
    simpl in Hd. apply Ascii.eqb_eq in Hd.
    apply lower_hits_nonletter in Hd; [|simpl; auto]. subst d.
    exists a, q1, (stem ++ ["."%char] ++ ext), q2. repeat split; auto.
    + intros E. apply app_eq_nil in E. destruct E as [E _]. contradiction.
    + intros x Hx. apply in_app_or in Hx.
      destruct Hx as [Hx|Hx]; [now apply accepts_nonquote, Fstem|].
      destruct Hx as [<-|Hx].
      * intros [H|H]; discriminate H.
      * eapply extension_no_quote; eauto.
    + exists stem, ext, e. auto.
  - intros (a & q1 & g & q2 & -> & Ea & Hq1 & Hq2 & Hg & Fg
            & (stem & ext & e & -> & Hstem & He & Eext) & ->).
    exists a, ([q1] ++ (stem ++ ["."%char] ++ ext) ++ [q2]), None.
    split; [reflexivity|].
    split; [apply lit_matches; [discriminate|auto]|].
    exists [q1], ((stem ++ ["."%char] ++ ext) ++ [q2]), None.
    split; [reflexivity|].
    split; [apply quote_atom_matches; eauto|].
    exists (stem ++ ["."%char] ++ ext), [q2], (Some (stem ++ ["."%char] ++ ext)).
    split; [reflexivity|].
    split.
    + split; [reflexivity|]. exists None.
      exists stem, (["."%char] ++ ext), None. split; [reflexivity|].
      split; [apply plus_matches; repeat split; auto;
              intros x Hx; apply accepts_nonquote, Fg, in_or_app; now left|].
      exists ["."%char], ext, None. split; [reflexivity|].
      split.
      * split; [reflexivity|]. exists "."%char. split; [reflexivity|].
        reflexivity.
      * apply alts_lit_matches;
          [discriminate|apply doc_extensions_nonempty|eauto].
    + apply quote_atom_matches; eauto.
Qed.

Lemma findall_src_found tag html :
  found (src_at tag) (Str.chars html) (findall (src_pattern tag) html).
Proof.
  apply (findall_found ("<" ++ tag) "src=" (fun _ => True) _);
    [discriminate|apply src_rest_matches].
Qed.

Lemma findall_href_found html :
  found href_at (Str.chars html) (findall href_pattern html).
Proof.
  apply (findall_found "<a" "href=" ends_in_doc_extension _);
    [discriminate|apply href_rest_matches].
Qed.

Lemma src_found_fun tag s l l' :
  found (src_at tag) s l -> found (src_at tag) s l' -> l = l'.
Proof. intros F F'. exact (found_fun _ _ _ s l F l' F'). Qed.

Lemma href_found_fun s l l' :
  found href_at s l -> found href_at s l' -> l = l'.
Proof. intros F F'. exact (found_fun _ _ _ s l F l' F'). Qed.

End ScanFacts.

(** C1, the claim as worded fails: it reads the extractor by elements
    and attributes, and the code matches text.  In an [img] tag that
    holds [src] and then [data-src], the value of [data-src] is returned
    and that of [src] is not; and the pattern of the anchors takes the
    [href] of an [area] element, whose name starts with the letter of
    the anchors. *)
Lemma extract_urls_counterexample :
  _extract_urls_from_html "<img src='https://a/1.png' data-src='https://a/2.png'>"
  = ["https://a/2.png"]%string
  /\ Spec.extract_as_claimed
       "<img src='https://a/1.png' data-src='https://a/2.png'>"
     = ["https://a/1.png"]%string
  /\ _extract_urls_from_html "<area href='https://a/x.pdf'>"
     = ["https://a/x.pdf"]%string
  /\ Spec.extract_as_claimed "<area href='https://a/x.pdf'>" = []
  /\ _extract_urls_from_html "<img src='https://a/1.png' data-src='https://a/2.png'>"
     <> Spec.extract_as_claimed
          "<img src='https://a/1.png' data-src='https://a/2.png'>".
Proof. repeat split; try (vm_compute; reflexivity). vm_compute. discriminate. Qed.

(** C1, amended.  For every HTML string the extractor returns, in this
    order, the values found for the patterns of [img], [video], [audio],
    [source], [embed], [iframe] and of the anchors, keeping those that
    start with [http://] or [https://].  The values found for a pattern
    are all of them and no other: the input is read from the left; where
    the text of the tag name is followed by a gap without [>], the
    attribute text, a quote, a non-empty value without quotes and a
    quote, the value behind the longest such gap is taken and the
    reading resumes after its closing quote; elsewhere one character is
    passed over.  The list of these values is unique. *)
Theorem extract_urls_from_html_spec (html : string) :
  (exists img video audio source embed iframe anchors,
      ScanSpec.found (ScanSpec.src_at "img") (Str.chars html) img
      /\ ScanSpec.found (ScanSpec.src_at "video") (Str.chars html) video
      /\ ScanSpec.found (ScanSpec.src_at "audio") (Str.chars html) audio
      /\ ScanSpec.found (ScanSpec.src_at "source") (Str.chars html) source
      /\ ScanSpec.found (ScanSpec.src_at "embed") (Str.chars html) embed
      /\ ScanSpec.found (ScanSpec.src_at "iframe") (Str.chars html) iframe
      /\ ScanSpec.found ScanSpec.href_at (Str.chars html) anchors
      /\ _extract_urls_from_html html
         = filter is_absolute
             (img ++ video ++ audio ++ source ++ embed ++ iframe ++ anchors))
  /\ (forall tag l l',
        ScanSpec.found (ScanSpec.src_at tag) (Str.chars html) l ->
        ScanSpec.found (ScanSpec.src_at tag) (Str.chars html) l' -> l = l')
  /\ (forall l l',
        ScanSpec.found ScanSpec.href_at (Str.chars html) l ->
        ScanSpec.found ScanSpec.href_at (Str.chars html) l' -> l = l')
  /\ (forall u, is_absolute u = true <->
                exists r, u = ("http://" ++ r)%string \/ u = ("https://" ++ r)%string).
Proof.
  split; [|split; [|split]].
  - exists (Re.findall (src_pattern "img") html),
           (Re.findall (src_pattern "video") html),
           (Re.findall (src_pattern "audio") html),
           (Re.findall (src_pattern "source") html),
           (Re.findall (src_pattern "embed") html),
           (Re.findall (src_pattern "iframe") html),
           (Re.findall href_pattern html).
    repeat (split; [apply ScanFacts.findall_src_found|]).
    split; [apply ScanFacts.findall_href_found|].
    rewrite ExtractFacts.extract_unfold. unfold patterns, src_tags.
    cbn [map app flat_map]. now rewrite app_nil_r.
  - intros tag l l'. apply ScanFacts.src_found_fun.
  - intros l l'. apply ScanFacts.href_found_fun.
  - apply ExtractFacts.is_absolute_spec.
Qed.

(** ** C4: lesson directory names *)

Lemma dropwhile_ext {A} (p p' : A -> bool) (l : list A) :
  (forall x, In x l -> p x = p' x) -> Str.dropwhile p l = Str.dropwhile p' l.
Proof.
  induction l as [|x l IH]; intros H; simpl; [reflexivity|].
  rewrite <- (H x) by (simpl; auto). destruct (p x); [|reflexivity].
  apply IH. intros y Hy. apply H. simpl. auto.
Qed.

(** Among the characters that survive the filter, the only white space
    is the space. *)
Lemma kept_space (c : ascii) :
  keeps c = true -> Str.isspace c = Ascii.eqb c " ".
Proof.
  destruct c as [[] [] [] [] [] [] [] []];
    (reflexivity || (intros H; discriminate H)).
Qed.

Lemma rstrip_kept (l : list ascii) :
  Forall (fun c => keeps c = true) l ->
  Str.rstrip (Str.of_chars l) = Spec.trim_trailing_spaces (Str.of_chars l).
Proof.
  intros H. unfold Str.rstrip, Spec.trim_trailing_spaces.
  rewrite chars_of_chars. f_equal. f_equal.
  apply dropwhile_ext. intros x Hx. apply kept_space.
  rewrite Forall_forall in H. apply H. now apply in_rev.
Qed.

Lemma first_event_mkdir env self fuel lesson out h :
  hd_error (fst (download_lesson_content env self fuel lesson out h))
  = Some (Mkdir (out // lesson_dir_name lesson)).
Proof.
  unfold download_lesson_content, mkdir. now rewrite bind_emit.
Qed.

(** C4.  For a lesson with title [t] and id [i] the directory name is
    [t] without the characters that are not alphanumeric, space, hyphen
    or underscore, with the trailing spaces trimmed, followed by an
    underscore and [i]; it is the directory the lesson function creates
    first; and the title [Intro: Part 1/2?] with id [42] gives
    [Intro Part 12_42]. *)
Theorem lesson_dir_name_spec (t i : string) :
  lesson_dir_name (mkLesson i (Some t)) = Spec.dir_name t i
  /\ (forall env self fuel out h,
        hd_error (fst (download_lesson_content env self fuel
                         (mkLesson i (Some t)) out h))
        = Some (Mkdir (out // Spec.dir_name t i)))
  /\ lesson_dir_name (mkLesson "42" (Some "Intro: Part 1/2?"))
     = "Intro Part 12_42"%string.
Proof.
  assert (E : lesson_dir_name (mkLesson i (Some t)) = Spec.dir_name t i).
  { unfold lesson_dir_name, Spec.dir_name, safe_title_of, lesson_title_of.
    simpl l_title. simpl l_id. f_equal.
    apply (rstrip_kept (filter keeps (Str.chars t))).
    apply Forall_forall. intros x Hx. apply filter_In in Hx. tauto. }
  split; [exact E|]. split; [|reflexivity].
  intros env self fuel out h. rewrite <- E. apply first_event_mkdir.
Qed.

(** ** C5: the file name of a download *)

Module StrFacts.



Lemma occurs_spec p : forall s,
  Str.occurs p s = true <-> exists a b, s = a ++ p ++ b.
Proof.
  induction s as [|c s IH].
  - simpl. rewrite orb_false_r, ExtractFacts.starts_with_spec. split.
    + intros (r & H). exists [], r. exact H.
    + intros (a & b & H). destruct a; [|discriminate]. exists b. exact H.
  - simpl. rewrite orb_true_iff, ExtractFacts.starts_with_spec, IH. split.
    + intros [(r & H)|(a & b & H)].
      * exists [], r. exact H.
      * exists (c :: a), b. simpl. now rewrite H.
    + intros (a & b & H). destruct a as [|x a].
      * left. exists b. exact H.
      * right. inversion H. eauto.
Qed.

(** [contains p s] holds when [p] is a substring of [s]. *)
Lemma contains_spec p s :
  Str.contains p s = true <-> exists a b, s = (a ++ p ++ b)%string.
Proof.
  unfold Str.contains. rewrite occurs_spec. split.
  - intros (a & b & H). exists (Str.of_chars a), (Str.of_chars b).
    apply chars_inj. now rewrite !chars_append, !chars_of_chars.
  - intros (a & b & ->). exists (Str.chars a), (Str.chars b).
    now rewrite !chars_append.
Qed.

End StrFacts.

Lemma download_file_writes env url dir prefix b h resp :
  web env (h ++ [Call_download_file url dir prefix b; HttpGet url]) url
  = Replied resp ->
  In (WriteFile (dir // determine_filename url prefix b (content_type resp))
                (chunks resp))
     (fst (_download_file env url dir prefix b h)).
Proof.
  intros E. unfold _download_file. rewrite !bind_emit, bind_ask.
  replace ((h ++ [Call_download_file url dir prefix b]) ++ [HttpGet url])
    with (h ++ [Call_download_file url dir prefix b; HttpGet url])
    by now rewrite <- app_assoc.
  rewrite E, bind_emit. simpl. auto.
Qed.



(** ** C2: pagination *)

Section Pagination.

Variable env : Env.
Variable self : SkilljarDownloader.

Lemma make_request_ok {A} (server : trace -> string -> option params -> reply A)
  method endpoint kwargs h data :
  server (h ++ [Request method (urljoin env (base_url self) endpoint) kwargs])
         (urljoin env (base_url self) endpoint) kwargs = Replied data ->
  _make_request env self server method endpoint kwargs h
  = ([Request method (urljoin env (base_url self) endpoint) kwargs], Ret data).
Proof.
  intros E. unfold _make_request, session_request.
  erewrite bind_ret_eq.
  2:{ rewrite bind_emit. unfold ask. simpl. reflexivity. }
  rewrite E. reflexivity.
Qed.

Lemma make_request_failed {A} (server : trace -> string -> option params -> reply A)
  method endpoint kwargs h cause :
  server (h ++ [Request method (urljoin env (base_url self) endpoint) kwargs])
         (urljoin env (base_url self) endpoint) kwargs = Failed cause ->
  _make_request env self server method endpoint kwargs h
  = ([Request method (urljoin env (base_url self) endpoint) kwargs;
      Stdout ("Error making request to " ++ urljoin env (base_url self) endpoint
             ++ ": " ++ cause)],
     Raise (RequestException cause)).
Proof.
  intros E. unfold _make_request, session_request.
  erewrite bind_ret_eq.
  2:{ rewrite bind_emit. unfold ask. simpl. reflexivity. }
  rewrite E. unfold print. rewrite bind_emit. reflexivity.
Qed.

Variable A : Type.
Variable server : trace -> string -> option params -> reply (page_data A).
Variable endpoint : string.
Variable params0 : option params.
Variable pages : nat -> page_data A.

Let req (i : nat) : event := page_request env self endpoint params0 i.

Lemma paginate_step fuel page acc h :
  server (h ++ [req page]) (urljoin env (base_url self) endpoint)
         (Some (dict_set "page" (PInt page)
                         (match params0 with Some p => p | None => [] end)))
  = Replied (pages page) ->
  paginate env self (S fuel) server endpoint params0 page acc h
  = if negb (page_has_next (pages page)) || is_nil (page_results (pages page))
    then ([req page], Ret (acc ++ page_results (pages page)))
    else (req page :: Sleep 100
            :: fst (paginate env self fuel server endpoint params0 (page + 1)
                      (acc ++ page_results (pages page))
                      (h ++ [req page; Sleep 100])),
          snd (paginate env self fuel server endpoint params0 (page + 1)
                 (acc ++ page_results (pages page))
                 (h ++ [req page; Sleep 100]))).
Proof.
  intros E. cbn [paginate].
  erewrite bind_ret_eq; [|apply make_request_ok; exact E].
  fold (req page).
  destruct (pages page) as [results next|items|item]; cbn [page_has_next page_results].
  - destruct (negb (is_some next) || is_nil results); [reflexivity|].
    unfold sleep. rewrite bind_emit. rewrite <- app_assoc. reflexivity.
  - reflexivity.
  - reflexivity.
Qed.

Lemma paginate_run (n : nat) : forall page acc fuel h,
  n < fuel ->
  (forall h' i, page <= i <= page + n ->
     server h' (urljoin env (base_url self) endpoint)
            (Some (dict_set "page" (PInt i)
                            (match params0 with Some p => p | None => [] end)))
     = Replied (pages i)) ->
  (forall i, page <= i < page + n ->
     page_has_next (pages i) = true /\ page_results (pages i) <> []) ->
  (page_has_next (pages (page + n)) = false
   \/ page_results (pages (page + n)) = []) ->
  paginate env self fuel server endpoint params0 page acc h
  = (flat_map (fun i => [req i; Sleep 100]) (seq page n) ++ [req (page + n)],
     Ret (acc ++ flat_map (fun i => page_results (pages i)) (seq page (S n)))).
Proof.
  induction n as [|n IH]; intros page acc fuel h Hf Hs Hmid Hlast.
  - destruct fuel as [|fuel]; [lia|].
    rewrite paginate_step by (apply Hs; lia).
    rewrite Nat.add_0_r in *.
    assert (C : negb (page_has_next (pages page)) || is_nil (page_results (pages page)) = true).
    { destruct Hlast as [-> | ->]; [reflexivity|apply orb_true_r]. }
    rewrite C. simpl. now rewrite app_nil_r.
  - destruct fuel as [|fuel]; [lia|].
    rewrite paginate_step by (apply Hs; lia).
    destruct (Hmid page ltac:(lia)) as (Hn & Hr).
    assert (C : negb (page_has_next (pages page)) || is_nil (page_results (pages page)) = false).
    { rewrite Hn. destruct (page_results (pages page)); [contradiction|reflexivity]. }
    rewrite C.
    rewrite (IH (page + 1) (acc ++ page_results (pages page)) fuel).
    + cbn [fst snd]. replace (page + 1) with (S page) by lia.
      replace (S page + n) with (page + S n) by lia.
      f_equal. cbn [seq flat_map]. now rewrite <- app_assoc.
    + lia.
    + intros h' i Hi. apply Hs. lia.
    + intros i Hi. apply Hmid. lia.
    + replace (page + 1 + n) with (page + S n) by lia. exact Hlast.
Qed.

Lemma requests_of_page_trace page n :
  filter is_request
    (flat_map (fun i => [req i; Sleep 100]) (seq page n) ++ [req (page + n)])
  = map req (seq page (S n)).
Proof.
  revert page. induction n as [|n IH]; intros page.
  - rewrite Nat.add_0_r. reflexivity.
  - cbn [seq flat_map]. rewrite <- app_assoc.
    replace (page + S n) with (S page + n) by lia.
    change (filter is_request ([req page; Sleep 100] ++ ?l))
      with (req page :: filter is_request l).
    rewrite IH. reflexivity.
Qed.

End Pagination.

(** C2.  Let the endpoint answer page [i] with [pages i], whatever
    happened before, where the pages before the [N]-th announce a next
    page and are not empty, and the [N]-th announces none or is empty.
    Then, given fuel for [N] rounds, the paginator returns; it sends the
    requests for the pages [1] to [N] in this order, sleeping between
    two of them, and no other request; and it returns the items of the
    pages [1] to [N] one after the other. *)
Theorem get_paginated_results_pages {A} (env : Env) (self : SkilljarDownloader)
  (server : trace -> string -> option params -> reply (page_data A))
  (endpoint : string) (params0 : option params)
  (pages : nat -> page_data A) (N fuel : nat) (h : trace) :
  1 <= N <= fuel ->
  (forall h' i, 1 <= i <= N ->
     server h' (urljoin env (base_url self) endpoint)
            (Some (dict_set "page" (PInt i)
                            (match params0 with Some p => p | None => [] end)))
     = Replied (pages i)) ->
  (forall i, 1 <= i < N ->
     page_has_next (pages i) = true /\ page_results (pages i) <> []) ->
  (page_has_next (pages N) = false \/ page_results (pages N) = []) ->
  let run := _get_paginated_results env self fuel server endpoint params0 h in
  snd run = Ret (flat_map (fun i => page_results (pages i)) (seq 1 N))
  /\ fst run
     = flat_map (fun i => [page_request env self endpoint params0 i; Sleep 100])
                (seq 1 (N - 1))
       ++ [page_request env self endpoint params0 N]
  /\ filter is_request (fst run)
     = map (page_request env self endpoint params0) (seq 1 N).
Proof.
  intros HN Hs Hmid Hlast run. subst run. unfold _get_paginated_results.
  destruct N as [|n]; [lia|].
  rewrite (paginate_run env self A server endpoint params0 pages n 1 [] fuel h).
  - cbn [fst snd]. replace (S n - 1) with n by lia.
    replace (1 + n) with (S n) by lia.
    split; [reflexivity|]. split; [reflexivity|].
    exact (requests_of_page_trace env self endpoint params0 1 n).
  - lia.
  - intros h' i Hi. apply Hs. lia.
  - intros i Hi. apply Hmid. lia.
  - exact Hlast.
Qed.

(** ** The two download loops of a lesson *)

Section Loops.

Variable env : Env.
Variable dir : path.

Lemma download_file_run url prefix b h :
  exists f rest,
    _download_file env url dir prefix b h
    = (Call_download_file url dir prefix b :: HttpGet url :: rest, Ret tt)
    /\ file_tail f rest
    /\ (b = false -> f = dir // prefix).
Proof.
  unfold _download_file. rewrite !bind_emit, bind_ask.
  destruct (web env _ url) as [cause|resp].
  - exists (dir // prefix), [Stdout ("    Error downloading " ++ url ++ ": " ++ cause)].
    split; [reflexivity|]. split; [left; eauto|auto].
  - rewrite bind_emit.
    exists (dir // determine_filename url prefix b (content_type resp)).
    destruct (broken resp) as [cause|]; eexists;
      (split; [reflexivity|]);
      (split; [right; do 2 eexists; reflexivity|]);
      intros ->; reflexivity.
Qed.

Lemma download_asset_failed u c h msg :
  url_basename env u = Failed msg ->
  download_asset env dir u c h
  = ([Stdout ("    Failed to download asset " ++ u ++ ": " ++ msg)], Ret c).
Proof.
  intros E. unfold download_asset. rewrite E.
  erewrite try_caught_eq; [|reflexivity|reflexivity].
  unfold print. rewrite bind_emit. reflexivity.
Qed.

Lemma download_asset_called u c h name :
  url_basename env u = Replied name ->
  exists rest,
    download_asset env dir u c h
    = (Call_download_file u dir (asset_prefix c name) false :: HttpGet u :: rest,
       Ret (c + 1))
    /\ file_tail (dir // asset_prefix c name) rest.
Proof.
  intros E. unfold download_asset. rewrite E.
  destruct (download_file_run u (asset_prefix c name) false h)
    as (f & rest & R & T & Hf).
  rewrite (Hf eq_refl) in T. exists rest. split; [|exact T].
  erewrite try_ret_eq; [reflexivity|].
  erewrite bind_ret_eq; [|exact R]. simpl. now rewrite app_nil_r.
Qed.

Lemma asset_urls_run urls : forall c h,
  exists t c',
    for_ urls (download_asset env dir) c h = (t, Ret c')
    /\ asset_trace env dir urls c t c'.
Proof.
  induction urls as [|u urls IH]; intros c h.
  - exists [], c. split; [reflexivity|constructor].
  - rewrite for_cons. destruct (url_basename env u) as [msg|name] eqn:E.
    + destruct (IH c (h ++ [Stdout ("    Failed to download asset " ++ u ++ ": " ++ msg)]))
        as (t & c' & R & T).
      exists (Stdout ("    Failed to download asset " ++ u ++ ": " ++ msg) :: t), c'.
      split; [|now constructor].
      erewrite bind_ret_eq; [|apply download_asset_failed; exact E].
      now rewrite R.
    + destruct (download_asset_called u c h name E) as (rest & R1 & T1).
      destruct (IH (c + 1)
                  (h ++ Call_download_file u dir (asset_prefix c name) false
                          :: HttpGet u :: rest))
        as (t & c' & R & T).
      exists (Call_download_file u dir (asset_prefix c name) false
                :: HttpGet u :: rest ++ t), c'.
      split.
      * erewrite bind_ret_eq; [|exact R1]. now rewrite R.
      * constructor; auto. now replace (S c) with (c + 1) by lia.
Qed.

Lemma asset_trace_app urls1 urls2 c t1 c1 t2 c2 :
  asset_trace env dir urls1 c t1 c1 ->
  asset_trace env dir urls2 c1 t2 c2 ->
  asset_trace env dir (urls1 ++ urls2) c (t1 ++ t2) c2.
Proof.
  intros H1 H2. induction H1; simpl.
  - exact H2.
  - constructor; auto.
  - rewrite <- app_assoc. constructor; auto.
Qed.

Lemma extract_empty : _extract_urls_from_html "" = [].
Proof. reflexivity. Qed.

Let asset_body : nat * ContentItem -> nat -> M nat :=
  fun '(i, content_item) asset_counter =>
    let html_content :=
      match ci_content_html content_item with
      | Some h => h
      | None => ""%string
      end in
    match html_content with
    | EmptyString => ret asset_counter
    | _ => for_ (_extract_urls_from_html html_content)
                (download_asset env dir) asset_counter
    end.

Lemma asset_body_eq i item c :
  asset_body (i, item) c
  = for_ (_extract_urls_from_html (html_of item)) (download_asset env dir) c.
Proof.
  unfold asset_body, html_of.
  destruct (match ci_content_html item with Some h => h | None => ""%string end);
    reflexivity.
Qed.

Lemma asset_items_run items : forall i c h,
  exists t c',
    for_ (enumerate_from i items) asset_body c h = (t, Ret c')
    /\ asset_trace env dir
         (flat_map (fun item => _extract_urls_from_html (html_of item)) items)
         c t c'.
Proof.
  induction items as [|item items IH]; intros i c h.
  - exists [], c. split; [reflexivity|constructor].
  - cbn [enumerate_from flat_map]. rewrite for_cons, asset_body_eq.
    destruct (asset_urls_run (_extract_urls_from_html (html_of item)) c h)
      as (t1 & c1 & R1 & T1).
    destruct (IH (S i) c1 (h ++ t1)) as (t2 & c2 & R2 & T2).
    exists (t1 ++ t2), c2. split; [|eapply asset_trace_app; eauto].
    erewrite bind_ret_eq; [|exact R1]. now rewrite R2.
Qed.

Lemma download_assets_run items h :
  exists t c',
    download_assets env dir items h = (t, Ret c')
    /\ asset_trace env dir
         (flat_map (fun item => _extract_urls_from_html (html_of item)) items)
         0 t c'.
Proof. apply (asset_items_run items 0 0 h). Qed.

Let direct_body : nat * ContentItem -> unit -> M unit :=
  fun '(i, content_item) _ =>
    if is_some (ci_url content_item) || is_some (ci_file_url content_item)
    then
      let file_url := py_or (ci_url content_item) (ci_file_url content_item) in
      match truthy file_url with
      | Some u => _download_file env u dir ("content_" ++ Str.of_nat i) true
      | None => ret tt
      end
    else ret tt.

Lemma direct_body_eq i item s :
  direct_body (i, item) s
  = match chosen_url item with
    | Some u => _download_file env u dir ("content_" ++ Str.of_nat i) true
    | None => ret tt
    end.
Proof.
  unfold direct_body, chosen_url, py_or.
  destruct (ci_url item) as [[|]|], (ci_file_url item) as [[|]|]; reflexivity.
Qed.

Lemma direct_items_run items : forall i h,
  exists t,
    for_ (enumerate_from i items) direct_body tt h = (t, Ret tt)
    /\ direct_trace dir i items t.
Proof.
  induction items as [|item items IH]; intros i h.
  - exists []. split; [reflexivity|constructor].
  - cbn [enumerate_from]. rewrite for_cons, direct_body_eq.
    destruct (chosen_url item) as [u|] eqn:E.
    + destruct (download_file_run u ("content_" ++ Str.of_nat i) true h)
        as (f & rest & R & T & _).
      destruct (IH (S i)
                  (h ++ Call_download_file u dir ("content_" ++ Str.of_nat i) true
                          :: HttpGet u :: rest)) as (t & R2 & T2).
      exists (Call_download_file u dir ("content_" ++ Str.of_nat i) true
                :: HttpGet u :: rest ++ t).
      split; [|eapply direct_called; [exact E|exact T|exact T2]].
      erewrite bind_ret_eq; [|exact R]. now rewrite R2.
    + destruct (IH (S i) h) as (t & R2 & T2).
      exists t. split; [|now constructor].
      rewrite bind_ret. exact R2.
Qed.

Lemma download_direct_run items h :
  exists t,
    download_direct env dir items h = (t, Ret tt) /\ direct_trace dir 0 items t.
Proof. apply (direct_items_run items 0 h). Qed.

End Loops.

(** ** File names carry their counter *)

Module NameFacts.

Lemma to_uint_not_nil n : Nat.to_uint n <> Decimal.Nil.
Proof.
  intros H. assert (E : n = 0).
  { rewrite <- (DecimalNat.Unsigned.of_to n), H. reflexivity. }
  subst n. discriminate H.
Qed.

Lemma of_nat_inj a b : Str.of_nat a = Str.of_nat b -> a = b.
Proof.
  unfold Str.of_nat. intros H.
  apply DecimalNat.Unsigned.to_uint_inj.
  assert (E : NilZero.uint_of_string (NilZero.string_of_uint (Nat.to_uint a))
              = NilZero.uint_of_string (NilZero.string_of_uint (Nat.to_uint b)))
    by now rewrite H.
  rewrite !NilZero.usu in E by apply to_uint_not_nil. now inversion E.
Qed.

Lemma uint_no_underscore d :
  ~ In "_"%char (Str.chars (NilEmpty.string_of_uint d)).
Proof.
  induction d; simpl; intros H; try contradiction;
    (destruct H as [H|H]; [discriminate H|auto]).
Qed.

Lemma of_nat_no_underscore n : ~ In "_"%char (Str.chars (Str.of_nat n)).
Proof.
  unfold Str.of_nat, NilZero.string_of_uint.
  destruct (Nat.to_uint n) eqn:E; try (rewrite <- E; apply uint_no_underscore);
    try apply uint_no_underscore.
  simpl. intros [H|[]]. discriminate H.
Qed.

Lemma cut_unique {A} (sep : A) : forall a b x y,
  ~ In sep a -> ~ In sep b -> a ++ sep :: x = b ++ sep :: y -> a = b.
Proof.
  induction a as [|c a IH]; intros b x y Ha Hb H.
  - destruct b as [|d b]; [reflexivity|].
    simpl in H. inversion H. subst d. exfalso. apply Hb. simpl. auto.
  - destruct b as [|d b].
    + simpl in H. inversion H. subst c. exfalso. apply Ha. simpl. auto.
    + simpl in H. inversion H. subst d. f_equal.
      apply (IH b x y); auto; intros Hin; [apply Ha|apply Hb]; simpl; auto.
Qed.

Lemma asset_prefix_chars k name :
  Str.chars (asset_prefix k name)
  = Str.chars "asset_" ++ Str.chars (Str.of_nat k)
    ++ match name with
       | EmptyString => []
       | _ => "_"%char :: Str.chars name
       end.
Proof.
  unfold asset_prefix. destruct name as [|c name].
  - rewrite chars_append, app_nil_r. reflexivity.
  - rewrite !chars_append. reflexivity.
Qed.

(** Two asset names are equal only when their counters are. *)
Lemma asset_prefix_inj k name k' name' :
  asset_prefix k name = asset_prefix k' name' -> k = k'.
Proof.
  intros H. apply (f_equal Str.chars) in H.
  rewrite !asset_prefix_chars in H. apply app_inv_head in H.
  apply of_nat_inj, chars_inj.
  pose proof (of_nat_no_underscore k) as Hk.
  pose proof (of_nat_no_underscore k') as Hk'.
  destruct name as [|c n], name' as [|c' n'].
  - now rewrite !app_nil_r in H.
  - rewrite app_nil_r in H. exfalso. apply Hk. rewrite H.
    apply in_or_app. right. simpl. auto.
  - rewrite app_nil_r in H. exfalso. apply Hk'. rewrite <- H.
    apply in_or_app. right. simpl. auto.
  - eapply cut_unique; eauto.
Qed.

Lemma content_prefix_inj i j :
  ("content_" ++ Str.of_nat i)%string = ("content_" ++ Str.of_nat j)%string -> i = j.
Proof. intros H. simpl in H. inversion H. now apply of_nat_inj. Qed.

Lemma joinpath_inj (p : path) (a b : string) : p // a = p // b -> a = b.
Proof.
  unfold joinpath. intros H. apply app_inv_head in H. now inversion H.
Qed.

End NameFacts.

(** ** Shape of the traces *)

Section Shapes.

Variable env : Env.
Variable self : SkilljarDownloader.

Lemma file_tail_no_call f rest :
  file_tail f rest ->
  forallb (fun ev => match ev with
                     | Call_download_file _ _ _ _ | HttpGet _ => false
                     | _ => true
                     end) rest = true.
Proof. intros [(l & ->)|(b & l & ->)]; reflexivity. Qed.

Lemma file_tail_prefixes f rest t :
  file_tail f rest -> asset_prefixes (rest ++ t) = asset_prefixes t.
Proof. intros [(l & ->)|(b & l & ->)]; reflexivity. Qed.

Lemma file_tail_files f rest t cur :
  file_tail f rest ->
  exists l, asset_files cur (rest ++ t) = l ++ asset_files cur t
            /\ (l = [] \/ (cur = true /\ l = [f])).
Proof.
  intros [(l & ->)|(b & l & ->)].
  - exists []. simpl. auto.
  - destruct cur.
    + exists [f]. simpl. auto.
    + exists []. simpl. auto.
Qed.

Lemma file_tail_kinds f rest :
  file_tail f rest ->
  Forall (fun ev => is_write_json ev = false /\ is_request ev = false) rest.
Proof. intros [(l & ->)|(b & l & ->)]; repeat constructor. Qed.

(** *** The markup loop *)

Lemma asset_trace_prefixes dir urls c t c' :
  asset_trace env dir urls c t c' ->
  exists names,
    asset_prefixes t
    = map (fun kn => asset_prefix (fst kn) (snd kn)) (enumerate_from c names)
    /\ c' = c + List.length names.
Proof.
  induction 1 as [c|u urls c msg t c' E T IH|u urls c name rest t c' E F T IH].
  - exists []. simpl. split; [reflexivity|lia].
  - destruct IH as (names & P & L). exists names. simpl. auto.
  - destruct IH as (names & P & L). exists (name :: names).
    cbn [asset_prefixes]. rewrite (file_tail_prefixes _ _ _ F), P.
    simpl. split; [reflexivity|lia].
Qed.

Lemma enumerate_from_counters {A} (l : list A) : forall c kn,
  In kn (enumerate_from c l) -> c <= fst kn.
Proof.
  induction l as [|x l IH]; intros c kn H; simpl in H; [contradiction|].
  destruct H as [<-|H]; [simpl; lia|]. apply IH in H. lia.
Qed.

Lemma asset_names_nodup (names : list string) : forall c,
  NoDup (map (fun kn => asset_prefix (fst kn) (snd kn)) (enumerate_from c names)).
Proof.
  induction names as [|n names IH]; intros c; simpl; constructor; [|apply IH].
  intros H. apply in_map_iff in H. destruct H as (kn & E & Hin).
  apply NameFacts.asset_prefix_inj in E.
  apply enumerate_from_counters in Hin. simpl in *. lia.
Qed.

Lemma asset_trace_files dir urls c t c' :
  asset_trace env dir urls c t c' ->
  forall cur,
    NoDup (asset_files cur t)
    /\ Forall (fun p => exists k n, c <= k /\ p = dir // asset_prefix k n
                                    /\ In (asset_prefix k n) (asset_prefixes t))
              (asset_files cur t).
Proof.
  induction 1 as [c|u urls c msg t c' E T IH|u urls c name rest t c' E F T IH];
    intros cur.
  - simpl. split; constructor.
  - simpl. apply IH.
  - cbn [asset_files asset_prefixes negb].
    rewrite (file_tail_prefixes _ _ _ F).
    destruct (file_tail_files _ rest t true F) as (l & El & Hl).
    rewrite El. destruct (IH true) as (N & Fa).
    assert (Fa' : Forall (fun p => exists k n, c <= k /\ p = dir // asset_prefix k n
                            /\ In (asset_prefix k n)
                                  (asset_prefix c name :: asset_prefixes t))
                         (asset_files true t)).
    { eapply Forall_impl; [|exact Fa].
      intros p (k & n & Hk & Ep & Hin). exists k, n. simpl. repeat split; auto. lia. }
    destruct Hl as [-> |(_ & ->)]; simpl.
    + split; assumption.
    + split.
      * constructor; [|exact N]. intros Hin.
        rewrite Forall_forall in Fa. destruct (Fa _ Hin) as (k & n & Hk & Ep & _).
        apply NameFacts.joinpath_inj, NameFacts.asset_prefix_inj in Ep. lia.
      * constructor; [|exact Fa'].
        exists c, name. simpl. auto.
Qed.

Lemma asset_trace_segments dir urls c t c' :
  asset_trace env dir urls c t c' ->
  exists segs, t = List.concat segs /\ Forall2 attempt urls segs.
Proof.
  induction 1 as [c|u urls c msg t c' E T IH|u urls c name rest t c' E F T IH].
  - exists []. split; [reflexivity|constructor].
  - destruct IH as (segs & -> & Fs).
    exists ([Stdout ("    Failed to download asset " ++ u ++ ": " ++ msg)] :: segs).
    split; [reflexivity|]. constructor; [|exact Fs]. right. eauto.
  - destruct IH as (segs & -> & Fs).
    exists ((Call_download_file u dir (asset_prefix c name) false
               :: HttpGet u :: rest) :: segs).
    split; [reflexivity|]. constructor; [|exact Fs].
    left. exists dir, (asset_prefix c name), rest. split; [reflexivity|].
    eapply file_tail_no_call; eauto.
Qed.

Lemma asset_trace_kinds dir urls c t c' :
  asset_trace env dir urls c t c' ->
  Forall (fun ev => is_write_json ev = false /\ is_request ev = false) t.
Proof.
  induction 1 as [c|u urls c msg t c' E T IH|u urls c name rest t c' E F T IH].
  - constructor.
  - constructor; auto.
  - constructor; auto. constructor; auto.
    apply Forall_app. split; [eapply file_tail_kinds; eauto|exact IH].
Qed.

Lemma asset_trace_nil dir c t c' : asset_trace env dir [] c t c' -> t = [].
Proof. now inversion 1. Qed.

(** *** The loop of the direct files *)

Lemma direct_trace_prefixes dir i items t t' :
  direct_trace dir i items t -> asset_prefixes (t ++ t') = asset_prefixes t'.
Proof.
  induction 1 as [i|i item items t E T IH|i item items u f rest t E F T IH].
  - reflexivity.
  - exact IH.
  - cbn [app asset_prefixes]. rewrite <- app_assoc.
    now rewrite (file_tail_prefixes _ _ _ F).
Qed.

Lemma direct_trace_files dir i items t t' :
  direct_trace dir i items t ->
  asset_files false (t ++ t') = asset_files false t'.
Proof.
  induction 1 as [i|i item items t E T IH|i item items u f rest t E F T IH].
  - reflexivity.
  - exact IH.
  - cbn [app asset_files negb]. rewrite <- app_assoc.
    destruct (file_tail_files _ rest (t ++ t') false F) as (l & El & Hl).
    rewrite El. destruct Hl as [-> |(Hc & _)]; [exact IH|discriminate Hc].
Qed.

Lemma direct_trace_kinds dir i items t :
  direct_trace dir i items t ->
  Forall (fun ev => is_write_json ev = false /\ is_request ev = false) t.
Proof.
  induction 1 as [i|i item items t E T IH|i item items u f rest t E F T IH].
  - constructor.
  - exact IH.
  - constructor; auto. constructor; auto.
    apply Forall_app. split; [eapply file_tail_kinds; eauto|exact IH].
Qed.

Lemma direct_trace_nil dir i t : direct_trace dir i [] t -> t = [].
Proof. now inversion 1. Qed.

Lemma file_tail_calls prefix f rest t :
  file_tail f rest ->
  filter (is_call_with_prefix prefix) (rest ++ t)
  = filter (is_call_with_prefix prefix) t.
Proof. intros [(l & ->)|(b & l & ->)]; reflexivity. Qed.

(** The calls under the name [content_j] in the trace of the first loop:
    one when the item of index [j] has a URL to download, none
    otherwise. *)
Lemma direct_trace_calls dir i items t :
  direct_trace dir i items t ->
  forall j,
    filter (is_call_with_prefix ("content_" ++ Str.of_nat j)) t
    = match (if Nat.leb i j then nth_error items (j - i) else None) with
      | Some item =>
          match chosen_url item with
          | Some u => [Call_download_file u dir ("content_" ++ Str.of_nat j) true]
          | None => []
          end
      | None => []
      end.
Proof.
  induction 1 as [i|i item items t E T IH|i item items u f rest t E F T IH];
    intros j.
  - destruct (Nat.leb i j); [destruct (j - i)|]; reflexivity.
  - rewrite IH.
    destruct (Nat.leb_spec i j) as [L|L], (Nat.leb_spec (S i) j) as [L'|L'];
      try lia.
    + replace (j - i) with (S (j - S i)) by lia. reflexivity.
    + replace (j - i) with 0 by lia. cbn [nth_error]. now rewrite E.
    + reflexivity.
  - cbn [filter is_call_with_prefix].
    rewrite (file_tail_calls _ _ _ _ F), IH.
    destruct (Nat.leb_spec i j) as [L|L], (Nat.leb_spec (S i) j) as [L'|L'];
      try lia.
    + assert (X : String.eqb ("content_" ++ Str.of_nat i) ("content_" ++ Str.of_nat j) = false).
      { apply String.eqb_neq. intros X. apply NameFacts.content_prefix_inj in X. lia. }
      rewrite X. replace (j - i) with (S (j - S i)) by lia. reflexivity.
    + assert (i = j) by lia. subst i.
      rewrite String.eqb_refl, Nat.sub_diag. cbn [nth_error]. now rewrite E.
    + assert (X : String.eqb ("content_" ++ Str.of_nat i) ("content_" ++ Str.of_nat j) = false).
      { apply String.eqb_neq. intros X. apply NameFacts.content_prefix_inj in X. lia. }
      now rewrite X.
Qed.

(** No call of the markup loop is made under a name [content_j]. *)
Lemma asset_trace_calls dir urls c t c' j :
  asset_trace env dir urls c t c' ->
  filter (is_call_with_prefix ("content_" ++ Str.of_nat j)) t = [].
Proof.
  induction 1 as [c|u urls c msg t c' E T IH|u urls c name rest t c' E F T IH].
  - reflexivity.
  - exact IH.
  - cbn [filter is_call_with_prefix].
    rewrite (file_tail_calls _ _ _ _ F), IH.
    assert (X : String.eqb (asset_prefix c name) ("content_" ++ Str.of_nat j) = false).
    { apply String.eqb_neq. unfold asset_prefix.
      destruct name; intros X; simpl in X; discriminate X. }
    now rewrite X.
Qed.

End Shapes.

(** ** One lesson *)

Section LessonRun.

Variable env : Env.
Variable self : SkilljarDownloader.

Lemma paginate_fetch_events {A} fuel
  (server : trace -> string -> option params -> reply (page_data A))
  endpoint params0 : forall page acc h,
  Forall (fun ev => is_fetch_event ev = true)
         (fst (paginate env self fuel server endpoint params0 page acc h)).
Proof.
  induction fuel as [|fuel IH]; intros page acc h.
  - constructor.
  - cbn [paginate].
    destruct (server (h ++ [page_request env self endpoint params0 page])
                     (urljoin env (base_url self) endpoint)
                     (Some (dict_set "page" (PInt page)
                              (match params0 with Some p => p | None => [] end))))
      as [cause|data] eqn:E.
    + erewrite bind_raise_eq; [|apply make_request_failed; exact E].
      repeat constructor.
    + erewrite bind_ret_eq; [|apply make_request_ok; exact E].
      cbn [fst]. constructor; [reflexivity|].
      destruct data as [results next|items|item]; try constructor.
      destruct (negb (is_some next) || is_nil results); [constructor|].
      unfold sleep. rewrite bind_emit. constructor; [reflexivity|apply IH].
Qed.

Lemma paginate_raises {A} fuel
  (server : trace -> string -> option params -> reply (page_data A))
  endpoint params0 : forall page acc h t e,
  paginate env self fuel server endpoint params0 page acc h = (t, Raise e) ->
  exists cause, e = RequestException cause.
Proof.
  induction fuel as [|fuel IH]; intros page acc h t e H.
  - discriminate H.
  - cbn [paginate] in H.
    destruct (server (h ++ [page_request env self endpoint params0 page])
                     (urljoin env (base_url self) endpoint)
                     (Some (dict_set "page" (PInt page)
                              (match params0 with Some p => p | None => [] end))))
      as [cause|data] eqn:E.
    + erewrite bind_raise_eq in H; [|apply make_request_failed; exact E].
      inversion H. eauto.
    + erewrite bind_ret_eq in H; [|apply make_request_ok; exact E].
      destruct data as [results next|items|item]; try discriminate H.
      destruct (negb (is_some next) || is_nil results); [discriminate H|].
      unfold sleep in H. rewrite bind_emit in H. cbn [fst snd] in H.
      inversion H as [[Ht He]]. eapply IH. apply injective_projections; simpl; eauto.
Qed.

Lemma get_lesson_content_failed fuel lesson_id h t cause :
  _get_paginated_results env self fuel (content_api env)
    ("/v1/lessons/" ++ lesson_id ++ "/content-items") None h
  = (t, Raise (RequestException cause)) ->
  get_lesson_content env self fuel lesson_id h
  = (t ++ [Stdout ("Warning: Could not fetch content items for lesson "
                  ++ lesson_id)], Ret []).
Proof.
  intros H. unfold get_lesson_content.
  erewrite try_caught_eq; [|exact H|reflexivity].
  unfold print. rewrite bind_emit. reflexivity.
Qed.

(** Fetching the content items never raises, and leaves only events of
    a fetch. *)
Lemma get_lesson_content_shape fuel lesson_id h :
  Forall (fun ev => is_fetch_event ev = true)
         (fst (get_lesson_content env self fuel lesson_id h))
  /\ (forall e, snd (get_lesson_content env self fuel lesson_id h) <> Raise e).
Proof.
  pose proof (paginate_fetch_events fuel (content_api env)
                ("/v1/lessons/" ++ lesson_id ++ "/content-items") None 1 [] h) as F.
  destruct (paginate env self fuel (content_api env)
              ("/v1/lessons/" ++ lesson_id ++ "/content-items") None 1 [] h)
    as [t [items|e|]] eqn:R.
  - unfold get_lesson_content, _get_paginated_results.
    erewrite try_ret_eq; [|exact R]. split; [exact F|discriminate].
  - destruct (paginate_raises _ _ _ _ _ _ _ _ _ R) as (cause & ->).
    rewrite (get_lesson_content_failed fuel lesson_id h t cause R).
    split; [|discriminate].
    apply Forall_app. split; [exact F|repeat constructor].
  - unfold get_lesson_content, _get_paginated_results.
    erewrite try_out_of_fuel_eq; [|exact R]. split; [exact F|discriminate].
Qed.

Variable fuel : nat.
Variable lesson : Lesson.
Variable output_dir : path.
Variable h : trace.

Let head : trace := lesson_head env self lesson output_dir.
Let dir : path := lesson_dir lesson output_dir.

Lemma lesson_details_failed cause :
  details_api env (h ++ head)
    (urljoin env (base_url self) ("/v1/lessons/" ++ l_id lesson)) None
  = Failed cause ->
  download_lesson_content env self fuel lesson output_dir h
  = (head ++ [Stdout ("Error making request to "
                     ++ urljoin env (base_url self) ("/v1/lessons/" ++ l_id lesson)
                     ++ ": " ++ cause)],
     Raise (RequestException cause)).
Proof.
  intros E. unfold download_lesson_content, mkdir, print.
  rewrite !bind_emit. unfold get_lesson_details.
  erewrite bind_raise_eq; [reflexivity|].
  apply make_request_failed. rewrite <- E. f_equal.
  unfold head, lesson_head, lesson_dir. now rewrite <- !app_assoc.
Qed.

(** The lesson function once the details have arrived: what follows is
    decided by the fetch of the content items. *)
Lemma lesson_after_details details :
  details_api env (h ++ head)
    (urljoin env (base_url self) ("/v1/lessons/" ++ l_id lesson)) None
  = Replied details ->
  let pre := head ++ [WriteJson (metadata_file lesson output_dir) (Details details)] in
  let fetch := get_lesson_content env self fuel (l_id lesson) (h ++ pre) in
  match snd fetch with
  | Ret items =>
      exists td ta c',
        download_lesson_content env self fuel lesson output_dir h
        = (pre ++ fst fetch
               ++ (if is_nil items then []
                   else [WriteJson (content_file lesson output_dir) (Items items)])
               ++ td ++ ta ++ [Sleep 200], Ret tt)
        /\ direct_trace dir 0 items td
        /\ asset_trace env dir (markup_urls items) 0 ta c'
  | Raise e =>
      download_lesson_content env self fuel lesson output_dir h
      = (pre ++ fst fetch, Raise e)
  | OutOfFuel =>
      download_lesson_content env self fuel lesson output_dir h
      = (pre ++ fst fetch, OutOfFuel)
  end.
Proof.
  intros E pre fetch.
  assert (Hh : ((h ++ [Mkdir (output_dir // lesson_dir_name lesson)])
                  ++ [Stdout ("  Downloading lesson: " ++ lesson_title_of lesson)])
               ++ [Request "GET" (urljoin env (base_url self)
                                    ("/v1/lessons/" ++ l_id lesson)) None]
               = h ++ head).
  { unfold head, lesson_head, lesson_dir. now rewrite <- !app_assoc. }
  assert (Hd : get_lesson_details env self (l_id lesson)
                 ((h ++ [Mkdir (output_dir // lesson_dir_name lesson)])
                    ++ [Stdout ("  Downloading lesson: " ++ lesson_title_of lesson)])
               = ([Request "GET" (urljoin env (base_url self)
                                    ("/v1/lessons/" ++ l_id lesson)) None],
                  Ret details)).
  { apply make_request_ok. rewrite Hh. exact E. }
  assert (Hp : (h ++ head)
               ++ [WriteJson (output_dir // lesson_dir_name lesson // "lesson_metadata.json")
                             (Details details)]
               = h ++ pre).
  { unfold pre, metadata_file, lesson_dir. now rewrite <- !app_assoc. }
  unfold download_lesson_content, mkdir, print, write_json.
  rewrite !bind_emit.
  erewrite bind_ret_eq; [|exact Hd].
  rewrite bind_emit, Hh, Hp. cbn [fst snd].
  subst fetch.
  destruct (get_lesson_content env self fuel (l_id lesson) (h ++ pre))
    as [tc [items|e|]] eqn:F; cbn [fst snd].
  - destruct (download_direct_run env dir items
                (((h ++ pre) ++ tc)
                   ++ (if is_nil items then []
                       else [WriteJson (content_file lesson output_dir) (Items items)])))
      as (td & Rd & Td).
    destruct (download_assets_run env dir items
                ((((h ++ pre) ++ tc)
                    ++ (if is_nil items then []
                        else [WriteJson (content_file lesson output_dir) (Items items)]))
                   ++ td))
      as (ta & c' & Ra & Ta).
    exists td, ta, c'. split; [|split; [exact Td|exact Ta]].
    erewrite bind_ret_eq; [|exact F].
    erewrite (bind_ret_eq _ _ _ (if is_nil items then []
                                 else [WriteJson (content_file lesson output_dir)
                                                 (Items items)]) tt);
      [|destruct items; reflexivity].
    erewrite bind_ret_eq; [|exact Rd].
    erewrite bind_ret_eq; [|exact Ra].
    cbn [fst snd sleep emit]. unfold pre, head, lesson_head, metadata_file, lesson_dir.
    cbn [app]. reflexivity.
  - erewrite bind_raise_eq; [|exact F].
    unfold pre, head, lesson_head, metadata_file, lesson_dir. reflexivity.
  - erewrite bind_out_of_fuel_eq; [|exact F].
    unfold pre, head, lesson_head, metadata_file, lesson_dir. reflexivity.
Qed.

End LessonRun.

(** ** Reading the trace of a lesson *)

Lemma asset_prefixes_app t t' :
  asset_prefixes (t ++ t') = asset_prefixes t ++ asset_prefixes t'.
Proof.
  induction t as [|ev t IH]; [reflexivity|].
  destruct ev as [| | | | |u d p [|]| |]; simpl; now rewrite IH.
Qed.

Lemma quiet_prefixes t :
  Forall (fun ev => is_download ev = false) t -> asset_prefixes t = [].
Proof.
  induction 1 as [|ev t H F IH]; [reflexivity|].
  destruct ev; try discriminate H; exact IH.
Qed.

Lemma quiet_files t t' cur :
  Forall (fun ev => is_download ev = false) t ->
  asset_files cur (t ++ t') = asset_files cur t'.
Proof.
  induction 1 as [|ev t H F IH]; [reflexivity|].
  destruct ev; try discriminate H; exact IH.
Qed.

Lemma quiet_calls prefix t :
  Forall (fun ev => is_download ev = false) t ->
  filter (is_call_with_prefix prefix) t = [].
Proof.
  induction 1 as [|ev t H F IH]; [reflexivity|].
  destruct ev; try discriminate H; exact IH.
Qed.

Lemma asset_files_sleep t ms : forall cur,
  asset_files cur (t ++ [Sleep ms]) = asset_files cur t.
Proof.
  induction t as [|ev t IH]; intros cur; [reflexivity|].
  destruct ev; simpl; try apply IH. destruct cur; now rewrite IH.
Qed.

Lemma fetch_is_quiet t :
  Forall (fun ev => is_fetch_event ev = true) t ->
  Forall (fun ev => is_download ev = false) t
  /\ Forall (fun ev => is_write_json ev = false) t.
Proof.
  intros F. split; (eapply Forall_impl; [|exact F]);
    intros ev H; destruct ev; try discriminate H; reflexivity.
Qed.

(** When a trace [a ++ b] is cut just before a download event and [a]
    holds none, the cut falls in [b]. *)
Lemma cut_after_quiet (a b t1 t2 : trace) ev :
  Forall (fun ev => is_download ev = false) a ->
  a ++ b = t1 ++ ev :: t2 -> is_download ev = true ->
  exists t1', t1 = a ++ t1' /\ b = t1' ++ ev :: t2.
Proof.
  intros F. revert t1. induction F as [|x a Hx F IH]; intros t1 E Hev.
  - exists t1. auto.
  - destruct t1 as [|y t1].
    + simpl in E. inversion E. subst x. congruence.
    + simpl in E. inversion E. subst y.
      destruct (IH t1 H1 Hev) as (t1' & -> & Eb). exists t1'. auto.
Qed.

Lemma no_download_in t ev :
  Forall (fun ev => is_download ev = false) t -> In ev t -> is_download ev = true ->
  False.
Proof.
  intros F Hin Hev. rewrite Forall_forall in F. specialize (F _ Hin). congruence.
Qed.

Section LessonTrace.

Variable env : Env.
Variable self : SkilljarDownloader.
Variable fuel : nat.
Variable lesson : Lesson.
Variable output_dir : path.
Variable h : trace.

Let head : trace := lesson_head env self lesson output_dir.

Lemma head_quiet : Forall (fun ev => is_download ev = false) head.
Proof. repeat constructor. Qed.

Lemma pre_quiet details :
  Forall (fun ev => is_download ev = false)
         (head ++ [WriteJson (metadata_file lesson output_dir) (Details details)]).
Proof. repeat constructor. Qed.

(** The trace of a lesson, whatever happens: a part without downloads,
    then, when the content items have arrived, the two loops and the
    final sleep. *)
Lemma lesson_trace_cases :
  (Forall (fun ev => is_download ev = false)
          (fst (download_lesson_content env self fuel lesson output_dir h))
   /\ snd (download_lesson_content env self fuel lesson output_dir h) <> Ret tt)
  \/ exists details items td ta c',
      details_api env (h ++ head)
        (urljoin env (base_url self) ("/v1/lessons/" ++ l_id lesson)) None
      = Replied details
      /\ (let pre := head ++ [WriteJson (metadata_file lesson output_dir)
                                        (Details details)] in
          let fetch := get_lesson_content env self fuel (l_id lesson) (h ++ pre) in
          snd fetch = Ret items
          /\ download_lesson_content env self fuel lesson output_dir h
             = (pre ++ fst fetch
                    ++ (if is_nil items then []
                        else [WriteJson (content_file lesson output_dir)
                                        (Items items)])
                    ++ td ++ ta ++ [Sleep 200], Ret tt)
          /\ direct_trace (lesson_dir lesson output_dir) 0 items td
          /\ asset_trace env (lesson_dir lesson output_dir) (markup_urls items)
                         0 ta c').
Proof.
  destruct (details_api env (h ++ head)
              (urljoin env (base_url self) ("/v1/lessons/" ++ l_id lesson)) None)
    as [cause|details] eqn:E.
  - left. rewrite (lesson_details_failed env self fuel lesson output_dir h cause E).
    cbn [fst snd]. split; [|discriminate].
    apply Forall_app. split; [apply head_quiet|repeat constructor].
  - pose proof (lesson_after_details env self fuel lesson output_dir h details E) as L.
    cbv zeta in L.
    pose proof (get_lesson_content_shape env self fuel (l_id lesson)
                  (h ++ lesson_head env self lesson output_dir
                     ++ [WriteJson (metadata_file lesson output_dir) (Details details)]))
      as (Fq & Nr).
    destruct (snd (get_lesson_content env self fuel (l_id lesson)
                (h ++ lesson_head env self lesson output_dir
                   ++ [WriteJson (metadata_file lesson output_dir) (Details details)])))
      as [items|e|] eqn:S.
    + right. destruct L as (td & ta & c' & R & Td & Ta).
      exists details, items, td, ta, c'. split; [reflexivity|].
      cbv zeta. repeat split; auto.
    + exfalso. now apply (Nr e).
    + left. rewrite L. cbn [fst snd]. split; [|discriminate].
      apply Forall_app. split; [apply pre_quiet|].
      exact (proj1 (fetch_is_quiet _ Fq)).
Qed.

End LessonTrace.

(** ** C6: a failed fetch of the content items *)

Lemma json_files_differ lesson output_dir :
  metadata_file lesson output_dir <> content_file lesson output_dir.
Proof.
  unfold metadata_file, content_file. intros H.
  apply NameFacts.joinpath_inj in H. discriminate H.
Qed.

Lemma not_written_in (f : path) (t : trace) :
  Forall (fun ev => is_write_json ev = false) t ->
  ~ exists d, In (WriteJson f d) t.
Proof.
  intros F (d & Hin). rewrite Forall_forall in F. specialize (F _ Hin).
  discriminate F.
Qed.

(** C6.  Once the details of a lesson have arrived and are written to
    [lesson_metadata.json]: when the fetch of the content items fails
    with a transport or HTTP error, the lesson function returns without
    raising, the trace after the fetch holds only the warning and the
    final sleep (no [content_items.json], no download), so the lesson
    went on with the empty list; no run raises from there on; and in
    every run where the fetch returns a list, [content_items.json] is
    written if and only if the list is not empty, after the metadata
    file. *)
Theorem content_fetch_failure (env : Env) (self : SkilljarDownloader)
  (fuel : nat) (lesson : Lesson) (output_dir : path) (h : trace)
  (details : json) :
  details_api env (h ++ lesson_head env self lesson output_dir)
    (urljoin env (base_url self) ("/v1/lessons/" ++ l_id lesson)) None
  = Replied details ->
  let pre := lesson_head env self lesson output_dir
             ++ [WriteJson (metadata_file lesson output_dir) (Details details)] in
  let run := download_lesson_content env self fuel lesson output_dir h in
  (forall t cause,
      _get_paginated_results env self fuel (content_api env)
        ("/v1/lessons/" ++ l_id lesson ++ "/content-items") None (h ++ pre)
      = (t, Raise (RequestException cause)) ->
      get_lesson_content env self fuel (l_id lesson) (h ++ pre)
      = (t ++ [Stdout ("Warning: Could not fetch content items for lesson "
                      ++ l_id lesson)], Ret [])
      /\ run = (pre ++ t
                    ++ [Stdout ("Warning: Could not fetch content items for lesson "
                               ++ l_id lesson);
                        Sleep 200],
                Ret tt))
  /\ (forall e, snd run <> Raise e)
  /\ (forall items,
        snd (get_lesson_content env self fuel (l_id lesson) (h ++ pre)) = Ret items ->
        (exists rest, fst run = pre ++ rest
                      /\ ((exists d, In (WriteJson (content_file lesson output_dir) d) rest)
                          <-> items <> []))
        /\ ((exists d, In (WriteJson (content_file lesson output_dir) d) (fst run))
            <-> items <> [])).
Proof.
  intros E pre run.
  pose proof (lesson_after_details env self fuel lesson output_dir h details E) as L.
  cbv zeta in L. fold pre in L. fold run in L.
  pose proof (get_lesson_content_shape env self fuel (l_id lesson) (h ++ pre))
    as (Fq & Nr).
  split; [|split].
  - intros t cause P.
    pose proof (get_lesson_content_failed env self fuel (l_id lesson) (h ++ pre)
                  t cause P) as G.
    split; [exact G|]. rewrite G in L. cbn [fst snd is_nil] in L.
    destruct L as (td & ta & c' & R & Td & Ta).
    apply direct_trace_nil in Td. apply asset_trace_nil in Ta. subst td ta.
    rewrite R. cbn [app]. now rewrite <- app_assoc.
  - intros e.
    destruct (snd (get_lesson_content env self fuel (l_id lesson) (h ++ pre)))
      as [items|e'|].
    + destruct L as (td & ta & c' & R & _). rewrite R. discriminate.
    + exfalso. now apply (Nr e').
    + rewrite L. discriminate.
  - intros items S. rewrite S in L.
    destruct L as (td & ta & c' & R & Td & Ta).
    assert (W : (exists d, In (WriteJson (content_file lesson output_dir) d)
                   (fst (get_lesson_content env self fuel (l_id lesson) (h ++ pre))
                    ++ (if is_nil items then []
                        else [WriteJson (content_file lesson output_dir) (Items items)])
                    ++ td ++ ta ++ [Sleep 200]))
                <-> items <> []).
    { split.
      - intros (d & Hin). intros ->. cbn [is_nil app] in Hin.
        apply direct_trace_nil in Td. apply asset_trace_nil in Ta. subst td ta.
        rewrite app_nil_l in Hin. apply in_app_or in Hin.
        destruct Hin as [Hin|[Hin|[]]]; [|discriminate Hin].
        apply (not_written_in (content_file lesson output_dir) _
                 (proj2 (fetch_is_quiet _ Fq))). eauto.
      - intros Hne. exists (Items items). apply in_or_app. right.
        destruct items; [contradiction|]. cbn [is_nil]. simpl. auto. }
    split.
    + exists (fst (get_lesson_content env self fuel (l_id lesson) (h ++ pre))
              ++ (if is_nil items then []
                  else [WriteJson (content_file lesson output_dir) (Items items)])
              ++ td ++ ta ++ [Sleep 200]).
      split; [now rewrite R|exact W].
    + rewrite R. cbn [fst]. rewrite <- W. split.
      * intros (d & Hin). exists d. apply in_app_or in Hin.
        destruct Hin as [Hin|Hin]; [|exact Hin]. exfalso.
        unfold pre, lesson_head in Hin. simpl in Hin.
        destruct Hin as [Hin|[Hin|[Hin|[Hin|[]]]]]; try discriminate Hin.
        inversion Hin as [[Hp Hd]].
        now apply (json_files_differ lesson output_dir).
      * intros (d & Hin). exists d. apply in_or_app. now right.
Qed.
(** ** C8: the JSON files come before the downloads *)

Lemma file_tail_no_url f rest ev :
  file_tail f rest -> In ev rest -> download_url ev = None.
Proof.
  intros [(line & ->)|(body & line & ->)] H; simpl in H.
  - destruct H as [<-|[]]. reflexivity.
  - destruct H as [<-|[<-|[]]]; reflexivity.
Qed.

Lemma direct_trace_urls dir i items t :
  direct_trace dir i items t ->
  forall ev u, In ev t -> download_url ev = Some u ->
  exists item, In item items /\ chosen_url item = Some u.
Proof.
  induction 1 as [i|i item items t Hc D IH|i item items u0 f rest t Hc Ft D IH];
    intros ev u Hin Hu.
  - destruct Hin.
  - destruct (IH ev u Hin Hu) as (item' & Hi & Hc'). exists item'. simpl. auto.
  - destruct Hin as [<-|[<-|Hin]].
    + simpl in Hu. inversion Hu; subst u0. exists item. simpl. auto.
    + simpl in Hu. inversion Hu; subst u0. exists item. simpl. auto.
    + apply in_app_or in Hin. destruct Hin as [Hin|Hin].
      * rewrite (file_tail_no_url _ _ _ Ft Hin) in Hu. discriminate.
      * destruct (IH ev u Hin Hu) as (item' & Hi & Hc'). exists item'. simpl. auto.
Qed.

Lemma asset_trace_urls env dir urls c t c' :
  asset_trace env dir urls c t c' ->
  forall ev u, In ev t -> download_url ev = Some u -> In u urls.
Proof.
  induction 1 as [c|u0 urls c msg t c' E A IH|u0 urls c name rest t c' E Ft A IH];
    intros ev u Hin Hu.
  - destruct Hin.
  - destruct Hin as [<-|Hin]; [discriminate Hu|]. right. eapply IH; eauto.
  - destruct Hin as [<-|[<-|Hin]].
    + simpl in Hu. inversion Hu. now left.
    + simpl in Hu. inversion Hu. now left.
    + apply in_app_or in Hin. destruct Hin as [Hin|Hin].
      * rewrite (file_tail_no_url _ _ _ Ft Hin) in Hu. discriminate.
      * right. eapply IH; eauto.
Qed.

(** C8.  In every run of the lesson function, whatever the remote ends
    answer and however far the run gets, a download event (a call of
    [_download_file], its GET, the file it writes) comes after the
    writing of [lesson_metadata.json] with the details that were fetched
    and after the writing of [content_items.json] with the list of
    content items that was fetched, which is not empty; and the URL of
    the download is one of the URLs of an item of that list, so the item
    is in the file written before. *)
Theorem json_before_downloads (env : Env) (self : SkilljarDownloader)
  (fuel : nat) (lesson : Lesson) (output_dir : path) (h : trace)
  (t1 t2 : trace) (ev : event) :
  fst (download_lesson_content env self fuel lesson output_dir h)
  = t1 ++ ev :: t2 ->
  is_download ev = true ->
  exists details items,
    details_api env (h ++ lesson_head env self lesson output_dir)
      (urljoin env (base_url self) ("/v1/lessons/" ++ l_id lesson)) None
    = Replied details
    /\ snd (get_lesson_content env self fuel (l_id lesson)
              (h ++ lesson_head env self lesson output_dir
                 ++ [WriteJson (metadata_file lesson output_dir) (Details details)]))
       = Ret items
    /\ items <> []
    /\ In (WriteJson (metadata_file lesson output_dir) (Details details)) t1
    /\ In (WriteJson (content_file lesson output_dir) (Items items)) t1
    /\ (forall u, download_url ev = Some u ->
          exists item, In item items /\ In u (item_urls item)).
Proof.
  intros E Hev.
  destruct (lesson_trace_cases env self fuel lesson output_dir h)
    as [(Q & _)|(details & items & td & ta & c' & Ed & S & R & Td & Ta)].
  - exfalso. apply (no_download_in _ ev Q); [|exact Hev].
    rewrite E. apply in_or_app. right. simpl. auto.
  - rewrite R in E. cbn [fst] in E.
    pose proof (get_lesson_content_shape env self fuel (l_id lesson)
                  (h ++ lesson_head env self lesson output_dir
                     ++ [WriteJson (metadata_file lesson output_dir) (Details details)]))
      as (Fq & _).
    apply fetch_is_quiet in Fq. destruct Fq as (Fq & _).
    destruct items as [|item items].
    + exfalso. apply direct_trace_nil in Td. apply asset_trace_nil in Ta.
      subst td ta. cbn [is_nil app] in E.
      assert (Q : Forall (fun ev => is_download ev = false)
                    ((lesson_head env self lesson output_dir
                        ++ [WriteJson (metadata_file lesson output_dir) (Details details)])
                       ++ fst (get_lesson_content env self fuel (l_id lesson)
                                 (h ++ lesson_head env self lesson output_dir
                                    ++ [WriteJson (metadata_file lesson output_dir)
                                                  (Details details)]))
                       ++ [Sleep 200])).
      { apply Forall_app. split; [apply pre_quiet|].
        apply Forall_app. split; [exact Fq|repeat constructor]. }
      apply (no_download_in _ ev Q); [|exact Hev].
      rewrite E. apply in_or_app. right. simpl. auto.
    + cbn [is_nil] in E.
      exists details, (item :: items).
      split; [exact Ed|]. split; [exact S|]. split; [discriminate|].
      set (pre := lesson_head env self lesson output_dir
                  ++ [WriteJson (metadata_file lesson output_dir) (Details details)]) in *.
      set (tc := fst (get_lesson_content env self fuel (l_id lesson) (h ++ pre))) in *.
      set (w := WriteJson (content_file lesson output_dir) (Items (item :: items))) in *.
      assert (Q : Forall (fun ev => is_download ev = false) (pre ++ tc ++ [w])).
      { apply Forall_app. split; [apply pre_quiet|].
        apply Forall_app. split; [exact Fq|repeat constructor]. }
      assert (E' : (pre ++ tc ++ [w]) ++ (td ++ ta ++ [Sleep 200]) = t1 ++ ev :: t2).
      { rewrite <- E. now rewrite <- !app_assoc. }
      destruct (cut_after_quiet _ _ _ _ _ Q E' Hev) as (t1' & -> & Eb).
      split; [|split].
      * apply in_or_app. left. apply in_or_app. left.
        unfold pre. apply in_or_app. right. simpl. auto.
      * apply in_or_app. left. apply in_or_app. right.
        apply in_or_app. right. simpl. auto.
      * intros u Hu.
        assert (Hin : In ev (td ++ ta ++ [Sleep 200])).
        { rewrite Eb. apply in_or_app. right. simpl. auto. }
        apply in_app_or in Hin. destruct Hin as [Hin|Hin].
        -- destruct (direct_trace_urls _ _ _ _ Td ev u Hin Hu) as (it & Hi & Hc).
           exists it. split; [exact Hi|]. unfold item_urls. rewrite Hc.
           simpl. auto.
        -- apply in_app_or in Hin. destruct Hin as [Hin|Hin].
           ++ pose proof (asset_trace_urls _ _ _ _ _ _ Ta ev u Hin Hu) as Hm.
              unfold markup_urls in Hm. apply in_flat_map in Hm.
              destruct Hm as (it & Hi & Hx). exists it. split; [exact Hi|].
              unfold item_urls. apply in_or_app. now right.
           ++ destruct Hin as [<-|[]]. discriminate Hu.
Qed.

(** ** C7: the counter of the asset names *)

(** C7.  In every run of the lesson function, the calls of
    [_download_file] made from the markup loop carry, in the order of
    the calls and across all content items, the names built from the
    counters [0], [1], [2], ...; these names are pairwise distinct, and
    so are the files written by these calls, each of which has the name
    of its call inside the directory of the lesson. *)
Theorem asset_counter_unique (env : Env) (self : SkilljarDownloader)
  (fuel : nat) (lesson : Lesson) (output_dir : path) (h : trace) :
  let t := fst (download_lesson_content env self fuel lesson output_dir h) in
  (exists names,
      asset_prefixes t
      = map (fun kn => asset_prefix (fst kn) (snd kn)) (enumerate names))
  /\ NoDup (asset_prefixes t)
  /\ NoDup (asset_files false t)
  /\ (forall p, In p (asset_files false t) ->
        exists k n, p = lesson_dir lesson output_dir // asset_prefix k n
                    /\ In (asset_prefix k n) (asset_prefixes t))
  /\ (forall k n k' n', asset_prefix k n = asset_prefix k' n' -> k = k').
Proof.
  intros t. subst t.
  assert (G : forall k n k' n', asset_prefix k n = asset_prefix k' n' -> k = k')
    by apply NameFacts.asset_prefix_inj.
  destruct (lesson_trace_cases env self fuel lesson output_dir h)
    as [(Q & _)|(details & items & td & ta & c' & Ed & S & R & Td & Ta)].
  - rewrite (quiet_prefixes _ Q).
    pose proof (quiet_files _ [] false Q) as F0. rewrite app_nil_r in F0.
    rewrite F0. simpl.
    split; [exists []; reflexivity|].
    split; [constructor|]. split; [constructor|]. split; [contradiction|exact G].
  - rewrite R. cbn [fst].
    pose proof (get_lesson_content_shape env self fuel (l_id lesson)
                  (h ++ lesson_head env self lesson output_dir
                     ++ [WriteJson (metadata_file lesson output_dir) (Details details)]))
      as (Fq & _).
    apply fetch_is_quiet in Fq. destruct Fq as (Fq & _).
    set (pre := lesson_head env self lesson output_dir
                ++ [WriteJson (metadata_file lesson output_dir) (Details details)]) in *.
    set (tc := fst (get_lesson_content env self fuel (l_id lesson) (h ++ pre))) in *.
    set (w := if is_nil items then []
              else [WriteJson (content_file lesson output_dir) (Items items)]) in *.
    assert (Qw : Forall (fun ev => is_download ev = false) w).
    { unfold w. destruct items; repeat constructor. }
    assert (P : asset_prefixes (pre ++ tc ++ w ++ td ++ ta ++ [Sleep 200])
                = asset_prefixes ta).
    { rewrite !asset_prefixes_app.
      rewrite (quiet_prefixes pre) by apply pre_quiet.
      rewrite (quiet_prefixes tc Fq), (quiet_prefixes w Qw). simpl.
      rewrite <- (app_nil_r td) at 1.
      rewrite (direct_trace_prefixes _ _ _ _ [] Td). simpl. apply app_nil_r. }
    assert (F : asset_files false (pre ++ tc ++ w ++ td ++ ta ++ [Sleep 200])
                = asset_files false ta).
    { rewrite (quiet_files pre) by apply pre_quiet.
      rewrite (quiet_files tc _ _ Fq), (quiet_files w _ _ Qw).
      rewrite (direct_trace_files _ _ _ _ _ Td). apply asset_files_sleep. }
    rewrite P, F.
    destruct (asset_trace_prefixes env _ _ _ _ _ Ta) as (names & En & _).
    destruct (asset_trace_files env _ _ _ _ _ Ta false) as (Nf & Ff).
    split; [exists names; exact En|].
    split; [rewrite En; apply asset_names_nodup|].
    split; [exact Nf|]. split; [|exact G].
    intros p Hp. rewrite Forall_forall in Ff.
    destruct (Ff p Hp) as (k & n & _ & -> & Hin). eauto.
Qed.

(** ** Repeated markup is reported once per occurrence *)

Module RepeatFacts.
Import Re.

Lemma scan_skip r (w : list ascii) : forall rest,
  scan r (w ++ rest) (List.length w) = scan r rest 0.
Proof. induction w as [|x w IH]; intros rest; [reflexivity|apply IH]. Qed.

(** After a match at the head of the input the scan resumes where the
    match ended. *)
Lemma scan_match r x (w rest : list ascii) cap :
  match_here r (x :: w ++ rest) = Some (cap, rest) ->
  scan r (x :: w ++ rest) 0 = group_text cap :: scan r rest 0.
Proof.
  intros H. cbn [scan]. rewrite H. f_equal.
  replace (List.length (x :: w ++ rest) - List.length rest - 1)
    with (List.length w)
    by (cbn [List.length]; rewrite length_app; lia).
  apply scan_skip.
Qed.

Lemma scan_no_match r x (s : list ascii) :
  match_here r (x :: s) = None -> scan r (x :: s) 0 = scan r s 0.
Proof. intros H. cbn [scan]. now rewrite H. Qed.

Lemma match_here_img_tag rest :
  match_here (src_pattern "img") (Str.chars Demo.img_tag ++ rest)
  = Some (Some (Str.chars "https://a/1.png"), ">"%char :: rest).
Proof.
  unfold match_here. lazy -[List.length firstn Nat.sub].
  exact (f_equal (fun g => Some (Some g, ">"%char :: rest))
           (ReFacts.firstn_consumed (Str.chars "https://a/1.png")
              ("'"%char :: ">"%char :: rest))).
Qed.

(** The image pattern reports the URL of the tag and goes on behind it. *)
Lemma scan_img_tag rest :
  scan (src_pattern "img") (Str.chars Demo.img_tag ++ rest) 0
  = "https://a/1.png"%string :: scan (src_pattern "img") rest 0.
Proof.
  pose proof (match_here_img_tag rest) as H.
  change (Str.chars Demo.img_tag ++ rest)
    with ("<"%char :: (Str.chars "img src='https://a/1.png'" ++ ">"%char :: rest))
    in H |- *.
  rewrite (scan_match _ _ _ _ _ H).
  rewrite scan_no_match by reflexivity. reflexivity.
Qed.

(** The other patterns find nothing in the tag. *)
Lemma scan_other_tag r rest :
  In r (map src_pattern ["video"; "audio"; "source"; "embed"; "iframe"]%string
        ++ [href_pattern]) ->
  scan r (Str.chars Demo.img_tag ++ rest) 0 = scan r rest 0.
Proof.
  intros H.
  let l := eval cbv in (Str.chars Demo.img_tag) in
  change (Str.chars Demo.img_tag) with l.
  cbn [app].
  repeat (destruct H as [<-|H];
          [repeat (rewrite scan_no_match by reflexivity); reflexivity|]).
  destruct H.
Qed.

Lemma findall_copies r n :
  findall r (Demo.copies Demo.img_tag n)
  = scan r (Str.chars (Demo.copies Demo.img_tag n)) 0.
Proof. reflexivity. Qed.

Lemma scan_img_copies n :
  scan (src_pattern "img") (Str.chars (Demo.copies Demo.img_tag n)) 0
  = repeat "https://a/1.png"%string n.
Proof.
  induction n as [|n IH]; [reflexivity|].
  cbn [Demo.copies repeat]. rewrite chars_append, scan_img_tag. now rewrite IH.
Qed.

Lemma scan_other_copies r n :
  In r (map src_pattern ["video"; "audio"; "source"; "embed"; "iframe"]%string
        ++ [href_pattern]) ->
  scan r (Str.chars (Demo.copies Demo.img_tag n)) 0 = [].
Proof.
  intros H. induction n as [|n IH].
  - repeat (destruct H as [<-|H]; [reflexivity|]). destruct H.
  - cbn [Demo.copies]. rewrite chars_append, scan_other_tag by exact H. exact IH.
Qed.

(** [n] copies of an image tag give its URL [n] times. *)
Lemma extract_copies n :
  _extract_urls_from_html (Demo.copies Demo.img_tag n)
  = repeat "https://a/1.png"%string n.
Proof.
  rewrite ExtractFacts.extract_unfold. unfold patterns, src_tags, findall.
  cbn [map app flat_map].
  rewrite scan_img_copies.
  rewrite !scan_other_copies by (simpl; tauto).
  rewrite !app_nil_r.
  induction n as [|n IH]; [reflexivity|]. cbn [repeat filter].
  change (is_absolute "https://a/1.png") with true. cbv iota. now rewrite IH.
Qed.

End RepeatFacts.

(** ** C9: the direct file of a content item *)

Lemma chosen_url_cases (item : ContentItem) :
  (forall u, ci_url item = Some u -> u <> EmptyString -> chosen_url item = Some u)
  /\ (forall f, (ci_url item = None \/ ci_url item = Some EmptyString) ->
                ci_file_url item = Some f -> f <> EmptyString ->
                chosen_url item = Some f)
  /\ ((ci_url item = None \/ ci_url item = Some EmptyString) ->
      (ci_file_url item = None \/ ci_file_url item = Some EmptyString) ->
      chosen_url item = None).
Proof.
  unfold chosen_url, py_or. split; [|split].
  - intros u -> Hu. destruct u; [contradiction|reflexivity].
  - intros f [-> | ->] -> Hf; (destruct f; [contradiction|reflexivity]).
  - intros [-> | ->] [-> | ->]; reflexivity.
Qed.

(** C9, amended.  In a run of the lesson function that has the details
    and the list of content items, the calls of [_download_file] under
    the name [content_i] are: for the item of index [i], one call, with
    extension inference, on the URL chosen for the item, when there is
    one, and none otherwise.  The URL chosen is the value of [url] when
    it is a non-empty string; otherwise the value of [file_url] when it
    is a non-empty string; otherwise there is none. *)
Theorem direct_download_once (env : Env) (self : SkilljarDownloader)
  (fuel : nat) (lesson : Lesson) (output_dir : path) (h : trace)
  (details : json) (items : list ContentItem) (i : nat) (item : ContentItem) :
  details_api env (h ++ lesson_head env self lesson output_dir)
    (urljoin env (base_url self) ("/v1/lessons/" ++ l_id lesson)) None
  = Replied details ->
  snd (get_lesson_content env self fuel (l_id lesson)
         (h ++ lesson_head env self lesson output_dir
            ++ [WriteJson (metadata_file lesson output_dir) (Details details)]))
  = Ret items ->
  nth_error items i = Some item ->
  filter (is_call_with_prefix ("content_" ++ Str.of_nat i))
         (fst (download_lesson_content env self fuel lesson output_dir h))
  = match chosen_url item with
    | Some u => [Call_download_file u (lesson_dir lesson output_dir)
                                    ("content_" ++ Str.of_nat i) true]
    | None => []
    end
  /\ (forall u, ci_url item = Some u -> u <> EmptyString ->
                chosen_url item = Some u)
  /\ (forall f, (ci_url item = None \/ ci_url item = Some EmptyString) ->
                ci_file_url item = Some f -> f <> EmptyString ->
                chosen_url item = Some f)
  /\ ((ci_url item = None \/ ci_url item = Some EmptyString) ->
      (ci_file_url item = None \/ ci_file_url item = Some EmptyString) ->
      chosen_url item = None).
Proof.
  intros E S Hi. split; [|apply chosen_url_cases].
  pose proof (lesson_after_details env self fuel lesson output_dir h details E) as L.
  cbv zeta in L. rewrite S in L. destruct L as (td & ta & c' & R & Td & Ta).
  rewrite R. cbn [fst].
  pose proof (get_lesson_content_shape env self fuel (l_id lesson)
                (h ++ lesson_head env self lesson output_dir
                   ++ [WriteJson (metadata_file lesson output_dir) (Details details)]))
    as (Fq & _).
  apply fetch_is_quiet in Fq. destruct Fq as (Fq & _).
  rewrite !filter_app.
  set (p := ("content_" ++ Str.of_nat i)%string) in *.
  rewrite (quiet_calls p _ (head_quiet env self lesson output_dir)).
  rewrite (quiet_calls p _ Fq).
  rewrite (quiet_calls p (if is_nil items then [] else _))
    by (destruct items; repeat constructor).
  subst p.
  rewrite (direct_trace_calls _ _ _ _ Td i).
  rewrite (asset_trace_calls env _ _ _ _ _ i Ta).
  cbn [Nat.leb filter is_call_with_prefix app]. rewrite Nat.sub_0_r, Hi.
  destruct (chosen_url item); reflexivity.
Qed.

(** ** C10: no deduplication *)

Lemma count_occ_filter (p : string -> bool) (l : list string) (u : string) :
  count_occ string_dec (filter p l) u
  = if p u then count_occ string_dec l u else 0.
Proof.
  induction l as [|x l IH]; simpl.
  - now destruct (p u).
  - destruct (p x) eqn:Px; simpl; destruct (string_dec x u) as [->|N].
    + rewrite Px in *. now rewrite IH.
    + exact IH.
    + rewrite Px in *. exact IH.
    + exact IH.
Qed.

Lemma count_occ_flat_map {A} (f : A -> list string) (l : list A) (u : string) :
  count_occ string_dec (flat_map f l) u
  = list_sum (map (fun x => count_occ string_dec (f x) u) l).
Proof.
  induction l as [|x l IH]; simpl; [reflexivity|].
  now rewrite count_occ_app, IH.
Qed.

(** C10.  The extractor reports an absolute URL as many times as the
    seven patterns match it; [n] copies of one image tag give its URL
    [n] times; and in a run of the lesson function that
    has the details and the list of content items, the trace ends with
    one turn of the markup loop for each URL reported for each content
    item, in that order, repeated URLs included, and the final sleep;
    each turn is a call of [_download_file] on that URL or, when no file
    name can be derived from the URL, the line that says so. *)
Theorem no_deduplication (env : Env) (self : SkilljarDownloader)
  (fuel : nat) (lesson : Lesson) (output_dir : path) (h : trace)
  (details : json) (items : list ContentItem) :
  details_api env (h ++ lesson_head env self lesson output_dir)
    (urljoin env (base_url self) ("/v1/lessons/" ++ l_id lesson)) None
  = Replied details ->
  snd (get_lesson_content env self fuel (l_id lesson)
         (h ++ lesson_head env self lesson output_dir
            ++ [WriteJson (metadata_file lesson output_dir) (Details details)]))
  = Ret items ->
  (forall html u,
      is_absolute u = true ->
      count_occ string_dec (_extract_urls_from_html html) u
      = list_sum (map (fun p => count_occ string_dec (Re.findall p html) u)
                      patterns))
  /\ (forall n,
        _extract_urls_from_html (Demo.copies Demo.img_tag n)
        = repeat "https://a/1.png"%string n)
  /\ (exists before segs,
         fst (download_lesson_content env self fuel lesson output_dir h)
         = before ++ List.concat segs ++ [Sleep 200]
         /\ asset_prefixes before = []
         /\ Forall2 attempt
              (flat_map (fun item => _extract_urls_from_html (html_of item)) items)
              segs).
Proof.
  intros E S. split; [|split].
  - intros html u Hu. rewrite ExtractFacts.extract_unfold, count_occ_filter, Hu.
    apply count_occ_flat_map.
  - apply RepeatFacts.extract_copies.
  - pose proof (lesson_after_details env self fuel lesson output_dir h details E) as L.
    cbv zeta in L. rewrite S in L. destruct L as (td & ta & c' & R & Td & Ta).
    pose proof (get_lesson_content_shape env self fuel (l_id lesson)
                  (h ++ lesson_head env self lesson output_dir
                     ++ [WriteJson (metadata_file lesson output_dir) (Details details)]))
      as (Fq & _).
    apply fetch_is_quiet in Fq. destruct Fq as (Fq & _).
    destruct (asset_trace_segments env _ _ _ _ _ Ta) as (segs & -> & Fs).
    set (pre := lesson_head env self lesson output_dir
                ++ [WriteJson (metadata_file lesson output_dir) (Details details)]) in *.
    set (tc := fst (get_lesson_content env self fuel (l_id lesson) (h ++ pre))) in *.
    set (w := if is_nil items then []
              else [WriteJson (content_file lesson output_dir) (Items items)]) in *.
    exists (pre ++ tc ++ w ++ td), segs. split; [|split; [|exact Fs]].
    + rewrite R. cbn [fst]. now rewrite <- !app_assoc.
    + rewrite !asset_prefixes_app.
      rewrite (quiet_prefixes pre) by apply pre_quiet.
      rewrite (quiet_prefixes tc Fq).
      rewrite (quiet_prefixes w) by (unfold w; destruct items; repeat constructor).
      simpl. rewrite <- (app_nil_r td).
      apply (direct_trace_prefixes _ _ _ _ [] Td).
Qed.

(** ** C3: a course whose lesson list cannot be fetched *)

Section Courses.

Variable env : Env.
Variable self : SkilljarDownloader.
Variable fuel : nat.
Variable output_path : path.

Lemma download_course_never_raises course_id h e :
  snd (download_course env self fuel output_path course_id h) <> Raise e.
Proof.
  unfold download_course, print. rewrite bind_emit. cbn [snd].
  unfold try_.
  match goal with
  | |- context [let (_, _) := ?m ?x in _] => destruct (m x) as [t [a|e'|]]
  end; cbn [snd]; discriminate.
Qed.


Lemma download_course_starts course_id h :
  exists t',
    fst (download_course env self fuel output_path course_id h)
    = Stdout (newline ++ "Processing course: " ++ course_id)
        :: Mkdir (output_path // ("course_" ++ course_id)) :: t'.
Proof.
  unfold download_course, print, mkdir. rewrite bind_emit. cbn [fst].
  rewrite try_trace, bind_emit. cbn [fst snd app]. eexists. reflexivity.
Qed.

(** In a course loop that comes to its end every course is started. *)
Lemma course_loop_starts course_ids : forall h t,
  for_ course_ids
       (fun course_id _ => download_course env self fuel output_path course_id)
       tt h = (t, Ret tt) ->
  forall c, In c course_ids ->
  exists t1 t2,
    t = t1 ++ Stdout (newline ++ "Processing course: " ++ c)
           :: Mkdir (output_path // ("course_" ++ c)) :: t2.
Proof.
  induction course_ids as [|c0 cs IH]; intros h t R c Hc; [destruct Hc|].
  rewrite for_cons in R.
  pose proof (download_course_never_raises c0 h) as N.
  destruct (download_course_starts c0 h) as (t' & St).
  destruct (download_course env self fuel output_path c0 h) as [tc [[]|e'|]] eqn:D.
  - erewrite bind_ret_eq in R; [|exact D].
    destruct (for_ cs _ tt (h ++ tc)) as [tr o] eqn:L. cbn [fst snd] in R.
    inversion R; subst t o. cbn [fst] in St.
    destruct Hc as [<-|Hc].
    + exists [], (t' ++ tr). rewrite St. reflexivity.
    + destruct (IH _ _ L c Hc) as (t1 & t2 & ->).
      exists (tc ++ t1), t2. now rewrite <- app_assoc.
  - exfalso. now apply (N e').
  - erewrite bind_out_of_fuel_eq in R; [|exact D]. discriminate R.
Qed.

(** A course whose lesson fetch ends on a transport or HTTP error. *)
Lemma course_fetch_failed course_id h t cause :
  let head := [Stdout (newline ++ "Processing course: " ++ course_id);
               Mkdir (output_path // ("course_" ++ course_id));
               Stdout ("Fetching lessons for course " ++ course_id ++ "...")] in
  let msg := ("Could not fetch lessons for course " ++ course_id ++ ": "
              ++ cause)%string in
  let report := Stdout ("  Error processing course " ++ course_id ++ ": " ++ msg) in
  _get_paginated_results env self fuel (lessons_api env) "/v1/lessons"
    (Some [("course_id", PStr course_id)]) (h ++ head)
  = (t, Raise (RequestException cause)) ->
  get_course_lessons env self fuel course_id
    (h ++ [Stdout (newline ++ "Processing course: " ++ course_id);
           Mkdir (output_path // ("course_" ++ course_id))])
  = (Stdout ("Fetching lessons for course " ++ course_id ++ "...") :: t,
     Raise (Exception msg))
  /\ download_course env self fuel output_path course_id h
     = (head ++ t ++ [report], Ret tt).
Proof.
  intros head msg report P.
  assert (G : get_course_lessons env self fuel course_id
                (h ++ [Stdout (newline ++ "Processing course: " ++ course_id);
                       Mkdir (output_path // ("course_" ++ course_id))])
              = (Stdout ("Fetching lessons for course " ++ course_id ++ "...") :: t,
                 Raise (Exception msg))).
  { unfold get_course_lessons, print. rewrite bind_emit.
    assert (Hh : (h ++ [Stdout (newline ++ "Processing course: " ++ course_id);
                        Mkdir (output_path // ("course_" ++ course_id))])
                 ++ [Stdout ("Fetching lessons for course " ++ course_id ++ "...")]
                 = h ++ head).
    { unfold head. now rewrite <- app_assoc. }
    rewrite Hh.
    erewrite try_caught_eq; [|exact P|reflexivity].
    cbn [fst snd raise]. now rewrite app_nil_r. }
  split; [exact G|].
  unfold download_course, print, mkdir. rewrite bind_emit.
  erewrite try_caught_eq;
    [|rewrite bind_emit; erewrite bind_raise_eq;
      [reflexivity|rewrite <- app_assoc; exact G]
     |reflexivity].
  cbn [fst snd emit app]. unfold head, report, msg. cbn [app]. reflexivity.
Qed.

End Courses.


(** C3.  When the fetch of the lesson list of a course ends on a
    transport or HTTP error, after the courses before it have been
    processed, [get_course_lessons] raises an error whose text is made
    of the course identifier and of the text of that failure; the body
    of the course loop catches it, prints it and returns normally; and
    [download_courses] goes on: its trace continues after the report
    with the next course, which is announced and gets its directory,
    and when the run comes to its end every course that follows has been
    started; when no course follows, the run ends normally there. *)
Theorem course_fetch_failure (env : Env) (self : SkilljarDownloader)
  (fuel : nat) (output_dir : string) (before after : list string)
  (course_id : string) (h t : trace) (cause : string) :
  let output_path := [output_dir] in
  let hb := fst (download_courses env self fuel before output_dir h) in
  let head := [Stdout (newline ++ "Processing course: " ++ course_id);
               Mkdir (output_path // ("course_" ++ course_id));
               Stdout ("Fetching lessons for course " ++ course_id ++ "...")] in
  let msg := ("Could not fetch lessons for course " ++ course_id ++ ": "
              ++ cause)%string in
  let report := Stdout ("  Error processing course " ++ course_id ++ ": " ++ msg) in
  let run := download_courses env self fuel (before ++ course_id :: after)
                              output_dir h in
  snd (download_courses env self fuel before output_dir h) = Ret tt ->
  _get_paginated_results env self fuel (lessons_api env) "/v1/lessons"
    (Some [("course_id", PStr course_id)]) ((h ++ hb) ++ head)
  = (t, Raise (RequestException cause)) ->
  get_course_lessons env self fuel course_id
    ((h ++ hb) ++ [Stdout (newline ++ "Processing course: " ++ course_id);
                   Mkdir (output_path // ("course_" ++ course_id))])
  = (Stdout ("Fetching lessons for course " ++ course_id ++ "...") :: t,
     Raise (Exception msg))
  /\ download_course env self fuel output_path course_id (h ++ hb)
     = (head ++ t ++ [report], Ret tt)
  /\ download_courses env self fuel (before ++ [course_id]) output_dir h
     = (hb ++ head ++ t ++ [report], Ret tt)
  /\ exists ta,
       fst run = hb ++ head ++ t ++ [report] ++ ta
       /\ (forall c rest, after = c :: rest ->
             exists t',
               ta = Stdout (newline ++ "Processing course: " ++ c)
                      :: Mkdir (output_path // ("course_" ++ c)) :: t')
       /\ (snd run = Ret tt ->
           forall c, In c after ->
           exists t1 t2,
             ta = t1 ++ Stdout (newline ++ "Processing course: " ++ c)
                     :: Mkdir (output_path // ("course_" ++ c)) :: t2).
Proof.
  intros output_path hb head msg report run H0 P.
  destruct (course_fetch_failed env self fuel output_path course_id (h ++ hb) t
              cause P) as (G & D).
  split; [exact G|]. split; [exact D|].
  assert (B : exists tb,
             for_ before
                  (fun c _ => download_course env self fuel output_path c) tt
                  (h ++ [Mkdir output_path]) = (tb, Ret tt)
             /\ hb = Mkdir output_path :: tb).
  { unfold hb. unfold download_courses, mkdir in H0 |- *.
    rewrite bind_emit in H0 |- *. cbn [fst snd] in H0 |- *.
    fold output_path in H0 |- *.
    destruct (for_ before _ tt (h ++ [Mkdir output_path])) as [tb o].
    cbn [fst snd] in H0 |- *. subst o. exists tb. auto. }
  destruct B as (tb & B & Ehb).
  assert (Hh : (h ++ [Mkdir output_path]) ++ tb = h ++ hb).
  { rewrite Ehb. now rewrite <- app_assoc. }
  assert (Loop : forall rest,
             download_courses env self fuel (before ++ course_id :: rest)
                              output_dir h
             = (hb ++ (head ++ t ++ [report])
                   ++ fst (for_ rest
                             (fun c _ => download_course env self fuel output_path c)
                             tt ((h ++ hb) ++ head ++ t ++ [report])),
                snd (for_ rest
                       (fun c _ => download_course env self fuel output_path c)
                       tt ((h ++ hb) ++ head ++ t ++ [report])))).
  { intros rest. unfold download_courses, mkdir. rewrite bind_emit.
    fold output_path. rewrite for_app.
    erewrite bind_ret_eq; [|exact B]. cbn [fst snd]. rewrite Hh.
    rewrite for_cons. erewrite bind_ret_eq; [|exact D]. cbn [fst snd].
    rewrite Ehb. reflexivity. }
  split.
  - rewrite (Loop []). cbn [for_ ret fst snd]. now rewrite app_nil_r.
  - unfold run. rewrite (Loop after). cbn [fst snd].
    set (Z := for_ after (fun c _ => download_course env self fuel output_path c)
                   tt ((h ++ hb) ++ head ++ t ++ [report])).
    exists (fst Z). split; [now rewrite <- !app_assoc|]. split.
    + intros c rest ->. unfold Z. rewrite for_cons, bind_trace.
      destruct (download_course_starts env self fuel output_path c
                  ((h ++ hb) ++ head ++ t ++ [report])) as (t' & ->).
      eexists. reflexivity.
    + intros S c Hc.
      apply (course_loop_starts env self fuel output_path after
               ((h ++ hb) ++ head ++ t ++ [report]) (fst Z)); [|exact Hc].
      rewrite <- S. apply pair_eta.
Qed.

(** ** The statements at work in the small world *)

Example extract_spec_example :
  _extract_urls_from_html Demo.html1 = ["https://a/1.png"; "https://a/doc.pdf"]%string.
Proof. reflexivity. Qed.

Example extract_relative_excluded :
  _extract_urls_from_html "<img src='/local.png'><img src='//cdn/x.png'>" = [].
Proof. reflexivity. Qed.

Example extract_keeps_repeats :
  _extract_urls_from_html Demo.html2
  = ["https://a/1.png"; "https://a/1.png"; "http://[x"]%string.
Proof. reflexivity. Qed.

Example extract_pattern_order :
  _extract_urls_from_html
    "<a href='https://a/d.PDF'><iframe src='http://f/'><img src='https://a/i.png'>"
  = ["https://a/i.png"; "http://f/"; "https://a/d.PDF"]%string.
Proof. reflexivity. Qed.

(** C9, the claim as worded fails: the first content item of the small
    world has both keys, [url] with the empty string and [file_url] with
    a URL; the value downloaded under [content_0] is the one of
    [file_url], not the one of [url]. *)
Lemma direct_url_counterexample :
  ci_url Demo.item_a = Some ""%string
  /\ ci_file_url Demo.item_a = Some "https://cdn.example/file.pdf"%string
  /\ Spec.direct_url Demo.item_a = Some ""%string
  /\ filter (is_call_with_prefix "content_0") (fst Demo.run42)
     = [Call_download_file "https://cdn.example/file.pdf"
          (lesson_dir Demo.lesson42 Demo.course_dir) "content_0" true]
  /\ Some "https://cdn.example/file.pdf"%string <> Spec.direct_url Demo.item_a.
Proof. repeat split. discriminate. Qed.

Lemma get_paginated_results_pages_witness :
  let run := _get_paginated_results Demo.env Demo.self 3 (lessons_api Demo.env)
               "/v1/lessons" (Some [("course_id", PStr "c1")]) [] in
  snd run = Ret [Demo.lesson42; Demo.lesson43]
  /\ filter is_request (fst run)
     = [Request "GET" "https://api.skilljar.com/v1/lessons"
          (Some [("course_id", PStr "c1"); ("page", PInt 1)]);
        Request "GET" "https://api.skilljar.com/v1/lessons"
          (Some [("course_id", PStr "c1"); ("page", PInt 2)])].
Proof.
  destruct (get_paginated_results_pages Demo.env Demo.self
              (lessons_api Demo.env) "/v1/lessons"
              (Some [("course_id", PStr "c1")]) Demo.lesson_pages 2 3 [])
    as (R & _ & Q).
  - lia.
  - intros h' i Hi. reflexivity.
  - intros i Hi. assert (i = 1) as -> by lia. split; [reflexivity|discriminate].
  - left. reflexivity.
  - split; [exact R|exact Q].
Defined.

Lemma course_fetch_failure_witness :
  download_courses Demo.env Demo.self 3 ["c1"; "c0"] "downloads" []
  = (fst (download_courses Demo.env Demo.self 3 ["c1"] "downloads" [])
       ++ [Stdout (newline ++ "Processing course: c0");
           Mkdir ["downloads"; "course_c0"];
           Stdout "Fetching lessons for course c0...";
           Request "GET" "https://api.skilljar.com/v1/lessons"
             (Some [("course_id", PStr "c0"); ("page", PInt 1)]);
           Stdout "Error making request to https://api.skilljar.com/v1/lessons: 503 Server Error";
           Stdout "  Error processing course c0: Could not fetch lessons for course c0: 503 Server Error"],
     Ret tt).
Proof.
  apply (course_fetch_failure Demo.env Demo.self 3 "downloads" ["c1"] ["c1"] "c0" []
           [Request "GET" "https://api.skilljar.com/v1/lessons"
              (Some [("course_id", PStr "c0"); ("page", PInt 1)]);
            Stdout "Error making request to https://api.skilljar.com/v1/lessons: 503 Server Error"]
           "503 Server Error").
  - vm_compute. reflexivity.
  - vm_compute. reflexivity.
Defined.

Lemma content_fetch_failure_witness :
  Demo.run43
  = ([Mkdir ["downloads"; "course_c1"; "Lesson_43_43"];
      Stdout "  Downloading lesson: Lesson_43";
      Request "GET" "https://api.skilljar.com/v1/lessons/43" None;
      WriteJson ["downloads"; "course_c1"; "Lesson_43_43"; "lesson_metadata.json"]
        (Details (JObj [("status", JStr "published")]));
      Request "GET" "https://api.skilljar.com/v1/lessons/43/content-items"
        (Some [("page", PInt 1)]);
      Stdout "Error making request to https://api.skilljar.com/v1/lessons/43/content-items: 500 Server Error";
      Stdout "Warning: Could not fetch content items for lesson 43";
      Sleep 200],
     Ret tt).
Proof.
  exact (proj2 (proj1
    (content_fetch_failure Demo.env Demo.self 3 Demo.lesson43 Demo.course_dir []
       (JObj [("status", JStr "published")]) eq_refl)
    [Request "GET" "https://api.skilljar.com/v1/lessons/43/content-items"
       (Some [("page", PInt 1)]);
     Stdout "Error making request to https://api.skilljar.com/v1/lessons/43/content-items: 500 Server Error"]
    "500 Server Error" eq_refl)).
Defined.

Lemma json_before_downloads_witness :
  exists details items,
    details_api Demo.env
      ([] ++ lesson_head Demo.env Demo.self Demo.lesson42 Demo.course_dir)
      (urljoin Demo.env (base_url Demo.self) ("/v1/lessons/" ++ l_id Demo.lesson42))
      None
    = Replied details
    /\ snd (get_lesson_content Demo.env Demo.self 3 (l_id Demo.lesson42)
              ([] ++ lesson_head Demo.env Demo.self Demo.lesson42 Demo.course_dir
                  ++ [WriteJson (metadata_file Demo.lesson42 Demo.course_dir)
                                (Details details)]))
       = Ret items
    /\ items <> []
    /\ In (WriteJson (metadata_file Demo.lesson42 Demo.course_dir) (Details details))
          (firstn 6 (fst Demo.run42))
    /\ In (WriteJson (content_file Demo.lesson42 Demo.course_dir) (Items items))
          (firstn 6 (fst Demo.run42))
    /\ (forall u,
          download_url
            (Call_download_file "https://cdn.example/file.pdf"
               (lesson_dir Demo.lesson42 Demo.course_dir) "content_0" true)
          = Some u ->
          exists item, In item items /\ In u (item_urls item)).
Proof.
  apply (json_before_downloads Demo.env Demo.self 3 Demo.lesson42 Demo.course_dir []
           (firstn 6 (fst Demo.run42))
           (skipn 7 (fst Demo.run42))
           (Call_download_file "https://cdn.example/file.pdf"
              (lesson_dir Demo.lesson42 Demo.course_dir) "content_0" true)).
  - reflexivity.
  - reflexivity.
Defined.

Lemma direct_download_once_witness :
  filter (is_call_with_prefix "content_1") (fst Demo.run42)
  = [Call_download_file "https://cdn.example/clip.mp4"
       (lesson_dir Demo.lesson42 Demo.course_dir) "content_1" true].
Proof.
  exact (proj1
    (direct_download_once Demo.env Demo.self 3 Demo.lesson42 Demo.course_dir []
       (JObj [("status", JStr "published")]) [Demo.item_a; Demo.item_b] 1
       Demo.item_b eq_refl eq_refl eq_refl)).
Defined.

Lemma no_deduplication_witness :
  exists before segs,
    fst Demo.run42 = before ++ List.concat segs ++ [Sleep 200]
    /\ asset_prefixes before = []
    /\ Forall2 attempt
         ["https://a/1.png"; "https://a/doc.pdf"; "https://a/1.png";
          "https://a/1.png"; "http://[x"]%string
         segs.
Proof.
  exact (proj2 (proj2
    (no_deduplication Demo.env Demo.self 3 Demo.lesson42 Demo.course_dir []
       (JObj [("status", JStr "published")]) [Demo.item_a; Demo.item_b]
       eq_refl eq_refl))).
Defined.

(** * Further properties of the code *)

(** ** The paginator under any endpoint *)

Section PaginatorShape.

Variable env : Env.
Variable self : SkilljarDownloader.
Variable A : Type.
Variable server : trace -> string -> option params -> reply (page_data A).
Variable endpoint : string.
Variable params0 : option params.

Let req (i : nat) : event := page_request env self endpoint params0 i.
Let rounds (page n : nat) : trace := page_rounds env self endpoint params0 page n.

Lemma page_rounds_succ page n :
  rounds page (S n) = req page :: Sleep 100 :: rounds (S page) n.
Proof. reflexivity. Qed.

Lemma paginate_shape fuel : forall page acc h,
  exists k,
    k <= fuel
    /\ match snd (paginate env self fuel server endpoint params0 page acc h) with
       | Ret _ =>
           1 <= k
           /\ fst (paginate env self fuel server endpoint params0 page acc h)
              = rounds page (k - 1) ++ [req (page + (k - 1))]
       | Raise e =>
           1 <= k
           /\ exists cause,
                e = RequestException cause
                /\ fst (paginate env self fuel server endpoint params0 page acc h)
                   = rounds page (k - 1)
                     ++ [req (page + (k - 1));
                         Stdout ("Error making request to "
                                 ++ urljoin env (base_url self) endpoint
                                 ++ ": " ++ cause)]
       | OutOfFuel =>
           k = fuel
           /\ fst (paginate env self fuel server endpoint params0 page acc h)
              = rounds page fuel
       end.
Proof.
  induction fuel as [|fuel IH]; intros page acc h.
  - exists 0. simpl. auto.
  - cbn [paginate].
    destruct (server (h ++ [req page]) (urljoin env (base_url self) endpoint)
                     (Some (dict_set "page" (PInt page)
                              (match params0 with Some p => p | None => [] end))))
      as [cause|data] eqn:E.
    + erewrite bind_raise_eq; [|apply make_request_failed; exact E].
      exists 1. cbn [fst snd]. split; [lia|]. split; [lia|].
      exists cause. split; [reflexivity|]. simpl. now rewrite Nat.add_0_r.
    + erewrite bind_ret_eq; [|apply make_request_ok; exact E].
      destruct data as [results next|items|item].
      * destruct (negb (is_some next) || is_nil results).
        -- exists 1; cbn [fst snd ret]; split; [lia|]; split; [lia|];
           cbn [Nat.sub rounds page_rounds seq flat_map app];
           now rewrite Nat.add_0_r.
        -- unfold sleep. rewrite bind_emit. cbn [fst snd].
           destruct (IH (page + 1) (acc ++ results)
                        ((h ++ [page_request env self endpoint params0 page])
                           ++ [Sleep 100])) as (k & Hk & Hm).
           fold (page_request env self endpoint params0 page).
           remember (paginate env self fuel server endpoint params0 (page + 1)
                       (acc ++ results)
                       ((h ++ [page_request env self endpoint params0 page])
                          ++ [Sleep 100])) as r eqn:Er.
           clear Er. destruct r as [t [a|e|]]; cbn [fst snd] in *.
           ++ destruct Hm as (H1 & Ht). exists (S k). split; [lia|].
              split; [lia|]. rewrite Ht.
              replace (S k - 1) with (S (k - 1)) by lia.
              rewrite page_rounds_succ. replace (page + 1) with (S page) by lia.
              replace (page + S (k - 1)) with (S page + (k - 1)) by lia.
              reflexivity.
           ++ destruct Hm as (H1 & cause & -> & Ht). exists (S k). split; [lia|].
              split; [lia|]. exists cause. split; [reflexivity|]. rewrite Ht.
              replace (S k - 1) with (S (k - 1)) by lia.
              rewrite page_rounds_succ. replace (page + 1) with (S page) by lia.
              replace (page + S (k - 1)) with (S page + (k - 1)) by lia.
              reflexivity.
           ++ destruct Hm as (-> & Ht). exists (S fuel). split; [lia|].
              split; [reflexivity|]. rewrite Ht. rewrite page_rounds_succ.
              now replace (page + 1) with (S page) by lia.
      * exists 1; cbn [fst snd ret]; split; [lia|]; split; [lia|];
           cbn [Nat.sub rounds page_rounds seq flat_map app];
           now rewrite Nat.add_0_r.
      * exists 1; cbn [fst snd ret]; split; [lia|]; split; [lia|];
           cbn [Nat.sub rounds page_rounds seq flat_map app];
           now rewrite Nat.add_0_r.
Qed.

Lemma requests_of_rounds page n :
  filter is_request (rounds page n) = map req (seq page n).
Proof.
  revert page. induction n as [|n IH]; intros page; [reflexivity|].
  rewrite page_rounds_succ. cbn [filter is_request seq map].
  fold (req page). cbn [is_request req page_request]. now rewrite IH.
Qed.

End PaginatorShape.

Section PaginatorRuns.

Variable env : Env.
Variable self : SkilljarDownloader.
Variable A : Type.
Variable server : trace -> string -> option params -> reply (page_data A).
Variable endpoint : string.
Variable params0 : option params.
Variable pages : nat -> page_data A.

Let req (i : nat) : event := page_request env self endpoint params0 i.
Let rounds (page n : nat) : trace := page_rounds env self endpoint params0 page n.
Let kwargs (i : nat) : option params :=
  Some (dict_set "page" (PInt i) (match params0 with Some p => p | None => [] end)).

Lemma paginate_endless fuel : forall page acc h,
  (forall h' i, page <= i ->
     server h' (urljoin env (base_url self) endpoint) (kwargs i)
     = Replied (pages i)) ->
  (forall i, page <= i ->
     page_has_next (pages i) = true /\ page_results (pages i) <> []) ->
  paginate env self fuel server endpoint params0 page acc h
  = (rounds page fuel, OutOfFuel).
Proof.
  induction fuel as [|fuel IH]; intros page acc h Hs Hp; [reflexivity|].
  rewrite (paginate_step env self A server endpoint params0 pages)
    by (apply Hs; lia).
  destruct (Hp page (le_n _)) as (Hn & Hr).
  rewrite Hn. destruct (page_results (pages page)) eqn:Er; [contradiction|].
  cbn [negb orb is_nil].
  rewrite IH.
  - cbn [fst snd]. unfold rounds. rewrite page_rounds_succ.
    now replace (page + 1) with (S page) by lia.
  - intros h' i Hi. apply Hs. lia.
  - intros i Hi. apply Hp. lia.
Qed.

Lemma paginate_fails (n : nat) : forall page acc fuel h cause,
  n < fuel ->
  (forall h' i, page <= i < page + n ->
     server h' (urljoin env (base_url self) endpoint) (kwargs i)
     = Replied (pages i)) ->
  (forall i, page <= i < page + n ->
     page_has_next (pages i) = true /\ page_results (pages i) <> []) ->
  (forall h', server h' (urljoin env (base_url self) endpoint) (kwargs (page + n))
              = Failed cause) ->
  paginate env self fuel server endpoint params0 page acc h
  = (rounds page n
       ++ [req (page + n);
           Stdout ("Error making request to "
                   ++ urljoin env (base_url self) endpoint ++ ": " ++ cause)],
     Raise (RequestException cause)).
Proof.
  induction n as [|n IH]; intros page acc fuel h cause Hf Hs Hp Hl.
  - destruct fuel as [|fuel]; [lia|]. cbn [paginate].
    rewrite Nat.add_0_r in *.
    erewrite bind_raise_eq; [reflexivity|].
    apply make_request_failed. apply Hl.
  - destruct fuel as [|fuel]; [lia|].
    rewrite (paginate_step env self A server endpoint params0 pages)
      by (apply Hs; lia).
    destruct (Hp page ltac:(lia)) as (Hn & Hr).
    rewrite Hn. destruct (page_results (pages page)) eqn:Er; [contradiction|].
    cbn [negb orb is_nil].
    rewrite (IH (page + 1) _ fuel _ cause).
    + cbn [fst snd]. unfold rounds. rewrite page_rounds_succ.
      replace (page + 1) with (S page) by lia.
      replace (S page + n) with (page + S n) by lia. reflexivity.
    + lia.
    + intros h' i Hi. apply Hs. lia.
    + intros i Hi. apply Hp. lia.
    + intros h'. replace (page + 1 + n) with (page + S n) by lia. apply Hl.
Qed.

End PaginatorRuns.

(** X1.  For an endpoint that answers every request with a failure of
    the request or with a body of one of the three shapes, whatever
    these answers are and whatever the fuel, a run of the paginator asks
    for the pages [1], [2], ..., [k], each once and in this order, and
    sleeps between two requests; it ends on a response (then [k] is at
    least one), on the first failure, which it prints and raises as a
    transport error, or it is cut off after [fuel] requests. *)
Theorem paginator_requests {A} (env : Env) (self : SkilljarDownloader)
  (server : trace -> string -> option params -> reply (page_data A))
  (endpoint : string) (params0 : option params) (fuel : nat) (h : trace) :
  let run := _get_paginated_results env self fuel server endpoint params0 h in
  exists k,
    k <= fuel
    /\ filter is_request (fst run)
       = map (page_request env self endpoint params0) (seq 1 k)
    /\ match snd run with
       | Ret _ =>
           1 <= k
           /\ fst run = page_rounds env self endpoint params0 1 (k - 1)
                        ++ [page_request env self endpoint params0 k]
       | Raise e =>
           1 <= k
           /\ exists cause,
                e = RequestException cause
                /\ fst run
                   = page_rounds env self endpoint params0 1 (k - 1)
                     ++ [page_request env self endpoint params0 k;
                         Stdout ("Error making request to "
                                 ++ urljoin env (base_url self) endpoint
                                 ++ ": " ++ cause)]
       | OutOfFuel =>
           k = fuel /\ fst run = page_rounds env self endpoint params0 1 fuel
       end.
Proof.
  intros run. subst run. unfold _get_paginated_results.
  destruct (paginate_shape env self A server endpoint params0 fuel 1 [] h)
    as (k & Hk & Hm).
  exists k. split; [exact Hk|].
  destruct (paginate env self fuel server endpoint params0 1 [] h)
    as [t [a|e|]]; cbn [fst snd] in *.
  - destruct Hm as (H1 & ->). replace (1 + (k - 1)) with k by lia.
    split; [|auto]. rewrite filter_app, requests_of_rounds.
    cbn [filter is_request page_request].
    replace (seq 1 k) with (seq 1 (k - 1) ++ [k]).
    + now rewrite map_app.
    + replace k with (k - 1 + 1) at 3 by lia. rewrite seq_app.
      now replace (1 + (k - 1)) with k by lia.
  - destruct Hm as (H1 & cause & -> & ->). replace (1 + (k - 1)) with k by lia.
    split; [|eauto]. rewrite filter_app, requests_of_rounds.
    cbn [filter is_request page_request].
    replace (seq 1 k) with (seq 1 (k - 1) ++ [k]).
    + now rewrite map_app.
    + replace k with (k - 1 + 1) at 3 by lia. rewrite seq_app.
      now replace (1 + (k - 1)) with k by lia.
  - destruct Hm as (-> & ->). split; [|auto]. apply requests_of_rounds.
Qed.

(** X2.  When every page that the endpoint serves announces a next page
    and is not empty, the paginator does not return: whatever the fuel,
    the run is cut off, having spent all of it on requests. *)
Theorem paginator_never_stops {A} (env : Env) (self : SkilljarDownloader)
  (server : trace -> string -> option params -> reply (page_data A))
  (endpoint : string) (params0 : option params)
  (pages : nat -> page_data A) (fuel : nat) (h : trace) :
  (forall h' i, 1 <= i ->
     server h' (urljoin env (base_url self) endpoint)
            (Some (dict_set "page" (PInt i)
                            (match params0 with Some p => p | None => [] end)))
     = Replied (pages i)) ->
  (forall i, 1 <= i ->
     page_has_next (pages i) = true /\ page_results (pages i) <> []) ->
  _get_paginated_results env self fuel server endpoint params0 h
  = (page_rounds env self endpoint params0 1 fuel, OutOfFuel)
  /\ filter is_request (page_rounds env self endpoint params0 1 fuel)
     = map (page_request env self endpoint params0) (seq 1 fuel).
Proof.
  intros Hs Hp. split; [|apply requests_of_rounds].
  apply (paginate_endless env self A server endpoint params0 pages); assumption.
Qed.

(** X3.  When the pages before the [k]-th of a lesson's content items
    arrive, each announcing a next page and not empty, and the request
    for the [k]-th fails, [get_lesson_content] returns the empty list,
    not the items fetched so far, after [k] requests, the report of the
    failure and the warning. *)
Theorem content_pages_dropped (env : Env) (self : SkilljarDownloader)
  (lesson_id : string) (pages : nat -> page_data ContentItem)
  (k fuel : nat) (cause : string) (h : trace) :
  let endpoint := ("/v1/lessons/" ++ lesson_id ++ "/content-items")%string in
  1 <= k <= fuel ->
  (forall h' i, 1 <= i < k ->
     content_api env h' (urljoin env (base_url self) endpoint)
                 (Some (dict_set "page" (PInt i) []))
     = Replied (pages i)) ->
  (forall i, 1 <= i < k ->
     page_has_next (pages i) = true /\ page_results (pages i) <> []) ->
  (forall h', content_api env h' (urljoin env (base_url self) endpoint)
                (Some (dict_set "page" (PInt k) []))
              = Failed cause) ->
  get_lesson_content env self fuel lesson_id h
  = (page_rounds env self endpoint None 1 (k - 1)
       ++ [page_request env self endpoint None k;
           Stdout ("Error making request to "
                   ++ urljoin env (base_url self) endpoint ++ ": " ++ cause);
           Stdout ("Warning: Could not fetch content items for lesson "
                   ++ lesson_id)],
     Ret []).
Proof.
  intros endpoint Hk Hs Hp Hl.
  rewrite (get_lesson_content_failed env self fuel lesson_id h
             (page_rounds env self endpoint None 1 (k - 1)
                ++ [page_request env self endpoint None k;
                    Stdout ("Error making request to "
                            ++ urljoin env (base_url self) endpoint ++ ": " ++ cause)])
             cause).
  - now rewrite <- app_assoc.
  - unfold _get_paginated_results. fold endpoint.
    rewrite (paginate_fails env self ContentItem (content_api env) endpoint None
               pages (k - 1) 1 [] fuel h cause).
    + now replace (1 + (k - 1)) with k by lia.
    + lia.
    + intros h' i Hi. apply Hs. lia.
    + intros i Hi. apply Hp. lia.
    + intros h'. replace (1 + (k - 1)) with k by lia. apply Hl.
Qed.

(** ** The retriever and the markup loop *)

Section MarkupLoop.

Variable env : Env.
Variable dir : path.

Lemma loop_over_items items : forall i c h,
  for_ (enumerate_from i items)
       (fun '(i, content_item) asset_counter =>
          let html_content :=
            match ci_content_html content_item with
            | Some h => h
            | None => ""%string
            end in
          match html_content with
          | EmptyString => ret asset_counter
          | _ => for_ (_extract_urls_from_html html_content)
                      (download_asset env dir) asset_counter
          end) c h
  = for_ (markup_urls items) (download_asset env dir) c h.
Proof.
  induction items as [|item items IH]; intros i c h; [reflexivity|].
  cbn [enumerate_from]. rewrite for_cons.
  unfold markup_urls. cbn [flat_map]. rewrite for_app.
  fold (markup_urls items).
  apply bind_cong_at.
  - unfold html_of.
    destruct (match ci_content_html item with Some h => h | None => ""%string end);
      reflexivity.
  - intros a h'. apply IH.
Qed.

Lemma download_assets_flat (items : list ContentItem) (h : trace) :
  download_assets env dir items h
  = for_ (markup_urls items) (download_asset env dir) 0 h.
Proof. apply loop_over_items. Qed.

(** The download of one URL inside the loop, when the remote end
    answers: the file is written under the name made of the counter. *)
Lemma download_asset_writes u c h name :
  url_basename env u = Replied name ->
  (forall h', exists resp, web env h' u = Replied resp) ->
  exists body,
    In (WriteFile (dir // asset_prefix c name) body)
       (fst (download_asset env dir u c h)).
Proof.
  intros E W. unfold download_asset. rewrite E.
  destruct (W (h ++ [Call_download_file u dir (asset_prefix c name) false;
                     HttpGet u])) as (resp & Hr).
  pose proof (download_file_writes env u dir (asset_prefix c name) false h resp Hr)
    as Hin.
  exists (chunks resp).
  destruct (download_file_run env dir u (asset_prefix c name) false h)
    as (f & rest & R & _ & _).
  erewrite try_ret_eq.
  2:{ erewrite bind_ret_eq; [|exact R]. reflexivity. }
  cbn [fst snd ret]. rewrite app_nil_r. rewrite R in Hin. exact Hin.
Qed.

Lemma asset_loop_writes urls1 : forall u urls2 c h name,
  url_basename env u = Replied name ->
  (forall h', exists resp, web env h' u = Replied resp) ->
  exists body,
    In (WriteFile (dir // asset_prefix (c + List.length (derived_names env urls1))
                                       name) body)
       (fst (for_ (urls1 ++ u :: urls2) (download_asset env dir) c h)).
Proof.
  induction urls1 as [|v urls1 IH]; intros u urls2 c h name E W.
  - cbn [app derived_names List.length]. rewrite Nat.add_0_r, for_cons.
    destruct (download_asset_writes u c h name E W) as (body & Hin).
    exists body.
    destruct (bind_trace_prefix (download_asset env dir u c)
                (fun s' => for_ urls2 (download_asset env dir) s') h) as (t' & ->).
    apply in_or_app. now left.
  - cbn [app derived_names]. rewrite for_cons.
    destruct (url_basename env v) as [msg|vname] eqn:Ev.
    + erewrite bind_ret_eq; [|apply download_asset_failed; exact Ev].
      cbn [fst].
      destruct (IH u urls2 c
                  (h ++ [Stdout ("    Failed to download asset " ++ v ++ ": " ++ msg)])
                  name E W) as (body & Hin).
      exists body. right. exact Hin.
    + destruct (download_asset_called env dir v c h vname Ev) as (rest & R & _).
      erewrite bind_ret_eq; [|exact R]. cbn [fst].
      destruct (IH u urls2 (c + 1)
                  (h ++ Call_download_file v dir (asset_prefix c vname) false
                          :: HttpGet v :: rest)
                  name E W) as (body & Hin).
      exists body. cbn [List.length].
      replace (c + S (List.length (derived_names env urls1)))
        with (c + 1 + List.length (derived_names env urls1)) by lia.
      apply in_or_app. right. exact Hin.
Qed.

Lemma asset_trace_names urls c t c' :
  asset_trace env dir urls c t c' ->
  asset_prefixes t
  = map (fun kn => asset_prefix (fst kn) (snd kn))
        (enumerate_from c (derived_names env urls))
  /\ c' = c + List.length (derived_names env urls).
Proof.
  induction 1 as [c|u urls c msg t c' E T IH|u urls c name rest t c' E F T IH].
  - simpl. split; [reflexivity|lia].
  - cbn [derived_names asset_prefixes]. rewrite E. exact IH.
  - cbn [derived_names asset_prefixes]. rewrite E.
    rewrite (file_tail_prefixes _ _ _ F). destruct IH as (-> & ->).
    cbn [enumerate_from map fst snd List.length]. split; [reflexivity|lia].
Qed.

End MarkupLoop.

(** X4.  The two nested loops over the content items and their URLs are
    one loop over the URLs of all items in order, with one counter that
    starts at 0 and is carried from one item to the next. *)
Theorem markup_loop_is_flat (env : Env) (dir : path)
  (items : list ContentItem) (h : trace) :
  download_assets env dir items h
  = for_ (flat_map (fun item => match ci_content_html item with
                                | Some html => _extract_urls_from_html html
                                | None => []
                                end) items)
         (download_asset env dir) 0 h.
Proof.
  rewrite download_assets_flat. f_equal.
  unfold markup_urls. apply flat_map_ext. intros item.
  unfold html_of. destruct (ci_content_html item) as [html|]; [|reflexivity].
  destruct html; reflexivity.
Qed.

(** ** One lesson, exactly *)

Section LessonExact.

Variable env : Env.
Variable self : SkilljarDownloader.
Variable fuel : nat.
Variable lesson : Lesson.
Variable output_dir : path.
Variable h : trace.

Let head : trace := lesson_head env self lesson output_dir.
Let dir : path := lesson_dir lesson output_dir.

(** The trace of a lesson whose details and content items arrive, with
    the two loops at the histories they run in. *)
Lemma lesson_run_exact details tc items :
  details_api env (h ++ head)
    (urljoin env (base_url self) ("/v1/lessons/" ++ l_id lesson)) None
  = Replied details ->
  let pre := head ++ [WriteJson (metadata_file lesson output_dir) (Details details)] in
  get_lesson_content env self fuel (l_id lesson) (h ++ pre) = (tc, Ret items) ->
  let w := if is_nil items then []
           else [WriteJson (content_file lesson output_dir) (Items items)] in
  let h1 := ((h ++ pre) ++ tc) ++ w in
  let td := fst (download_direct env dir items h1) in
  let ta := fst (download_assets env dir items (h1 ++ td)) in
  download_lesson_content env self fuel lesson output_dir h
  = (pre ++ tc ++ w ++ td ++ ta ++ [Sleep 200], Ret tt).
Proof.
  intros E pre F w h1 td ta.
  assert (Hh : ((h ++ [Mkdir (output_dir // lesson_dir_name lesson)])
                  ++ [Stdout ("  Downloading lesson: " ++ lesson_title_of lesson)])
               ++ [Request "GET" (urljoin env (base_url self)
                                    ("/v1/lessons/" ++ l_id lesson)) None]
               = h ++ head).
  { unfold head, lesson_head, lesson_dir. now rewrite <- !app_assoc. }
  assert (Hd : get_lesson_details env self (l_id lesson)
                 ((h ++ [Mkdir (output_dir // lesson_dir_name lesson)])
                    ++ [Stdout ("  Downloading lesson: " ++ lesson_title_of lesson)])
               = ([Request "GET" (urljoin env (base_url self)
                                    ("/v1/lessons/" ++ l_id lesson)) None],
                  Ret details)).
  { apply make_request_ok. rewrite Hh. exact E. }
  assert (Hp : (h ++ head)
               ++ [WriteJson (output_dir // lesson_dir_name lesson // "lesson_metadata.json")
                             (Details details)]
               = h ++ pre).
  { unfold pre, metadata_file, lesson_dir. now rewrite <- !app_assoc. }
  destruct (download_direct_run env dir items h1) as (td' & Rd & _).
  destruct (download_assets_run env dir items (h1 ++ td)) as (ta' & c' & Ra & _).
  assert (Etd : td' = td) by (unfold td; now rewrite Rd).
  subst td'.
  assert (Eta : ta' = ta) by (unfold ta; now rewrite Ra).
  subst ta'.
  unfold download_lesson_content, mkdir, print, write_json.
  rewrite !bind_emit.
  erewrite bind_ret_eq; [|exact Hd].
  rewrite bind_emit, Hh, Hp. cbn [fst snd].
  erewrite bind_ret_eq; [|exact F].
  erewrite (bind_ret_eq _ _ _ w tt); [|unfold w; destruct items; reflexivity].
  erewrite bind_ret_eq; [|exact Rd].
  erewrite bind_ret_eq; [|exact Ra].
  cbn [fst snd sleep emit]. unfold pre, head, lesson_head, metadata_file, lesson_dir.
  cbn [app]. reflexivity.
Qed.

End LessonExact.

(** X5.  Failures of other assets do not keep an asset from being
    saved: in a lesson whose details and content items arrive, a URL of
    the markup for which a file name is derived and to which the remote
    end answers is written to the file named after the number of URLs
    with a file name that come before it, whatever happens to the
    others. *)
Theorem asset_failure_isolation (env : Env) (self : SkilljarDownloader)
  (fuel : nat) (lesson : Lesson) (output_dir : path) (h : trace)
  (details : json) (items : list ContentItem)
  (urls1 urls2 : list string) (u name : string) :
  details_api env (h ++ lesson_head env self lesson output_dir)
    (urljoin env (base_url self) ("/v1/lessons/" ++ l_id lesson)) None
  = Replied details ->
  snd (get_lesson_content env self fuel (l_id lesson)
         (h ++ lesson_head env self lesson output_dir
            ++ [WriteJson (metadata_file lesson output_dir) (Details details)]))
  = Ret items ->
  markup_urls items = urls1 ++ u :: urls2 ->
  url_basename env u = Replied name ->
  (forall h', exists resp, web env h' u = Replied resp) ->
  exists body,
    In (WriteFile (lesson_dir lesson output_dir
                   // asset_prefix (List.length (derived_names env urls1)) name)
                  body)
       (fst (download_lesson_content env self fuel lesson output_dir h)).
Proof.
  intros E S Hu En W.
  destruct (get_lesson_content env self fuel (l_id lesson)
              (h ++ lesson_head env self lesson output_dir
                 ++ [WriteJson (metadata_file lesson output_dir) (Details details)]))
    as [tc o] eqn:F.
  cbn [snd] in S. subst o.
  rewrite (lesson_run_exact env self fuel lesson output_dir h details tc items E F).
  cbn [fst]. rewrite download_assets_flat, Hu.
  match goal with
  | |- context [for_ (urls1 ++ u :: urls2) ?b 0 ?hh] =>
      destruct (asset_loop_writes env (lesson_dir lesson output_dir)
                  urls1 u urls2 0 hh name En W) as (body & Hin)
  end.
  exists body. cbn [Nat.add] in Hin.
  do 4 (apply in_or_app; right). apply in_or_app. left. exact Hin.
Qed.

(** X6.  In a lesson whose details and content items arrive, the names
    under which the markup loop calls the retriever are, in order, the
    names made of [0], [1], [2], ... and of the file names derived for
    the URLs of the markup; they depend on no answer of the remote ends,
    so a download that fails still takes its number. *)
Theorem asset_numbering (env : Env) (self : SkilljarDownloader)
  (fuel : nat) (lesson : Lesson) (output_dir : path) (h : trace)
  (details : json) (items : list ContentItem) :
  details_api env (h ++ lesson_head env self lesson output_dir)
    (urljoin env (base_url self) ("/v1/lessons/" ++ l_id lesson)) None
  = Replied details ->
  snd (get_lesson_content env self fuel (l_id lesson)
         (h ++ lesson_head env self lesson output_dir
            ++ [WriteJson (metadata_file lesson output_dir) (Details details)]))
  = Ret items ->
  asset_prefixes (fst (download_lesson_content env self fuel lesson output_dir h))
  = map (fun kn => asset_prefix (fst kn) (snd kn))
        (enumerate (derived_names env (markup_urls items))).
Proof.
  intros E S.
  pose proof (lesson_after_details env self fuel lesson output_dir h details E) as L.
  cbv zeta in L. rewrite S in L. destruct L as (td & ta & c' & R & Td & Ta).
  pose proof (get_lesson_content_shape env self fuel (l_id lesson)
                (h ++ lesson_head env self lesson output_dir
                   ++ [WriteJson (metadata_file lesson output_dir) (Details details)]))
    as (Fq & _).
  apply fetch_is_quiet in Fq. destruct Fq as (Fq & _).
  rewrite R. cbn [fst]. rewrite !asset_prefixes_app.
  rewrite (quiet_prefixes _ (head_quiet env self lesson output_dir)).
  rewrite (quiet_prefixes _ Fq).
  rewrite (quiet_prefixes (if is_nil items then [] else _))
    by (destruct items; repeat constructor).
  cbn [asset_prefixes app].
  pose proof (direct_trace_prefixes _ _ _ _ [] Td) as Pd.
  rewrite app_nil_r in Pd. rewrite Pd. cbn [app]. rewrite app_nil_r.
  apply (asset_trace_names env _ _ _ _ _ Ta).
Qed.

(** X7.  A failure of the request for the details of a lesson is not
    handled in the lesson function: when that request fails, the function
    raises the transport error, and by then the lesson has its directory
    and nothing else; no file is written, nothing is downloaded, and the
    pause at the end of the lesson does not take place. *)
Theorem lesson_details_failure_raises (env : Env) (self : SkilljarDownloader)
  (fuel : nat) (lesson : Lesson) (output_dir : path) (h : trace)
  (cause : string) :
  details_api env (h ++ lesson_head env self lesson output_dir)
    (urljoin env (base_url self) ("/v1/lessons/" ++ l_id lesson)) None
  = Failed cause ->
  let run := download_lesson_content env self fuel lesson output_dir h in
  snd run = Raise (RequestException cause)
  /\ fst run
     = [Mkdir (lesson_dir lesson output_dir);
        Stdout ("  Downloading lesson: " ++ lesson_title_of lesson);
        Request "GET" (urljoin env (base_url self) ("/v1/lessons/" ++ l_id lesson))
                None;
        Stdout ("Error making request to "
                ++ urljoin env (base_url self) ("/v1/lessons/" ++ l_id lesson)
                ++ ": " ++ cause)]
  /\ Forall (fun ev => is_write_json ev = false /\ is_download ev = false
                       /\ ev <> Sleep 200) (fst run).
Proof.
  intros E run. unfold run.
  rewrite (lesson_details_failed env self fuel lesson output_dir h cause E).
  cbn [fst snd]. split; [reflexivity|]. split; [reflexivity|].
  unfold lesson_head. cbn [app].
  repeat constructor; discriminate.
Qed.

Lemma determine_filename_prefix url prefix b header :
  exists ext,
    determine_filename url prefix b header = (prefix ++ ext)%string
    /\ (b = false -> ext = EmptyString).
Proof.
  unfold determine_filename. destruct b.
  - eexists. split; [reflexivity|discriminate].
  - exists EmptyString. split; [|reflexivity].
    clear. induction prefix as [|c p IH]; simpl; [reflexivity|now rewrite <- IH].
Qed.

(** X8.  The retriever never raises; outside the process it does one
    GET on its URL and then writes at most one file, in the directory it
    was given and under a name that starts with the given prefix, which
    is the whole name without extension inference.  When the stream
    breaks after the response has begun, the file is there with the
    chunks received and the failure is printed. *)
Theorem download_file_contained (env : Env) (url : string) (dir : path)
  (filename_prefix : string) (use_extension : bool) (h : trace) :
  let run := _download_file env url dir filename_prefix use_extension h in
  snd run = Ret tt
  /\ (exists ext,
        (use_extension = false -> ext = EmptyString)
        /\ (filter is_outside (fst run) = [HttpGet url]
            \/ exists body,
                 filter is_outside (fst run)
                 = [HttpGet url; WriteFile (dir // (filename_prefix ++ ext)) body]))
  /\ (forall resp cause,
        web env (h ++ [Call_download_file url dir filename_prefix use_extension;
                       HttpGet url]) url = Replied resp ->
        broken resp = Some cause ->
        fst run
        = [Call_download_file url dir filename_prefix use_extension;
           HttpGet url;
           WriteFile (dir // determine_filename url filename_prefix use_extension
                                (content_type resp)) (chunks resp);
           Stdout ("    Error downloading " ++ url ++ ": " ++ cause)]).
Proof.
  intros run. subst run. unfold _download_file.
  rewrite !bind_emit, bind_ask.
  replace ((h ++ [Call_download_file url dir filename_prefix use_extension])
             ++ [HttpGet url])
    with (h ++ [Call_download_file url dir filename_prefix use_extension; HttpGet url])
    by now rewrite <- app_assoc.
  destruct (web env _ url) as [cause|resp].
  - cbn [fst snd print emit]. split; [reflexivity|]. split.
    + exists EmptyString. split; [reflexivity|]. left. reflexivity.
    + intros resp cause' H. discriminate H.
  - rewrite bind_emit.
    destruct (determine_filename_prefix url filename_prefix use_extension
                (content_type resp)) as (ext & En & Hb).
    split; [destruct (broken resp); reflexivity|]. split.
    + exists ext. split; [exact Hb|]. right. exists (chunks resp).
      rewrite <- En. destruct (broken resp); reflexivity.
    + intros resp' cause H Hbr. inversion H. subst resp'. rewrite Hbr. reflexivity.
Qed.

(** ** Courses *)

Section CourseRuns.

Variable env : Env.
Variable self : SkilljarDownloader.
Variable fuel : nat.

Lemma get_course_lessons_ok course_id h t lessons :
  _get_paginated_results env self fuel (lessons_api env) "/v1/lessons"
    (Some [("course_id", PStr course_id)])
    (h ++ [Stdout ("Fetching lessons for course " ++ course_id ++ "...")])
  = (t, Ret lessons) ->
  get_course_lessons env self fuel course_id h
  = (Stdout ("Fetching lessons for course " ++ course_id ++ "...") :: t,
     Ret lessons).
Proof.
  intros P. unfold get_course_lessons, print. rewrite bind_emit.
  erewrite try_ret_eq; [|exact P]. reflexivity.
Qed.

Lemma get_course_lessons_events course_id h :
  Forall (fun ev => is_fetch_event ev = true)
         (fst (get_course_lessons env self fuel course_id h)).
Proof.
  unfold get_course_lessons, print. rewrite bind_emit. cbn [fst].
  constructor; [reflexivity|]. rewrite try_trace.
  apply Forall_app. split.
  - apply paginate_fetch_events.
  - destruct (snd (_get_paginated_results env self fuel (lessons_api env)
                     "/v1/lessons" (Some [("course_id", PStr course_id)])
                     (h ++ [Stdout ("Fetching lessons for course " ++ course_id ++ "...")])))
      as [a|e|]; try constructor.
    destruct e; constructor.
Qed.

End CourseRuns.

(** X9.  A course whose first page of lessons is empty gets its
    directory and the line that says no lesson was found, after one
    request, whether or not the page announces a next one; nothing else
    is created and the course ends normally. *)
Theorem course_without_lessons (env : Env) (self : SkilljarDownloader)
  (fuel : nat) (output_path : path) (course_id : string) (h : trace)
  (data : page_data Lesson) :
  1 <= fuel ->
  (forall h', lessons_api env h' (urljoin env (base_url self) "/v1/lessons")
                (Some [("course_id", PStr course_id); ("page", PInt 1)])
              = Replied data) ->
  page_results data = [] ->
  download_course env self fuel output_path course_id h
  = ([Stdout (newline ++ "Processing course: " ++ course_id);
      Mkdir (output_path // ("course_" ++ course_id));
      Stdout ("Fetching lessons for course " ++ course_id ++ "...");
      Request "GET" (urljoin env (base_url self) "/v1/lessons")
        (Some [("course_id", PStr course_id); ("page", PInt 1)]);
      Stdout ("  No lessons found for course " ++ course_id)],
     Ret tt).
Proof.
  intros Hf Hs Hr. destruct fuel as [|fuel']; [lia|].
  assert (P : forall h0,
             _get_paginated_results env self (S fuel') (lessons_api env)
               "/v1/lessons" (Some [("course_id", PStr course_id)]) h0
             = ([Request "GET" (urljoin env (base_url self) "/v1/lessons")
                   (Some [("course_id", PStr course_id); ("page", PInt 1)])],
                Ret [])).
  { intros h0. unfold _get_paginated_results.
    rewrite (paginate_step env self Lesson (lessons_api env) "/v1/lessons"
               (Some [("course_id", PStr course_id)]) (fun _ => data))
      by apply Hs.
    rewrite Hr. cbn [is_nil]. rewrite orb_true_r. reflexivity. }
  unfold download_course, print, mkdir. rewrite bind_emit.
  erewrite try_ret_eq.
  2:{ rewrite bind_emit. erewrite bind_ret_eq.
      2:{ apply get_course_lessons_ok. apply P. }
      cbn [is_nil emit fst snd]. reflexivity. }
  reflexivity.
Qed.

(** X10.  When the details of a lesson cannot be fetched, the lessons
    of the course that come after it are not processed: the trace of the
    course ends with the request for these details, the report of the
    failure and the line of the course loop, and the course ends
    normally. *)
Theorem lesson_failure_skips_rest (env : Env) (self : SkilljarDownloader)
  (fuel : nat) (output_path : path) (course_id : string) (h t td : trace)
  (done rest : list Lesson) (l : Lesson) (cause : string) :
  let course_dir := output_path // ("course_" ++ course_id) in
  let head := [Stdout (newline ++ "Processing course: " ++ course_id);
               Mkdir course_dir] in
  let found := Stdout ("  Found " ++ Str.of_nat (List.length (done ++ l :: rest))
                       ++ " lessons") in
  get_course_lessons env self fuel course_id (h ++ head)
  = (t, Ret (done ++ l :: rest)) ->
  for_ done (fun lesson _ => download_lesson_content env self fuel lesson course_dir)
       tt (h ++ head ++ t ++ [found])
  = (td, Ret tt) ->
  details_api env (h ++ head ++ t ++ [found] ++ td ++ lesson_head env self l course_dir)
    (urljoin env (base_url self) ("/v1/lessons/" ++ l_id l)) None
  = Failed cause ->
  download_course env self fuel output_path course_id h
  = (head ++ t ++ [found] ++ td ++ lesson_head env self l course_dir
       ++ [Stdout ("Error making request to "
                   ++ urljoin env (base_url self) ("/v1/lessons/" ++ l_id l)
                   ++ ": " ++ cause);
           Stdout ("  Error processing course " ++ course_id ++ ": " ++ cause)],
     Ret tt).
Proof.
  intros course_dir head found G D E.
  assert (Hh1 : (h ++ [Stdout (newline ++ "Processing course: " ++ course_id)])
                ++ [Mkdir course_dir] = h ++ head)
    by (unfold head; now rewrite <- app_assoc).
  assert (Hh2 : ((h ++ head) ++ t) ++ [found] = h ++ head ++ t ++ [found])
    by now rewrite <- !app_assoc.
  assert (Hh3 : (h ++ head ++ t ++ [found]) ++ td
                = h ++ head ++ t ++ [found] ++ td)
    by now rewrite <- !app_assoc.
  assert (L : download_lesson_content env self fuel l course_dir
                (h ++ head ++ t ++ [found] ++ td)
              = (lesson_head env self l course_dir
                   ++ [Stdout ("Error making request to "
                               ++ urljoin env (base_url self) ("/v1/lessons/" ++ l_id l)
                               ++ ": " ++ cause)],
                 Raise (RequestException cause))).
  { apply lesson_details_failed. rewrite <- E. f_equal.
    now rewrite <- !app_assoc. }
  assert (Loop : for_ (done ++ l :: rest)
                   (fun lesson _ => download_lesson_content env self fuel lesson course_dir)
                   tt (h ++ head ++ t ++ [found])
                 = (td ++ lesson_head env self l course_dir
                       ++ [Stdout ("Error making request to "
                                   ++ urljoin env (base_url self) ("/v1/lessons/" ++ l_id l)
                                   ++ ": " ++ cause)],
                    Raise (RequestException cause))).
  { rewrite for_app. erewrite bind_ret_eq; [|exact D].
    rewrite Hh3, for_cons. erewrite bind_raise_eq; [|exact L]. reflexivity. }
  unfold download_course, print, mkdir. rewrite bind_emit.
  erewrite try_caught_eq.
  2:{ rewrite bind_emit. fold course_dir. rewrite Hh1.
      erewrite bind_ret_eq; [|exact G].
      assert (N : is_nil (done ++ l :: rest) = false) by (destruct done; reflexivity).
      rewrite N. rewrite bind_emit. fold found. rewrite Hh2.
      erewrite bind_raise_eq; [|exact Loop]. reflexivity. }
  2:{ reflexivity. }
  cbn [fst snd emit str_exn]. unfold head. cbn [app].
  do 3 f_equal. rewrite <- app_assoc. cbn [app]. do 2 f_equal.
  now rewrite <- !app_assoc.
Qed.

(** ** Paths *)

Lemma dropwhile_incl {A} (p : A -> bool) (l : list A) x :
  In x (Str.dropwhile p l) -> In x l.
Proof.
  induction l as [|y l IH]; [contradiction|].
  simpl. destruct (p y); [right; now apply IH|auto].
Qed.

Lemma filter_all {A} (p : A -> bool) (l : list A) :
  Forall (fun x => p x = true) l -> filter p l = l.
Proof.
  induction 1 as [|x l H F IH]; [reflexivity|]. simpl. now rewrite H, IH.
Qed.

Lemma safe_title_chars (t : string) :
  Str.chars (safe_title_of t)
  = rev (Str.dropwhile Str.isspace (rev (filter keeps (Str.chars t)))).
Proof. unfold safe_title_of, Str.rstrip. now rewrite !chars_of_chars. Qed.

Lemma safe_title_kept (t : string) (c : ascii) :
  In c (Str.chars (safe_title_of t)) -> keeps c = true.
Proof.
  rewrite safe_title_chars, <- in_rev. intros H.
  apply dropwhile_incl in H. rewrite <- in_rev in H.
  apply filter_In in H. tauto.
Qed.

Lemma fields_app_plain sep (a : list ascii) : forall s acc,
  ~ In sep a -> fields sep acc (a ++ s) = fields sep (rev a ++ acc) s.
Proof.
  induction a as [|c a IH]; intros s acc H; [reflexivity|].
  cbn [app fields]. destruct (Ascii.eqb c sep) eqn:E.
  - apply Ascii.eqb_eq in E. subst c. exfalso. apply H. now left.
  - rewrite IH by (intros Hin; apply H; now right).
    cbn [rev]. now rewrite <- app_assoc.
Qed.

Lemma fields_plain sep (s : list ascii) acc :
  ~ In sep s -> fields sep acc s = [rev acc ++ s].
Proof.
  intros H. rewrite <- (app_nil_r s) at 1. rewrite fields_app_plain by exact H.
  cbn [fields]. now rewrite rev_app_distr, rev_involutive.
Qed.

Lemma fields_head sep : forall s acc,
  exists f fs, fields sep acc s = (rev acc ++ f) :: fs.
Proof.
  induction s as [|c s IH]; intros acc.
  - exists [], []. cbn [fields]. now rewrite app_nil_r.
  - cbn [fields]. destruct (Ascii.eqb c sep).
    + exists [], (fields sep [] s). now rewrite app_nil_r.
    + destruct (IH (c :: acc)) as (f & fs & ->). exists (c :: f), fs.
      cbn [rev]. now rewrite <- app_assoc.
Qed.

(** A segment without slash, other than the empty one and the dot, is
    one component. *)
Lemma components_plain (s : string) :
  ~ In "/"%char (Str.chars s) -> s <> EmptyString -> s <> "."%string ->
  components s = [s].
Proof.
  intros H He Hd. unfold components. rewrite fields_plain by exact H.
  cbn [rev app map filter]. rewrite of_chars_chars.
  destruct (String.eqb s "") eqn:E1; [apply String.eqb_eq in E1; contradiction|].
  destruct (String.eqb s ".") eqn:E2; [apply String.eqb_eq in E2; contradiction|].
  reflexivity.
Qed.

Lemma pathlib_parts_join (p : path) (segment : string) :
  root_of segment = [] ->
  pathlib_parts (p // segment) = pathlib_parts p ++ components segment.
Proof.
  intros H. unfold pathlib_parts, joinpath. rewrite fold_left_app.
  cbn [fold_left]. now rewrite H.
Qed.

Lemma lesson_dir_chars (l : Lesson) :
  Str.chars (lesson_dir_name l)
  = Str.chars (safe_title_of (lesson_title_of l)) ++ "_"%char :: Str.chars (l_id l).
Proof. unfold lesson_dir_name. now rewrite !chars_append. Qed.

(** The segment of a lesson does not start with a slash. *)
Lemma lesson_dir_relative (l : Lesson) : root_of (lesson_dir_name l) = [].
Proof.
  unfold root_of. rewrite lesson_dir_chars.
  pose proof (safe_title_kept (lesson_title_of l)) as K.
  destruct (Str.chars (safe_title_of (lesson_title_of l))) as [|c s];
    [reflexivity|].
  cbn [app]. destruct (Ascii.eqb c "/") eqn:E; [|reflexivity].
  apply Ascii.eqb_eq in E. subst c.
  specialize (K "/"%char (or_introl eq_refl)). discriminate K.
Qed.

(** It has at least one component. *)
Lemma lesson_dir_components (l : Lesson) : components (lesson_dir_name l) <> [].
Proof.
  unfold components. rewrite lesson_dir_chars.
  set (a := Str.chars (safe_title_of (lesson_title_of l))).
  replace (a ++ "_"%char :: Str.chars (l_id l))
    with ((a ++ ["_"%char]) ++ Str.chars (l_id l)) by now rewrite <- app_assoc.
  rewrite fields_app_plain.
  - destruct (fields_head "/" (Str.chars (l_id l)) (rev (a ++ ["_"%char]) ++ []))
      as (f & fs & ->).
    rewrite app_nil_r, rev_involutive. cbn [map filter].
    assert (Hin : In "_"%char (Str.chars (Str.of_chars ((a ++ ["_"%char]) ++ f)))).
    { rewrite chars_of_chars. apply in_or_app. left. apply in_or_app. right.
      now left. }
    set (x := Str.of_chars ((a ++ ["_"%char]) ++ f)) in *.
    assert (Hne : x <> EmptyString).
    { intros E. rewrite E in Hin. destruct Hin. }
    assert (Hnd : x <> "."%string).
    { intros E. rewrite E in Hin. cbn in Hin. destruct Hin as [H|[]].
      discriminate H. }
    destruct (String.eqb x "") eqn:E1; [apply String.eqb_eq in E1; contradiction|].
    destruct (String.eqb x ".") eqn:E2; [apply String.eqb_eq in E2; contradiction|].
    cbn [orb negb]. discriminate.
  - intros Hin. apply in_app_or in Hin. destruct Hin as [Hin|[Hin|[]]].
    + apply safe_title_kept in Hin. discriminate Hin.
    + discriminate Hin.
Qed.

(** With an identifier without slash it is one component, itself. *)
Lemma lesson_dir_plain (l : Lesson) :
  ~ In "/"%char (Str.chars (l_id l)) ->
  components (lesson_dir_name l) = [lesson_dir_name l].
Proof.
  intros H. apply components_plain.
  - rewrite lesson_dir_chars. intros Hin. apply in_app_or in Hin.
    destruct Hin as [Hin|[Hin|Hin]].
    + apply safe_title_kept in Hin. discriminate Hin.
    + discriminate Hin.
    + contradiction.
  - intros E. apply (f_equal Str.chars) in E. rewrite lesson_dir_chars in E.
    destruct (Str.chars (safe_title_of (lesson_title_of l))); discriminate E.
  - intros E. apply (f_equal Str.chars) in E. rewrite lesson_dir_chars in E.
    destruct (Str.chars (safe_title_of (lesson_title_of l))) as [|c [|c' s]];
      discriminate E.
Qed.

(** The segment of a course whose identifier holds no slash. *)
Lemma course_dir_parts (output_dir course_id : string) :
  pathlib_parts [output_dir] = [output_dir] ->
  ~ In "/"%char (Str.chars course_id) ->
  pathlib_parts ([output_dir] // ("course_" ++ course_id))
  = [output_dir; ("course_" ++ course_id)%string].
Proof.
  intros Ho Hc. rewrite pathlib_parts_join by reflexivity. rewrite Ho.
  rewrite components_plain; [reflexivity| |discriminate|discriminate].
  rewrite chars_append. intros Hin. apply in_app_or in Hin.
  destruct Hin as [Hin|Hin]; [|contradiction].
  cbn in Hin. repeat (destruct Hin as [Hin|Hin]; [discriminate Hin|]). destruct Hin.
Qed.

(** ** Directories *)

Lemma no_mkdir_filter n t :
  Forall no_mkdir t -> filter (is_mkdir_at_depth n) t = [].
Proof.
  induction 1 as [|ev t H F IH]; [reflexivity|].
  destruct ev; try discriminate H; exact IH.
Qed.

Lemma fetch_no_mkdir t :
  Forall (fun ev => is_fetch_event ev = true) t -> Forall no_mkdir t.
Proof.
  intros F. eapply Forall_impl; [|exact F].
  intros ev H. destruct ev; try discriminate H; reflexivity.
Qed.

Lemma file_tail_no_mkdir f rest : file_tail f rest -> Forall no_mkdir rest.
Proof. intros [(l & ->)|(b & l & ->)]; repeat constructor. Qed.

Lemma asset_trace_no_mkdir env dir urls c t c' :
  asset_trace env dir urls c t c' -> Forall no_mkdir t.
Proof.
  induction 1 as [c|u urls c msg t c' E T IH|u urls c name rest t c' E F T IH].
  - constructor.
  - constructor; [reflexivity|exact IH].
  - constructor; [reflexivity|]. constructor; [reflexivity|].
    apply Forall_app. split; [eapply file_tail_no_mkdir; eauto|exact IH].
Qed.

Lemma direct_trace_no_mkdir dir i items t :
  direct_trace dir i items t -> Forall no_mkdir t.
Proof.
  induction 1 as [i|i item items t E T IH|i item items u f rest t E F T IH].
  - constructor.
  - exact IH.
  - constructor; [reflexivity|]. constructor; [reflexivity|].
    apply Forall_app. split; [eapply file_tail_no_mkdir; eauto|exact IH].
Qed.

Section Directories.

Variable env : Env.
Variable self : SkilljarDownloader.
Variable fuel : nat.

(** A lesson creates one directory, its own, before anything else. *)
Lemma lesson_mkdir lesson output_dir h :
  exists rest,
    fst (download_lesson_content env self fuel lesson output_dir h)
    = Mkdir (lesson_dir lesson output_dir) :: rest
    /\ Forall no_mkdir rest.
Proof.
  destruct (details_api env (h ++ lesson_head env self lesson output_dir)
              (urljoin env (base_url self) ("/v1/lessons/" ++ l_id lesson)) None)
    as [cause|details] eqn:E.
  - rewrite (lesson_details_failed env self fuel lesson output_dir h cause E).
    eexists. split; [reflexivity|]. repeat constructor.
  - pose proof (lesson_after_details env self fuel lesson output_dir h details E) as L.
    cbv zeta in L.
    pose proof (get_lesson_content_shape env self fuel (l_id lesson)
                  (h ++ lesson_head env self lesson output_dir
                     ++ [WriteJson (metadata_file lesson output_dir) (Details details)]))
      as (Fq & _).
    apply fetch_no_mkdir in Fq.
    destruct (snd (get_lesson_content env self fuel (l_id lesson)
                (h ++ lesson_head env self lesson output_dir
                   ++ [WriteJson (metadata_file lesson output_dir) (Details details)])))
      as [items|e|].
    + destruct L as (td & ta & c' & R & Td & Ta). rewrite R.
      eexists. split; [reflexivity|].
      constructor; [reflexivity|]. constructor; [reflexivity|].
      constructor; [reflexivity|].
      apply Forall_app. split; [exact Fq|].
      apply Forall_app. split; [destruct items; repeat constructor|].
      apply Forall_app. split; [eapply direct_trace_no_mkdir; eauto|].
      apply Forall_app. split; [eapply asset_trace_no_mkdir; eauto|].
      repeat constructor.
    + rewrite L. eexists. split; [reflexivity|].
      constructor; [reflexivity|]. constructor; [reflexivity|].
      constructor; [reflexivity|]. exact Fq.
    + rewrite L. eexists. split; [reflexivity|].
      constructor; [reflexivity|]. constructor; [reflexivity|].
      constructor; [reflexivity|]. exact Fq.
Qed.

Lemma lesson_no_course_mkdir lesson (output_dir : path) h :
  2 <= List.length (pathlib_parts output_dir) ->
  filter (is_mkdir_at_depth 2)
         (fst (download_lesson_content env self fuel lesson output_dir h)) = [].
Proof.
  intros Hl. destruct (lesson_mkdir lesson output_dir h) as (rest & -> & F).
  cbn [filter is_mkdir_at_depth]. unfold lesson_dir.
  rewrite pathlib_parts_join by apply lesson_dir_relative.
  rewrite length_app.
  pose proof (lesson_dir_components lesson) as Hc.
  destruct (components (lesson_dir_name lesson)) as [|c cs]; [contradiction|].
  replace (Nat.eqb (List.length (pathlib_parts output_dir) + List.length (c :: cs)) 2)
    with false by (symmetry; apply Nat.eqb_neq; cbn [List.length]; lia).
  now apply no_mkdir_filter.
Qed.

Lemma lessons_no_course_mkdir (output_dir : path) lessons : forall h,
  2 <= List.length (pathlib_parts output_dir) ->
  filter (is_mkdir_at_depth 2)
         (fst (for_ lessons
                 (fun lesson _ => download_lesson_content env self fuel lesson output_dir)
                 tt h)) = [].
Proof.
  induction lessons as [|l ls IH]; intros h Hl; [reflexivity|].
  rewrite for_cons, bind_trace, filter_app, lesson_no_course_mkdir by exact Hl.
  destruct (snd (download_lesson_content env self fuel l output_dir h)) as [[]|e|];
    [apply (IH _ Hl)|reflexivity|reflexivity].
Qed.

(** A course whose identifier holds no slash creates one directory two
    components deep, its own, however it ends. *)
Lemma course_mkdir output_dir course_id h :
  pathlib_parts [output_dir] = [output_dir] ->
  ~ In "/"%char (Str.chars course_id) ->
  filter (is_mkdir_at_depth 2)
         (fst (download_course env self fuel [output_dir] course_id h))
  = [Mkdir ([output_dir] // ("course_" ++ course_id))].
Proof.
  intros Ho Hc.
  pose proof (course_dir_parts output_dir course_id Ho Hc) as Ep.
  unfold download_course, print, mkdir. rewrite bind_emit. cbn [fst].
  cbn [filter is_mkdir_at_depth]. rewrite try_trace, bind_emit. cbn [fst snd].
  cbn [filter is_mkdir_at_depth app]. rewrite Ep. cbn [List.length Nat.eqb].
  f_equal. rewrite filter_app.
  set (hc := (h ++ [Stdout (newline ++ "Processing course: " ++ course_id)])
             ++ [Mkdir ([output_dir] // ("course_" ++ course_id))]).
  assert (Body : filter (is_mkdir_at_depth 2)
                   (fst (bind (get_course_lessons env self fuel course_id)
                           (fun lessons =>
                              if is_nil lessons
                              then print ("  No lessons found for course " ++ course_id)
                              else
                                print ("  Found " ++ Str.of_nat (List.length lessons)
                                       ++ " lessons") ;;;
                                for_ lessons
                                  (fun lesson _ =>
                                     download_lesson_content env self fuel lesson
                                       ([output_dir] // ("course_" ++ course_id)))
                                  tt ;;;
                                print ("  Completed course " ++ course_id))
                           hc)) = []).
  { rewrite bind_trace, filter_app.
    rewrite (no_mkdir_filter 2 _
               (fetch_no_mkdir _ (get_course_lessons_events env self fuel course_id hc))).
    destruct (snd (get_course_lessons env self fuel course_id hc)) as [lessons|e|];
      [|reflexivity|reflexivity].
    destruct lessons as [|l ls]; [reflexivity|].
    cbn [is_nil]. unfold print. rewrite bind_emit. cbn [fst filter is_mkdir_at_depth].
    rewrite bind_trace, filter_app, lessons_no_course_mkdir
      by (rewrite Ep; cbn [List.length]; lia).
    destruct (snd (for_ (l :: ls) _ tt _)); reflexivity. }
  unfold print in Body. unfold joinpath in *. cbn [app] in *. rewrite Body.
  cbn [app].
  match goal with
  | |- filter _ (match ?o with _ => _ end) = [] => destruct o as [a|e|]
  end; reflexivity.
Qed.

(** X11.  In a run of [download_courses] that comes to its end, when the
    output directory is one path component and no course identifier
    holds a slash, the directories created two components deep are the
    directories of the courses, one for each identifier and in the order
    given, whatever failed in the courses. *)
Theorem course_directories (course_ids : list string) (output_dir : string)
  (h : trace) :
  pathlib_parts [output_dir] = [output_dir] ->
  Forall (fun c => ~ In "/"%char (Str.chars c)) course_ids ->
  snd (download_courses env self fuel course_ids output_dir h) = Ret tt ->
  filter (is_mkdir_at_depth 2)
         (fst (download_courses env self fuel course_ids output_dir h))
  = map (fun c => Mkdir [output_dir; ("course_" ++ c)%string]) course_ids.
Proof.
  intros Ho Hc.
  unfold download_courses, mkdir. rewrite bind_emit. cbn [fst snd].
  cbn [filter is_mkdir_at_depth]. rewrite Ho. cbn [List.length Nat.eqb].
  generalize (h ++ [Mkdir [output_dir]]). clear h.
  induction Hc as [|c cs Hc Hcs IH]; intros h H; [reflexivity|].
  rewrite for_cons in *. rewrite bind_trace, filter_app, course_mkdir by assumption.
  cbn [map app]. f_equal.
  unfold bind in H.
  destruct (download_course env self fuel [output_dir] c h) as [t [[]|e|]] eqn:R;
    cbn [fst snd] in *; try discriminate H.
  apply IH.
  destruct (for_ cs (fun course_id _ => download_course env self fuel [output_dir] course_id)
              tt (h ++ t)) as [t' o']. exact H.
Qed.

End Directories.

(** ** Construction and entry point *)

Lemma dropwhile_split {A} (p : A -> bool) (l : list A) :
  exists pre, l = pre ++ Str.dropwhile p l /\ Forall (fun x => p x = true) pre.
Proof.
  induction l as [|x l IH]; [exists []; auto|].
  simpl. destruct (p x) eqn:Px.
  - destruct IH as (pre & E & F). exists (x :: pre). split.
    + simpl. now rewrite <- E.
    + now constructor.
  - exists []. auto.
Qed.

Lemma dropwhile_head {A} (p : A -> bool) (l : list A) x l' :
  Str.dropwhile p l = x :: l' -> p x = false.
Proof.
  induction l as [|y l IH]; [discriminate|].
  simpl. destruct (p y) eqn:Py; [exact IH|].
  intros H. inversion H. now subst.
Qed.

Lemma dropwhile_fixed {A} (p : A -> bool) (l : list A) :
  Str.dropwhile p (Str.dropwhile p l) = Str.dropwhile p l.
Proof.
  destruct (Str.dropwhile p l) as [|x l'] eqn:E; [reflexivity|].
  simpl. now rewrite (dropwhile_head p l x l' E).
Qed.

Lemma all_slashes (l : list ascii) :
  Forall (fun c => Ascii.eqb c "/" = true) l -> l = repeat "/"%char (List.length l).
Proof.
  induction 1 as [|c l H F IH]; [reflexivity|].
  apply Ascii.eqb_eq in H. subst c. simpl. now rewrite <- IH.
Qed.

(** X12.  The constructor keeps the key as it is and the base URL
    without its trailing slashes: what it stores followed by some
    slashes is the URL given, what it stores does not end with a slash,
    and constructing again from the stored URL changes nothing. *)
Theorem init_base_url (key url : string) :
  api_key (__init__ key url) = key
  /\ (exists n, Str.chars url
                = Str.chars (base_url (__init__ key url)) ++ repeat "/"%char n)
  /\ (forall s, base_url (__init__ key url) <> (s ++ "/")%string)
  /\ __init__ key (base_url (__init__ key url)) = __init__ key url.
Proof.
  split; [reflexivity|]. cbn [__init__ base_url]. unfold rstrip_slash.
  set (p := fun c => Ascii.eqb c "/").
  destruct (dropwhile_split p (rev (Str.chars url))) as (pre & E & F).
  split; [|split].
  - exists (List.length (rev pre)). rewrite chars_of_chars.
    rewrite <- (all_slashes (rev pre)) by now apply Forall_rev.
    rewrite <- rev_app_distr, <- E. now rewrite rev_involutive.
  - intros s H. apply (f_equal Str.chars) in H.
    rewrite chars_of_chars, chars_append in H.
    apply (f_equal (@rev ascii)) in H. rewrite rev_involutive, rev_app_distr in H.
    simpl in H. apply dropwhile_head in H. discriminate H.
  - unfold __init__. f_equal. unfold rstrip_slash. fold p.
    rewrite chars_of_chars, rev_involutive. now rewrite dropwhile_fixed.
Qed.

(** X13.  Without a key, [main] prints the error and ends with status
    1 before anything else happens: no directory, no request.  A key is
    missing when the argument is absent or empty and the variable of the
    environment is unset or empty. *)
Theorem main_without_key (env : Env) (fuel : nat) (args : Args)
  (environ_key : option string) (h : trace) :
  (args_api_key args = None \/ args_api_key args = Some EmptyString) ->
  (environ_key = None \/ environ_key = Some EmptyString) ->
  main env fuel args environ_key h
  = ([Stdout "Error: API key must be provided via --api-key argument or SKILLJAR_API_KEY environment variable"],
     Ret 1)
  /\ filter is_outside (fst (main env fuel args environ_key h)) = [].
Proof.
  intros Ha He.
  assert (E : main env fuel args environ_key h
              = ([Stdout "Error: API key must be provided via --api-key argument or SKILLJAR_API_KEY environment variable"],
                 Ret 1)).
  { unfold main, py_or.
    destruct Ha as [-> | ->], He as [-> | ->]; reflexivity. }
  rewrite E. split; reflexivity.
Qed.


(** ** What the extractor returns *)

Lemma extract_member html u :
  In u (_extract_urls_from_html html) ->
  is_absolute u = true
  /\ ((exists tag, In tag src_tags /\ ReSpec.src_occurrence tag html u)
      \/ ReSpec.href_occurrence html u).
Proof.
  rewrite ExtractFacts.extract_unfold. intros H.
  apply filter_In in H. destruct H as (H & Ha). split; [exact Ha|].
  apply in_flat_map in H. destruct H as (p & Hp & Hu).
  unfold patterns in Hp. apply in_app_or in Hp. destruct Hp as [Hp|[<-|[]]].
  - apply in_map_iff in Hp. destruct Hp as (tag & <- & Ht).
    left. exists tag. split; [exact Ht|].
    now apply ExtractFacts.findall_src_sound.
  - right. now apply ExtractFacts.findall_href_sound.
Qed.

Lemma substring_of_chars html u (pre post : list ascii) :
  Str.chars html = pre ++ Str.chars u ++ post ->
  html = (Str.of_chars pre ++ u ++ Str.of_chars post)%string.
Proof.
  intros H. apply chars_inj. now rewrite !chars_append, !chars_of_chars.
Qed.

(** X15.  Every URL that the extractor returns starts with [http://] or
    [https://] in lower case, holds no quote, and stands in the input
    between two quotes. *)
Theorem extracted_urls_wellformed (html u : string) :
  In u (_extract_urls_from_html html) ->
  (exists r, u = ("http://" ++ r)%string \/ u = ("https://" ++ r)%string)
  /\ (forall x, In x (Str.chars u) -> x <> dquote /\ x <> squote)
  /\ (exists a q1 q2 b,
        html = (a ++ String q1 u ++ String q2 b)%string
        /\ (q1 = dquote \/ q1 = squote) /\ (q2 = dquote \/ q2 = squote)).
Proof.
  intros H. apply extract_member in H. destruct H as (Ha & Ho).
  split; [now apply ExtractFacts.is_absolute_spec|].
  assert (O : exists pre q1 q2 post,
             Str.chars html = pre ++ [q1] ++ Str.chars u ++ [q2] ++ post
             /\ ReSpec.is_quote q1 /\ ReSpec.is_quote q2
             /\ (forall x, In x (Str.chars u) -> ~ ReSpec.is_quote x)).
  { destruct Ho as [(tag & _ & O)|O].
    - destruct O as (pre & t & mid & a & q1 & q2 & post & E & _ & _ & _ & _
                     & Hq1 & Hq2 & _ & Fu).
      exists (pre ++ t ++ mid ++ a), q1, q2, post. repeat split; auto.
      rewrite E. now rewrite <- !app_assoc.
    - destruct O as (pre & t & mid & a & q1 & q2 & post & stem & ext & e & E & _
                     & _ & _ & _ & Hq1 & Hq2 & _ & _ & _ & _ & Fu).
      exists (pre ++ t ++ mid ++ a), q1, q2, post. repeat split; auto.
      rewrite E. now rewrite <- !app_assoc. }
  destruct O as (pre & q1 & q2 & post & E & Hq1 & Hq2 & Fu).
  split.
  - intros x Hx. specialize (Fu x Hx). unfold ReSpec.is_quote in Fu. tauto.
  - exists (Str.of_chars pre), q1, q2, (Str.of_chars post).
    split; [|split; [exact Hq1|exact Hq2]].
    apply chars_inj. rewrite chars_append. simpl.
    change (list_ascii_of_string ?s) with (Str.chars s).
    rewrite chars_append. simpl.
    change (list_ascii_of_string ?s) with (Str.chars s).
    rewrite !chars_of_chars. exact E.
Qed.

Lemma lower_hits_lt (x : ascii) : Str.lower x = "<"%char -> x = "<"%char.
Proof.
  destruct x as [[] [] [] [] [] [] [] []]; intros H;
    (reflexivity || discriminate H).
Qed.

Lemma occurrence_has_lt (t : list ascii) (s : string) :
  ReSpec.eq_ci t (Str.chars ("<" ++ s)) -> In "<"%char t.
Proof.
  unfold ReSpec.eq_ci. rewrite chars_append. simpl.
  destruct t as [|x t]; [discriminate|]. simpl. intros H. inversion H.
  left. now apply lower_hits_lt.
Qed.

(** X16.  From an input without any quote character, or without any
    [<], the extractor returns nothing; in particular attribute values
    written without quotes are not found. *)
Theorem extract_needs_quotes_and_tags (html : string) :
  (forall x, In x (Str.chars html) -> x <> dquote /\ x <> squote)
  \/ ~ In "<"%char (Str.chars html) ->
  _extract_urls_from_html html = [].
Proof.
  intros H. destruct (_extract_urls_from_html html) as [|u l] eqn:E; [reflexivity|].
  exfalso. assert (Hu : In u (_extract_urls_from_html html)) by (rewrite E; simpl; auto).
  apply extract_member in Hu. destruct Hu as (_ & Ho).
  assert (O : exists pre t mid a q1 rest s,
             Str.chars html = pre ++ t ++ mid ++ a ++ [q1] ++ rest
             /\ ReSpec.is_quote q1 /\ ReSpec.eq_ci t (Str.chars ("<" ++ s))).
  { destruct Ho as [(tag & _ & O)|O].
    - destruct O as (pre & t & mid & a & q1 & q2 & post & Eh & Et & _ & _ & _
                     & Hq1 & _).
      exists pre, t, mid, a, q1, (Str.chars u ++ [q2] ++ post), tag.
      split; [exact Eh|]. split; [exact Hq1|exact Et].
    - destruct O as (pre & t & mid & a & q1 & q2 & post & stem & ext & e & Eh & Et
                     & _ & _ & _ & Hq1 & _).
      exists pre, t, mid, a, q1, (Str.chars u ++ [q2] ++ post), "a"%string.
      split; [exact Eh|]. split; [exact Hq1|exact Et]. }
  destruct O as (pre & t & mid & a & q1 & rest & s & Eh & Hq1 & Et).
  destruct H as [H|H].
  - assert (Hin : In q1 (Str.chars html)).
    { rewrite Eh. do 4 (apply in_or_app; right). simpl. auto. }
    destruct (H q1 Hin) as (N1 & N2). destruct Hq1; contradiction.
  - apply H. rewrite Eh. apply in_or_app. right. apply in_or_app. left.
    eapply occurrence_has_lt; eauto.
Qed.

(** ** Names of directories and files *)

(** X17.  The sanitized title holds only alphanumerics, spaces, hyphens
    and underscores, so no slash and no dot; it does not end with a
    space; and sanitizing it again changes nothing. *)
Theorem safe_title_is_safe (t : string) :
  (forall c, In c (Str.chars (safe_title_of t)) -> keeps c = true)
  /\ ~ In "/"%char (Str.chars (safe_title_of t))
  /\ ~ In "."%char (Str.chars (safe_title_of t))
  /\ (forall s, safe_title_of t <> (s ++ " ")%string)
  /\ safe_title_of (safe_title_of t) = safe_title_of t.
Proof.
  assert (K : forall c, In c (Str.chars (safe_title_of t)) -> keeps c = true).
  { intros c. rewrite safe_title_chars, <- in_rev. intros H.
    apply dropwhile_incl in H. rewrite <- in_rev in H.
    apply filter_In in H. tauto. }
  split; [exact K|]. split; [|split; [|split]].
  - intros H. apply K in H. discriminate H.
  - intros H. apply K in H. discriminate H.
  - intros s H. apply (f_equal Str.chars) in H.
    rewrite safe_title_chars, chars_append in H.
    apply (f_equal (@rev ascii)) in H. rewrite rev_involutive, rev_app_distr in H.
    simpl in H. apply dropwhile_head in H. discriminate H.
  - apply chars_inj. rewrite (safe_title_chars (safe_title_of t)).
    rewrite filter_all by (apply Forall_forall; exact K).
    rewrite safe_title_chars at 1. rewrite rev_involutive, dropwhile_fixed.
    symmetry. apply safe_title_chars.
Qed.

Lemma lesson_dir_name_inj (l1 l2 : Lesson) :
  ~ In "_"%char (Str.chars (l_id l1)) ->
  ~ In "_"%char (Str.chars (l_id l2)) ->
  lesson_dir_name l1 = lesson_dir_name l2 ->
  l_id l1 = l_id l2
  /\ safe_title_of (lesson_title_of l1) = safe_title_of (lesson_title_of l2).
Proof.
  intros H1 H2 E. unfold lesson_dir_name in E.
  apply (f_equal Str.chars) in E. rewrite !chars_append in E.
  change (Str.chars "_") with ["_"%char] in E.
  apply (f_equal (@rev ascii)) in E. rewrite !rev_app_distr in E.
  cbn [rev app] in E. rewrite <- !app_assoc in E. cbn [app] in E.
  assert (Ei : rev (Str.chars (l_id l1)) = rev (Str.chars (l_id l2))).
  { eapply NameFacts.cut_unique; [| |exact E]; now rewrite <- in_rev. }
  rewrite Ei in E. apply app_inv_head in E. inversion E as [Es].
  split; apply chars_inj.
  - rewrite <- (rev_involutive (Str.chars (l_id l1))), Ei. apply rev_involutive.
  - rewrite <- (rev_involutive (Str.chars (safe_title_of _))), Es.
    apply rev_involutive.
Qed.

(** X18.  Two lessons whose identifiers hold neither an underscore nor a
    slash, and whose directories inside one course directory are the
    same path for [pathlib], have the same identifier and the same
    sanitized title: lessons with different such identifiers never get
    the same directory path. *)
Theorem lesson_dir_name_injective (course_dir : path) (l1 l2 : Lesson) :
  ~ In "_"%char (Str.chars (l_id l1)) ->
  ~ In "_"%char (Str.chars (l_id l2)) ->
  ~ In "/"%char (Str.chars (l_id l1)) ->
  ~ In "/"%char (Str.chars (l_id l2)) ->
  pathlib_parts (lesson_dir l1 course_dir) = pathlib_parts (lesson_dir l2 course_dir) ->
  l_id l1 = l_id l2
  /\ safe_title_of (lesson_title_of l1) = safe_title_of (lesson_title_of l2).
Proof.
  intros U1 U2 S1 S2 E. unfold lesson_dir in E.
  rewrite !pathlib_parts_join in E by apply lesson_dir_relative.
  apply app_inv_head in E.
  rewrite !lesson_dir_plain in E by assumption.
  inversion E as [En]. now apply lesson_dir_name_inj.
Qed.

Lemma last_field_after sep b : forall s acc,
  Str.last_field sep acc (s ++ sep :: b) = Str.last_field sep [] b.
Proof.
  induction s as [|c s IH]; intros acc; simpl.
  - now rewrite Ascii.eqb_refl.
  - destruct (Ascii.eqb c sep); apply IH.
Qed.

Lemma last_field_plain sep : forall b acc,
  ~ In sep b -> Str.last_field sep acc b = rev acc ++ b.
Proof.
  induction b as [|c b IH]; intros acc H; simpl.
  - now rewrite app_nil_r.
  - destruct (Ascii.eqb c sep) eqn:E.
    + apply Ascii.eqb_eq in E. subst c. exfalso. apply H. simpl. auto.
    + rewrite IH by (intros Hin; apply H; simpl; auto).
      simpl. now rewrite <- app_assoc.
Qed.

Lemma last_field_tail sep b : ~ In sep b -> forall a acc,
  Str.last_field sep acc (a ++ b) = Str.last_field sep acc a ++ b.
Proof.
  intros H. induction a as [|c a IH]; intros acc; simpl.
  - now apply last_field_plain.
  - destruct (Ascii.eqb c sep); apply IH.
Qed.

(** X19.  With extension inference, when the URL has a dot after which
    neither a dot nor a slash comes, the file name is the prefix, a dot
    and everything after that dot, whatever the response says about its
    content type: the header is not looked at, and a query string or a
    fragment behind the dot becomes part of the extension. *)
Theorem extension_from_url_tail (base tail filename_prefix : string)
  (header : option string) :
  ~ In "."%char (Str.chars tail) ->
  ~ In "/"%char (Str.chars tail) ->
  determine_filename (base ++ "." ++ tail) filename_prefix true header
  = (filename_prefix ++ "." ++ tail)%string.
Proof.
  intros Hd Hs.
  assert (Seg : Str.split_last "/" (base ++ "." ++ tail)
                = (Str.split_last "/" base ++ "." ++ tail)%string).
  { unfold Str.split_last. apply chars_inj.
    rewrite chars_of_chars, !chars_append, chars_of_chars.
    apply last_field_tail. change (Str.chars ".") with ["."%char].
    intros [H|H]; [discriminate H|contradiction]. }
  assert (Dot : Str.contains "." (Str.split_last "/" base ++ "." ++ tail) = true).
  { apply StrFacts.contains_spec. eauto. }
  assert (Ext : Str.split_last "." (Str.split_last "/" base ++ "." ++ tail) = tail).
  { unfold Str.split_last at 1. apply chars_inj.
    rewrite chars_of_chars, !chars_append.
    change (Str.chars ".") with ["."%char]. cbn [app].
    rewrite last_field_after. now apply last_field_plain. }
  unfold determine_filename. now rewrite Seg, Dot, Ext.
Qed.

(** ** The further properties at work *)

Lemma paginator_never_stops_witness :
  snd (_get_paginated_results Demo.env Demo.self 4 Demo2.endless "/v1/items" None [])
  = OutOfFuel
  /\ List.length (filter is_request
       (fst (_get_paginated_results Demo.env Demo.self 4 Demo2.endless
               "/v1/items" None []))) = 4.
Proof.
  destruct (paginator_never_stops Demo.env Demo.self Demo2.endless "/v1/items" None
              (fun _ => Paged [JNull] (Some "next"%string)) 4 []) as (R & Q).
  - intros h' i Hi. reflexivity.
  - intros i Hi. split; [reflexivity|discriminate].
  - rewrite R. cbn [fst snd]. rewrite Q. split; reflexivity.
Defined.

Lemma content_pages_dropped_witness :
  snd (get_lesson_content Demo2.env Demo.self 5 "42" []) = Ret []
  /\ List.length (filter is_request
                    (fst (get_lesson_content Demo2.env Demo.self 5 "42" []))) = 2.
Proof.
  rewrite (content_pages_dropped Demo2.env Demo.self "42"
             (fun _ => Paged [Demo.item_b] (Some "next"%string)) 2 5
             "502 Server Error" []).
  - split; reflexivity.
  - lia.
  - intros h' i Hi. assert (i = 1) as -> by lia. reflexivity.
  - intros i Hi. split; [reflexivity|discriminate].
  - intros h'. reflexivity.
Defined.

Lemma asset_failure_isolation_witness :
  exists body,
    In (WriteFile ["downloads"; "course_c1"; "Intro Part 12_42"; "asset_2_1.png"]%string
                  body)
       (fst Demo.run42).
Proof.
  apply (asset_failure_isolation Demo.env Demo.self 3 Demo.lesson42 Demo.course_dir []
           (JObj [("status", JStr "published")]) [Demo.item_a; Demo.item_b]
           ["https://a/1.png"; "https://a/doc.pdf"]%string
           ["https://a/1.png"; "http://[x"]%string
           "https://a/1.png" "1.png").
  - reflexivity.
  - reflexivity.
  - reflexivity.
  - reflexivity.
  - intros h'. eexists. reflexivity.
Defined.

Lemma asset_numbering_witness :
  asset_prefixes (fst Demo.run42)
  = ["asset_0_1.png"; "asset_1_doc.pdf"; "asset_2_1.png"; "asset_3_1.png"]%string.
Proof.
  exact (asset_numbering Demo.env Demo.self 3 Demo.lesson42 Demo.course_dir []
           (JObj [("status", JStr "published")]) [Demo.item_a; Demo.item_b]
           eq_refl eq_refl).
Defined.

Lemma lesson_details_failure_raises_witness :
  snd (download_lesson_content Demo2.env Demo.self 3 Demo2.lesson_bad
         Demo2.course_dir [])
  = Raise (RequestException "404 Client Error").
Proof.
  apply (lesson_details_failure_raises Demo2.env Demo.self 3 Demo2.lesson_bad
           Demo2.course_dir [] "404 Client Error").
  reflexivity.
Defined.

Lemma course_without_lessons_witness :
  download_course Demo2.env Demo.self 3 ["downloads"] "empty" []
  = ([Stdout (newline ++ "Processing course: empty");
      Mkdir ["downloads"; "course_empty"];
      Stdout "Fetching lessons for course empty...";
      Request "GET" "https://api.skilljar.com/v1/lessons"
        (Some [("course_id", PStr "empty"); ("page", PInt 1)]);
      Stdout "  No lessons found for course empty"],
     Ret tt).
Proof.
  apply (course_without_lessons Demo2.env Demo.self 3 ["downloads"] "empty" []
           (Paged [] (Some "https://api.skilljar.com/v1/lessons?page=2"%string))).
  - lia.
  - intros h'. reflexivity.
  - reflexivity.
Defined.

Lemma lesson_failure_skips_rest_witness :
  filter is_mkdir (fst (download_course Demo2.env Demo.self 3 ["downloads"] "c2" []))
  = [Mkdir ["downloads"; "course_c2"];
     Mkdir ["downloads"; "course_c2"; "Intro Part 12_42"];
     Mkdir ["downloads"; "course_c2"; "Broken_bad"]]
  /\ snd (download_course Demo2.env Demo.self 3 ["downloads"] "c2" []) = Ret tt.
Proof.
  rewrite (lesson_failure_skips_rest Demo2.env Demo.self 3 ["downloads"] "c2" []
             (fst (get_course_lessons Demo2.env Demo.self 3 "c2"
                     [Stdout (newline ++ "Processing course: c2");
                      Mkdir ["downloads"; "course_c2"]]))
             (fst (download_lesson_content Demo2.env Demo.self 3 Demo.lesson42
                     Demo2.course_dir
                     ([Stdout (newline ++ "Processing course: c2");
                       Mkdir ["downloads"; "course_c2"]]
                        ++ fst (get_course_lessons Demo2.env Demo.self 3 "c2"
                                  [Stdout (newline ++ "Processing course: c2");
                                   Mkdir ["downloads"; "course_c2"]])
                        ++ [Stdout "  Found 3 lessons"])))
             [Demo.lesson42] [Demo.lesson43] Demo2.lesson_bad "404 Client Error").
  - split; reflexivity.
  - reflexivity.
  - reflexivity.
  - reflexivity.
Defined.

Lemma course_directories_witness :
  filter (is_mkdir_at_depth 2)
         (fst (download_courses Demo2.env Demo.self 3 ["nope"; "empty"; "c2"]
                 "downloads" []))
  = [Mkdir ["downloads"; "course_nope"]; Mkdir ["downloads"; "course_empty"];
     Mkdir ["downloads"; "course_c2"]].
Proof.
  apply (course_directories Demo2.env Demo.self 3 ["nope"; "empty"; "c2"]%string
           "downloads" []).
  - reflexivity.
  - repeat constructor; cbn; intros H;
      repeat (destruct H as [H|H]; [discriminate H|]); destruct H.
  - reflexivity.
Defined.

Lemma main_without_key_witness :
  snd (main Demo.env 3 (mkArgs (Some "") ["c1"] "downloads" "https://api.skilljar.com/")
            None [])
  = Ret 1.
Proof.
  rewrite (proj1 (main_without_key Demo.env 3
                    (mkArgs (Some "") ["c1"] "downloads" "https://api.skilljar.com/")
                    None [] (or_intror eq_refl) (or_introl eq_refl))).
  reflexivity.
Defined.


Lemma extracted_urls_wellformed_witness :
  exists a q1 q2 b,
    Demo.html1 = (a ++ String q1 "https://a/doc.pdf" ++ String q2 b)%string
    /\ (q1 = dquote \/ q1 = squote) /\ (q2 = dquote \/ q2 = squote).
Proof.
  apply (extracted_urls_wellformed Demo.html1 "https://a/doc.pdf").
  right. left. reflexivity.
Defined.

Lemma extract_needs_quotes_and_tags_witness :
  _extract_urls_from_html "<img src=https://a/1.png>" = [].
Proof.
  apply extract_needs_quotes_and_tags. left.
  intros x Hx. simpl in Hx.
  repeat (destruct Hx as [<-|Hx]; [split; discriminate|]). destruct Hx.
Defined.

Lemma lesson_dir_name_injective_witness :
  l_id (mkLesson "42" (Some "Intro: Part 1/2?")) = l_id (mkLesson "42" (Some "Intro Part 12 "))
  /\ safe_title_of "Intro: Part 1/2?" = safe_title_of "Intro Part 12 ".
Proof.
  apply (lesson_dir_name_injective ["downloads"; "course_c1"]
           (mkLesson "42" (Some "Intro: Part 1/2?"))
           (mkLesson "42" (Some "Intro Part 12 "))).
  - simpl. intros [H|[H|[]]]; discriminate H.
  - simpl. intros [H|[H|[]]]; discriminate H.
  - simpl. intros [H|[H|[]]]; discriminate H.
  - simpl. intros [H|[H|[]]]; discriminate H.
  - reflexivity.
Defined.

Lemma extension_from_url_tail_witness :
  determine_filename "https://cdn.example/clip.mp4?token=1" "content_0" true
    (Some "application/pdf")
  = "content_0.mp4?token=1"%string.
Proof.
  apply (extension_from_url_tail "https://cdn.example/clip" "mp4?token=1"
           "content_0" (Some "application/pdf")).
  - simpl. intros H. repeat (destruct H as [H|H]; [discriminate H|]). destruct H.
  - simpl. intros H. repeat (destruct H as [H|H]; [discriminate H|]). destruct H.
Defined.
